(** * AtlasHub gateway: the CRUD and DDL engine of [services/crud.ts]
    and the public routes of [routes/public/db.ts], as a shallow embedding.

    Conventions of the embedding.
    - A JavaScript string is a Rocq [string]; its characters stand for code
      units below 256.  Every test the code makes on characters (the
      identifier and default-value regular expressions, [toLowerCase],
      [trim], [parseInt]) is modelled on that range.
    - A JavaScript number is [NaN] or an integer [Num z]; the code only
      produces integers ([parseInt], configuration values, counters).
    - [async] functions run to completion one after the other: a request is
      a function from the world before it to a result and the world after it.
      A [throw] is the result [Throw e]; effects made before it persist.
    - The world holds the module-level [tableInfoCache], the clock read by
      [Date.now()], the database server behind [projectDb] and the list of
      the statements sent to it.  The server is a parameter: the gateway only
      sends it statements and reads what comes back.
    - [lib/sql-builder] and [lib/query-parser] are not among the sources;
      their functions are modelled from the specification, and the routes
      take the parser as an interface.
    - Beside the engine and its routes, the file embeds the CSV reader and
      writer of [services/import-export.ts] and [services/backup.ts]; the
      object that the reader builds for a line is the map of its own
      properties. *)

From Stdlib Require Import String Ascii ZArith List Bool Lia DecimalString.
From stdpp Require Import base gmap strings list.

Open Scope string_scope.
Open Scope Z_scope.

(** ** JavaScript primitives used by the gateway *)

Module Js.

Definition dquote : string := String (ascii_of_nat 34) EmptyString.
Definition nl : string := String (ascii_of_nat 10) EmptyString.

Definition code (c : ascii) : nat := nat_of_ascii c.

Definition between (lo hi : nat) (c : ascii) : bool :=
  (Nat.leb lo (code c) && Nat.leb (code c) hi)%bool.

Definition isDigit : ascii -> bool := between 48 57.
Definition isLower : ascii -> bool := between 97 122.
Definition isUpper : ascii -> bool := between 65 90.

(** [\s] and the white space of [trim] and [parseInt], below 256. *)
Definition isWhiteSpace (c : ascii) : bool :=
  (between 9 13 c || Nat.eqb (code c) 32 || Nat.eqb (code c) 160)%bool.

Fixpoint all (p : ascii -> bool) (s : string) : bool :=
  match s with
  | EmptyString => true
  | String c r => (p c && all p r)%bool
  end.

Fixpoint mapChars (f : ascii -> ascii) (s : string) : string :=
  match s with
  | EmptyString => EmptyString
  | String c r => String (f c) (mapChars f r)
  end.

(** [String.prototype.toLowerCase] on code units below 256: the ASCII
    capitals and the capitals of the Latin-1 block move up by 32. *)
Definition lowerChar (c : ascii) : ascii :=
  if (isUpper c || (between 192 222 c && negb (Nat.eqb (code c) 215)))%bool
  then ascii_of_nat (code c + 32) else c.

Definition toLowerCase : string -> string := mapChars lowerChar.

Fixpoint dropWhile (p : ascii -> bool) (s : string) : string :=
  match s with
  | EmptyString => EmptyString
  | String c r => if p c then dropWhile p r else s
  end.

Fixpoint takeWhile (p : ascii -> bool) (s : string) : string :=
  match s with
  | EmptyString => EmptyString
  | String c r => if p c then String c (takeWhile p r) else EmptyString
  end.

Definition trimStart : string -> string := dropWhile isWhiteSpace.
Definition trim (s : string) : string :=
  String.rev (trimStart (String.rev (trimStart s))).

(** [s.split(sep)[0]] for a one-character separator. *)
Definition beforeFirst (sep : ascii) : string -> string :=
  takeWhile (fun c => negb (Ascii.eqb c sep)).

(** [s.split(sep)] for a one-character separator. *)
Fixpoint splitGo (sep : ascii) (cur : string) (s : string) : list string :=
  match s with
  | EmptyString => [String.rev cur]
  | String c r =>
      if Ascii.eqb c sep then String.rev cur :: splitGo sep EmptyString r
      else splitGo sep (String c cur) r
  end.
Definition split (sep : ascii) (s : string) : list string :=
  splitGo sep EmptyString s.

(** [Array.prototype.join]. *)
Fixpoint join (sep : string) (l : list string) : string :=
  match l with
  | [] => EmptyString
  | [x] => x
  | x :: rest => x +:+ sep +:+ join sep rest
  end.

Fixpoint startsWith (p s : string) : bool :=
  match p, s with
  | EmptyString, _ => true
  | String a p', String b s' => (Ascii.eqb a b && startsWith p' s')%bool
  | String _ _, EmptyString => false
  end.

(** [String.prototype.includes]: [needle] occurs in [s]. *)
Fixpoint includes (needle s : string) : bool :=
  (startsWith needle s ||
   match s with
   | EmptyString => false
   | String _ r => includes needle r
   end)%bool.

(** [Array.prototype.includes] on an array of strings. *)
Definition arrayIncludes (l : list string) (x : string) : bool :=
  existsb (String.eqb x) l.

(** Numbers. *)
Inductive number : Type :=
| NaN
| Num (z : Z).

Definition truthy (n : number) : bool :=
  match n with
  | NaN => false
  | Num z => negb (z =? 0)
  end.

(** [x || d] where [x] may be [undefined]. *)
Definition orElse (x : option number) (d : number) : number :=
  match x with
  | Some n => if truthy n then n else d
  | None => d
  end.

(** [Math.min] of two numbers. *)
Definition mathMin (a b : number) : number :=
  match a, b with
  | Num x, Num y => Num (Z.min x y)
  | _, _ => NaN
  end.

Definition natToString (n : nat) : string :=
  NilZero.string_of_uint (Nat.to_uint n).

(** Number-to-string conversion of a template literal. *)
Definition numberToString (n : number) : string :=
  match n with
  | NaN => "NaN"
  | Num z => NilZero.string_of_int (Z.to_int z)
  end.

Definition digitValue (c : ascii) : Z := Z.of_nat (code c - 48).

Fixpoint digitsValue (acc : Z) (s : string) : Z :=
  match s with
  | EmptyString => acc
  | String c r => digitsValue (10 * acc + digitValue c) r
  end.

(** [parseInt(s, 10)]: leading white space is skipped, one sign is read,
    then the longest run of decimal digits; no digit gives [NaN]. *)
Definition parseInt10 (s : string) : number :=
  let s1 := trimStart s in
  let '(negative, s2) :=
    match s1 with
    | String c r =>
        if Ascii.eqb c "-" then (true, r)
        else if Ascii.eqb c "+" then (false, r)
        else (false, s1)
    | EmptyString => (false, s1)
    end in
  match takeWhile isDigit s2 with
  | EmptyString => NaN
  | ds => Num (if negative then - digitsValue 0 ds else digitsValue 0 ds)
  end.

End Js.


(** ** Data model *)

(** A value of type [unknown]: what a JSON body or a driver row can hold. *)
#[warnings="-register-all"]
Inductive value : Type :=
| VNull
| VBool (b : bool)
| VNum (n : Js.number)
| VStr (s : string)
| VArr (elems : list value)
| VObj (fields : list (string * value)).

(** [Record<string, unknown>], by its [Object.entries] enumeration. *)
Definition Row : Type := list (string * value).

(** [Record<string, string>]: the query string of a request. *)
Definition Query : Type := list (string * string).

Fixpoint lookupKey {A : Type} (k : string) (l : list (string * A)) : option A :=
  match l with
  | [] => None
  | (k', v) :: r => if String.eqb k k' then Some v else lookupKey k r
  end.

Record ColumnInfo : Type := {
  ci_name : string;
  ci_type : string;
  ci_nullable : bool;
  ci_defaultValue : option string;
}.

Record TableInfo : Type := {
  tableName : string;
  columns : list ColumnInfo;
}.

Inductive Operator : Type := eq | neq | lt | lte | gt | gte | like | ilike.

(** A ParsedFilter: a comparison carries one value, [in] a value list. *)
Inductive ParsedFilter : Type :=
| Cmp (column : string) (operator : Operator) (val : string)
| In (column : string) (vals : list string).

Definition filterColumn (f : ParsedFilter) : string :=
  match f with
  | Cmp c _ _ => c
  | In c _ => c
  end.

Inductive Direction : Type := ASC | DESC.

Record ParsedOrder : Type := {
  order_column : string;
  order_direction : Direction;
}.

(** [string[] | '*'] *)
Inductive Projection : Type :=
| Star
| Columns (cols : list string).

Record ColumnDefinition : Type := {
  cd_name : string;
  cd_type : string;
  cd_nullable : option bool;
  cd_primaryKey : option bool;
  cd_unique : option bool;
  cd_defaultValue : option string;
  cd_references : option (string * string);
}.

(** [config.query] of [config/env.ts]. *)
Record QueryConfig : Type := {
  maxRowsPerQuery : Z;
  defaultRowsLimit : Z;
}.

(** The bounds that the environment schema of [config/env.ts] enforces:
    MAX_ROWS_PER_QUERY in 1..10000 and DEFAULT_ROWS_LIMIT in 1..1000. *)
Definition validConfig (c : QueryConfig) : Prop :=
  1 <= maxRowsPerQuery c <= 10000 /\ 1 <= defaultRowsLimit c <= 1000.

(** The values used when the environment sets neither variable. *)
Definition defaultConfig : QueryConfig :=
  {| maxRowsPerQuery := 1000; defaultRowsLimit := 100 |}.

(** ** Errors, the driver, and the world a request runs in *)

Inductive Error : Type :=
| BadRequestError (message : string)
| NotFoundError (message : string)
| ForbiddenError (message : string)
| DriverError (message : string).

Inductive Result (A : Type) : Type :=
| Ok (a : A)
| Throw (e : Error).
Arguments Ok {A} a.
Arguments Throw {A} e.

Inductive Role : Type := App | Owner.

(** What [pg] resolves a query to. *)
Record QueryResult : Type := {
  rows : list Row;
  rowCount : option Z;
}.

(** One call of [projectDb.queryAsApp] or [projectDb.queryAsOwner]. *)
Record Statement : Type := {
  st_role : Role;
  st_project : string;
  st_sql : string;
  st_params : list value;
}.

(** The database server behind [projectDb]: it answers a statement with a
    result or an error and moves to a new state.  The gateway knows nothing
    else about it. *)
Class Database (Db : Type) : Type := {
  execute : Statement -> Db -> Result QueryResult * Db;
}.

Record CacheEntry : Type := {
  ce_tables : list TableInfo;
  ce_timestamp : Z;
}.

Record World (Db : Type) : Type := {
  tableInfoCache : gmap string CacheEntry;
  clock : Z;
  db : Db;
  issued : list Statement;
}.
Arguments tableInfoCache {Db} w.
Arguments clock {Db} w.
Arguments db {Db} w.
Arguments issued {Db} w.

(** Computations of the gateway: state passing with exceptions. *)
Definition M (Db A : Type) : Type := World Db -> Result A * World Db.

Definition ret {Db A : Type} (a : A) : M Db A := fun w => (Ok a, w).

Definition throw {Db A : Type} (e : Error) : M Db A := fun w => (Throw e, w).

Definition bind {Db A B : Type} (m : M Db A) (k : A -> M Db B) : M Db B :=
  fun w =>
    match m w with
    | (Ok a, w') => k a w'
    | (Throw e, w') => (Throw e, w')
    end.

Definition liftResult {Db A : Type} (r : Result A) : M Db A :=
  fun w => (r, w).

Notation "'let!' x ':=' m 'in' k" := (bind m (fun x => k))
  (at level 10, x name, m at level 100, k at level 200).
Notation "'run!' m 'in' k" := (bind m (fun _ => k))
  (at level 10, m at level 100, k at level 200).

(** Pure computations that may throw. *)
Definition bindR {A B : Type} (r : Result A) (k : A -> Result B) : Result B :=
  match r with
  | Ok a => k a
  | Throw e => Throw e
  end.

(** ** [lib/sql-builder] and [lib/query-parser] *)

Module sqlBuilder.

Definition quoteIdent (name : string) : string :=
  Js.dquote +:+ name +:+ Js.dquote.

Definition placeholder (paramIndex : nat) : string :=
  "$" +:+ Js.natToString paramIndex.

(** The placeholders numbered [first], [first + 1], ..., [count] of them. *)
Fixpoint placeholdersFrom (first count : nat) : list string :=
  match count with
  | O => []
  | S n => placeholder first :: placeholdersFrom (S first) n
  end.

Definition operatorSql (op : Operator) : string :=
  match op with
  | eq => "="
  | neq => "<>"
  | lt => "<"
  | lte => "<="
  | gt => ">"
  | gte => ">="
  | like => "LIKE"
  | ilike => "ILIKE"
  end.

Definition condition (f : ParsedFilter) (paramIndex : nat) : string :=
  match f with
  | Cmp c op _ =>
      quoteIdent c +:+ " " +:+ operatorSql op +:+ " " +:+ placeholder paramIndex
  | In c vs =>
      quoteIdent c +:+ " IN (" +:+
      Js.join ", " (placeholdersFrom paramIndex (length vs)) +:+ ")"
  end.

Definition filterValues (f : ParsedFilter) : list value :=
  match f with
  | Cmp _ _ v => [VStr v]
  | In _ vs => map VStr vs
  end.

Fixpoint conditions (filters : list ParsedFilter) (paramIndex : nat)
  : list string :=
  match filters with
  | [] => []
  | f :: rest =>
      condition f paramIndex
      :: conditions rest (paramIndex + length (filterValues f))%nat
  end.

(** Modelled from the spec: [buildWhereClause] of [lib/sql-builder], which
    is not among the sources.  Section 4.4: the operator mapping is fixed,
    every filter value goes to the parameter vector and is referenced by a
    positional placeholder counted from the start index, [in] gets one
    placeholder per list element, and every column name is wrapped in
    identifier quoting.  No filter gives the empty clause. *)
Definition buildWhereClause (filters : list ParsedFilter) (startIndex : nat)
  : string * list value :=
  match filters with
  | [] => (EmptyString, [])
  | _ =>
      ("WHERE " +:+ Js.join " AND " (conditions filters startIndex),
       concat (map filterValues filters))
  end.

(** Modelled from the spec: [buildOrderClause] of [lib/sql-builder]; the
    quoted column and the direction, or no clause without an order. *)
Definition buildOrderClause (order : option ParsedOrder) : string :=
  match order with
  | None => EmptyString
  | Some o =>
      "ORDER BY " +:+ quoteIdent (order_column o) +:+
      match order_direction o with ASC => " ASC" | DESC => " DESC" end
  end.

(** Modelled from the spec: [buildSelectColumns] of [lib/sql-builder]; the
    wildcard, or the quoted columns of the projection, each of which must
    be a column of the table (section 4.5: a projection column absent from
    the schema is a BadRequest). *)
Definition buildSelectColumns (select : Projection) (allowedColumns : list string)
  : Result string :=
  match select with
  | Star => Ok "*"
  | Columns cols =>
      match List.find (fun c => negb (Js.arrayIncludes allowedColumns c)) cols with
      | Some c => Throw (BadRequestError ("Invalid column: " +:+ c))
      | None => Ok (Js.join ", " (map quoteIdent cols))
      end
  end.

End sqlBuilder.

Module queryParser.

Definition operatorOfString (s : string) : option Operator :=
  if String.eqb s "eq" then Some eq
  else if String.eqb s "neq" then Some neq
  else if String.eqb s "lt" then Some lt
  else if String.eqb s "lte" then Some lte
  else if String.eqb s "gt" then Some gt
  else if String.eqb s "gte" then Some gte
  else if String.eqb s "like" then Some like
  else if String.eqb s "ilike" then Some ilike
  else None.

(** The part of [s] after its first ["."], if it has one. *)
Fixpoint afterDot (s : string) : option string :=
  match s with
  | EmptyString => None
  | String c r => if Ascii.eqb c "." then Some r else afterDot r
  end.

(** Modelled from the spec: [parseSelect] of [lib/query-parser]
    (section 4.3): [*] or a comma-separated list, not validated here. *)
Definition parseSelect (select : option string) : Projection :=
  match select with
  | None => Star
  | Some s => if String.eqb s "*" then Star else Columns (Js.split "," s)
  end.

(** Modelled from the spec: [parseOrder] of [lib/query-parser]
    (section 4.3): [column.asc|desc], the direction read without regard
    to case and ascending when it is omitted or malformed. *)
Definition parseOrder (order : option string) : option ParsedOrder :=
  match order with
  | None => None
  | Some s =>
      let direction :=
        match afterDot s with
        | Some d => if String.eqb (Js.toLowerCase d) "desc" then DESC else ASC
        | None => ASC
        end in
      Some {| order_column := Js.beforeFirst "." s; order_direction := direction |}
  end.

Definition parseFilter (key val : string) : option ParsedFilter :=
  match afterDot key with
  | None => None
  | Some column =>
      let op := Js.beforeFirst "." key in
      if String.eqb op "in" then Some (In column (Js.split "," val))
      else
        match operatorOfString op with
        | Some o => Some (Cmp column o val)
        | None => None
        end
  end.

(** Modelled from the spec: [parseFilters] of [lib/query-parser]
    (section 4.3): every query key of the form [operator.column] with one
    of the nine operators is a filter; [in] splits its value on commas. *)
Fixpoint parseFilters (query : Query) : list ParsedFilter :=
  match query with
  | [] => []
  | (k, v) :: rest =>
      match parseFilter k v with
      | Some f => f :: parseFilters rest
      | None => parseFilters rest
      end
  end.

End queryParser.

(** ** [services/crud.ts] *)

Module crudService.

Definition CACHE_TTL_MS : Z := 60000.

Definition ALLOWED_DATA_TYPES : list string :=
  [ "text"; "varchar"; "char"; "integer"; "int"; "bigint"; "smallint";
    "serial"; "bigserial"; "boolean"; "bool"; "timestamp"; "timestamptz";
    "date"; "time"; "timetz"; "uuid"; "json"; "jsonb"; "numeric";
    "decimal"; "real"; "double precision"; "float"; "bytea" ].

Definition RESERVED_TABLE_NAMES : list string :=
  [ "pg_catalog"; "information_schema"; "pg_toast"; "pg_temp" ].

Inductive IdentifierKind : Type := table | column.

Definition kindName (k : IdentifierKind) : string :=
  match k with
  | table => "table"
  | column => "column"
  end.

Definition isIdentStart (c : ascii) : bool :=
  (Js.isLower c || Js.isUpper c || Ascii.eqb c "_")%bool.

Definition isIdentPart (c : ascii) : bool :=
  (Js.isLower c || Js.isUpper c || Js.isDigit c || Ascii.eqb c "_")%bool.

(** [/^[a-zA-Z_][a-zA-Z0-9_]*$/.test(name)] *)
Definition identifierRegex (name : string) : bool :=
  match name with
  | EmptyString => false
  | String c r => (isIdentStart c && Js.all isIdentPart r)%bool
  end.

Definition validateIdentifier (name : string) (type : IdentifierKind)
  : Result unit :=
  if String.eqb name EmptyString then
    Throw (BadRequestError (kindName type +:+ " name is required"))
  else if negb (identifierRegex name) then
    Throw (BadRequestError
      ("Invalid " +:+ kindName type +:+ " name: " +:+ name +:+
       ". Must start with letter or underscore, contain only alphanumeric and underscores"))
  else if Nat.ltb 63 (String.length name) then
    Throw (BadRequestError (kindName type +:+ " name too long: max 63 characters"))
  else if (match type with table => true | column => false end
           && Js.arrayIncludes RESERVED_TABLE_NAMES (Js.toLowerCase name))%bool then
    Throw (BadRequestError (kindName type +:+ " name is reserved: " +:+ name))
  else Ok tt.

(** [/^-?\d+(\.\d+)?$/.test(s)] *)
Definition numericRegex (s : string) : bool :=
  let unsigned :=
    match s with
    | String c r => if Ascii.eqb c "-" then r else s
    | EmptyString => s
    end in
  let whole := Js.takeWhile Js.isDigit unsigned in
  let rest := Js.dropWhile Js.isDigit unsigned in
  (negb (String.eqb whole EmptyString) &&
   match rest with
   | EmptyString => true
   | String c frac =>
       Ascii.eqb c "." && negb (String.eqb frac EmptyString) && Js.all Js.isDigit frac
   end)%bool.

(** The rest of a quoted literal after its opening quote: characters other
    than the quote, then one quote that ends the input. *)
Fixpoint quotedTail (s : string) : bool :=
  match s with
  | EmptyString => false
  | String c r =>
      if Ascii.eqb c "'" then String.eqb r EmptyString else quotedTail r
  end.

(** [/^'[^']*'$/.test(s)] *)
Definition quotedRegex (s : string) : bool :=
  match s with
  | String c r => (Ascii.eqb c "'" && quotedTail r)%bool
  | EmptyString => false
  end.

(** The test that [createTable] and [addColumn] both make on
    [defaultValue] before they append it to the column definition. *)
Definition defaultValueAllowed (defaultVal : string) : bool :=
  (String.eqb defaultVal "now()" ||
   String.eqb defaultVal "CURRENT_TIMESTAMP" ||
   String.eqb defaultVal "gen_random_uuid()" ||
   String.eqb defaultVal "true" ||
   String.eqb defaultVal "false" ||
   numericRegex defaultVal ||
   quotedRegex defaultVal)%bool.

(** [type.toLowerCase().split('(')[0].trim()] *)
Definition baseType (type : string) : string :=
  Js.trim (Js.beforeFirst "(" (Js.toLowerCase type)).

Definition isTrue (b : option bool) : bool :=
  match b with
  | Some true => true
  | _ => false
  end.

(** The column definition text up to and including the default, shared by
    [createTable] and [addColumn]; [allowedList] tells whether the error for
    an unknown type lists the allowed types, as [createTable] does. *)
Definition columnDef (col : ColumnDefinition) (allowedList : bool)
  : Result string :=
  if negb (Js.arrayIncludes ALLOWED_DATA_TYPES (baseType (cd_type col))) then
    Throw (BadRequestError
      ("Invalid data type: " +:+ cd_type col +:+
       (if allowedList
        then ". Allowed: " +:+ Js.join ", " ALLOWED_DATA_TYPES
        else EmptyString)))
  else
    let def := sqlBuilder.quoteIdent (cd_name col) +:+ " " +:+ cd_type col in
    let def :=
      match cd_nullable col with
      | Some false => def +:+ " NOT NULL"
      | _ => def
      end in
    match cd_defaultValue col with
    | None => Ok def
    | Some defaultVal =>
        if defaultValueAllowed defaultVal
        then Ok (def +:+ " DEFAULT " +:+ defaultVal)
        else Throw (BadRequestError ("Invalid default value: " +:+ defaultVal))
    end.

(** The four arrays that the column loop of [createTable] fills. *)
Record TableParts : Type := {
  columnDefs : list string;
  primaryKeys : list string;
  uniqueConstraints : list string;
  foreignKeys : list string;
}.

Definition noParts : TableParts :=
  {| columnDefs := []; primaryKeys := []; uniqueConstraints := [];
     foreignKeys := [] |}.

(** One iteration of [for (const col of columns)] in [createTable]. *)
Definition createTableColumn (acc : TableParts) (col : ColumnDefinition)
  : Result TableParts :=
  bindR (validateIdentifier (cd_name col) column) (fun _ =>
  bindR (columnDef col true) (fun def =>
  let defs := (columnDefs acc ++ [def])%list in
  let pks :=
    if isTrue (cd_primaryKey col)
    then (primaryKeys acc ++ [sqlBuilder.quoteIdent (cd_name col)])%list
    else primaryKeys acc in
  let uniques :=
    if isTrue (cd_unique col)
    then (uniqueConstraints acc ++
          ["UNIQUE (" +:+ sqlBuilder.quoteIdent (cd_name col) +:+ ")"])%list
    else uniqueConstraints acc in
  match cd_references col with
  | None =>
      Ok {| columnDefs := defs; primaryKeys := pks;
            uniqueConstraints := uniques; foreignKeys := foreignKeys acc |}
  | Some (refTable, refColumn) =>
      bindR (validateIdentifier refTable table) (fun _ =>
      bindR (validateIdentifier refColumn column) (fun _ =>
      Ok {| columnDefs := defs; primaryKeys := pks;
            uniqueConstraints := uniques;
            foreignKeys := (foreignKeys acc ++
              ["FOREIGN KEY (" +:+ sqlBuilder.quoteIdent (cd_name col) +:+
               ") REFERENCES " +:+ sqlBuilder.quoteIdent refTable +:+
               " (" +:+ sqlBuilder.quoteIdent refColumn +:+ ")"])%list |}))
  end)).

Fixpoint createTableColumns (acc : TableParts) (cols : list ColumnDefinition)
  : Result TableParts :=
  match cols with
  | [] => Ok acc
  | col :: rest =>
      bindR (createTableColumn acc col) (fun acc' => createTableColumns acc' rest)
  end.

Definition createTableSql (tableName : string) (parts : TableParts)
  (ifNotExists : bool) : string :=
  let defs :=
    ((if Nat.ltb 0 (length (primaryKeys parts))
      then columnDefs parts ++
           ["PRIMARY KEY (" +:+ Js.join ", " (primaryKeys parts) +:+ ")"]
      else columnDefs parts)
     ++ uniqueConstraints parts ++ foreignKeys parts)%list in
  "CREATE TABLE " +:+ (if ifNotExists then "IF NOT EXISTS " else EmptyString) +:+
  sqlBuilder.quoteIdent tableName +:+ " (" +:+ Js.nl +:+ "  " +:+
  Js.join ("," +:+ Js.nl +:+ "  ") defs +:+ Js.nl +:+ ")".

(** The catalog query of [getTables]. *)
Definition CATALOG_SQL : string :=
  "SELECT" +:+ Js.nl +:+
  "         c.table_name," +:+ Js.nl +:+
  "         c.column_name," +:+ Js.nl +:+
  "         c.data_type," +:+ Js.nl +:+
  "         c.is_nullable," +:+ Js.nl +:+
  "         c.column_default" +:+ Js.nl +:+
  "       FROM information_schema.columns c" +:+ Js.nl +:+
  "       JOIN information_schema.tables t ON c.table_name = t.table_name AND c.table_schema = t.table_schema" +:+ Js.nl +:+
  "       WHERE c.table_schema = 'public' AND t.table_type = 'BASE TABLE'" +:+ Js.nl +:+
  "       ORDER BY c.table_name, c.ordinal_position".

(** A field that the row type of the catalog query declares a string. *)
Definition stringField (row : Row) (name : string) : string :=
  match lookupKey name row with
  | Some (VStr s) => s
  | _ => EmptyString
  end.

(** A field declared [string | null]. *)
Definition nullableField (row : Row) (name : string) : option string :=
  match lookupKey name row with
  | Some (VStr s) => Some s
  | _ => None
  end.

Definition columnOfRow (row : Row) : ColumnInfo :=
  {| ci_name := stringField row "column_name";
     ci_type := stringField row "data_type";
     ci_nullable := String.eqb (stringField row "is_nullable") "YES";
     ci_defaultValue := nullableField row "column_default" |}.

(** [tablesMap.get(name)], creating the entry at the end when it is
    missing, then [columns.push(col)]; the list keeps the insertion order
    of the [Map]. *)
Fixpoint pushColumn (tablesMap : list TableInfo) (name : string)
  (col : ColumnInfo) : list TableInfo :=
  match tablesMap with
  | [] => [ {| tableName := name; columns := [col] |} ]
  | t :: rest =>
      if String.eqb (tableName t) name
      then {| tableName := name; columns := (columns t ++ [col])%list |} :: rest
      else t :: pushColumn rest name col
  end.

(** The loop over [result.rows] in [getTables] and [Array.from(values())]. *)
Definition groupRows (catalogRows : list Row) : list TableInfo :=
  fold_left
    (fun tablesMap row =>
       pushColumn tablesMap (stringField row "table_name") (columnOfRow row))
    catalogRows [].

(** [tables.find((t) => t.tableName === table)] *)
Definition findTable (tables : list TableInfo) (name : string)
  : option TableInfo :=
  List.find (fun t => String.eqb (tableName t) name) tables.

Definition columnNames (t : TableInfo) : list string :=
  map ci_name (columns t).

Record SelectOptions : Type := {
  opt_select : option Projection;
  opt_order : option ParsedOrder;
  opt_limit : option Js.number;
  opt_offset : option Js.number;
  opt_filters : option (list ParsedFilter);
}.

(** [Math.min(options.limit || config.query.defaultRowsLimit,
              config.query.maxRowsPerQuery)] *)
Definition effectiveLimit (config : QueryConfig) (limit : option Js.number)
  : Js.number :=
  Js.mathMin (Js.orElse limit (Js.Num (defaultRowsLimit config)))
             (Js.Num (maxRowsPerQuery config)).

(** [options.offset || 0] *)
Definition effectiveOffset (offset : option Js.number) : Js.number :=
  Js.orElse offset (Js.Num 0).

Definition selectSql (selectCols tableName whereClause orderClause : string)
  (limit offset : Js.number) : string :=
  Js.nl +:+ "      SELECT " +:+ selectCols +:+
  Js.nl +:+ "      FROM " +:+ sqlBuilder.quoteIdent tableName +:+
  Js.nl +:+ "      " +:+ whereClause +:+
  Js.nl +:+ "      " +:+ orderClause +:+
  Js.nl +:+ "      LIMIT " +:+ Js.numberToString limit +:+
  " OFFSET " +:+ Js.numberToString offset +:+
  Js.nl +:+ "    ".

(** The first filter whose column is not allowed, if any. *)
Definition badFilter (allowedColumns : list string)
  (filters : list ParsedFilter) : option ParsedFilter :=
  List.find (fun f => negb (Js.arrayIncludes allowedColumns (filterColumn f)))
    filters.

Definition validateFilters (allowedColumns : list string)
  (filters : list ParsedFilter) : Result unit :=
  match badFilter allowedColumns filters with
  | Some f => Throw (BadRequestError ("Invalid filter column: " +:+ filterColumn f))
  | None => Ok tt
  end.

(** The three arrays that [insert] fills for one row. *)
Record InsertParts : Type := {
  ins_columns : list string;
  ins_values : list value;
  ins_placeholders : list string;
}.

(** [for (const [col, val] of Object.entries(row))] in [insert]. *)
Fixpoint insertEntries (allowedColumns : list string) (entries : Row)
  (paramIndex : nat) (acc : InsertParts) : Result InsertParts :=
  match entries with
  | [] => Ok acc
  | (col, val) :: rest =>
      if negb (Js.arrayIncludes allowedColumns col)
      then Throw (BadRequestError ("Invalid column: " +:+ col))
      else
        insertEntries allowedColumns rest (S paramIndex)
          {| ins_columns := (ins_columns acc ++ [sqlBuilder.quoteIdent col])%list;
             ins_values := (ins_values acc ++ [val])%list;
             ins_placeholders :=
               (ins_placeholders acc ++ [sqlBuilder.placeholder paramIndex])%list |}
  end.

Definition insertParts (allowedColumns : list string) (row : Row)
  : Result InsertParts :=
  insertEntries allowedColumns row 1
    {| ins_columns := []; ins_values := []; ins_placeholders := [] |}.

Definition insertSql (tableName : string) (parts : InsertParts)
  (returning : bool) : string :=
  Js.nl +:+ "        INSERT INTO " +:+ sqlBuilder.quoteIdent tableName +:+
  " (" +:+ Js.join ", " (ins_columns parts) +:+ ")" +:+
  Js.nl +:+ "        VALUES (" +:+ Js.join ", " (ins_placeholders parts) +:+ ")" +:+
  Js.nl +:+ "        " +:+ (if returning then "RETURNING *" else EmptyString) +:+
  Js.nl +:+ "      ".

(** The two arrays and the counter that [update] fills from [values]. *)
Record UpdateParts : Type := {
  setClauses : list string;
  updateValues : list value;
  nextParam : nat;
}.

(** [for (const [col, val] of Object.entries(values))] in [update]. *)
Fixpoint updateEntries (allowedColumns : list string) (entries : Row)
  (acc : UpdateParts) : Result UpdateParts :=
  match entries with
  | [] => Ok acc
  | (col, val) :: rest =>
      if negb (Js.arrayIncludes allowedColumns col)
      then Throw (BadRequestError ("Invalid column: " +:+ col))
      else
        updateEntries allowedColumns rest
          {| setClauses :=
               (setClauses acc ++
                [sqlBuilder.quoteIdent col +:+ " = " +:+
                 sqlBuilder.placeholder (nextParam acc)])%list;
             updateValues := (updateValues acc ++ [val])%list;
             nextParam := S (nextParam acc) |}
  end.

Definition updateParts (allowedColumns : list string) (values : Row)
  : Result UpdateParts :=
  updateEntries allowedColumns values
    {| setClauses := []; updateValues := []; nextParam := 1 |}.

Definition updateSql (tableName : string) (sets : list string)
  (whereClause : string) (returning : bool) : string :=
  Js.nl +:+ "      UPDATE " +:+ sqlBuilder.quoteIdent tableName +:+
  Js.nl +:+ "      SET " +:+ Js.join ", " sets +:+
  Js.nl +:+ "      " +:+ whereClause +:+
  Js.nl +:+ "      " +:+ (if returning then "RETURNING *" else EmptyString) +:+
  Js.nl +:+ "    ".

Definition deleteSql (tableName whereClause : string) : string :=
  "DELETE FROM " +:+ sqlBuilder.quoteIdent tableName +:+ " " +:+ whereClause.

Section WithDatabase.

Context {Db : Type} `{Database Db}.

(** [config.query] of the running gateway. *)
Variable config : QueryConfig.

Definition withCache (c : gmap string CacheEntry) (w : World Db) : World Db :=
  {| tableInfoCache := c; clock := clock w; db := db w; issued := issued w |}.

(** [Date.now()] *)
Definition dateNow : M Db Z := fun w => (Ok (clock w), w).

(** [tableInfoCache.get(projectId)] *)
Definition cacheGet (projectId : string) : M Db (option CacheEntry) :=
  fun w => (Ok (tableInfoCache w !! projectId), w).

(** [tableInfoCache.set(projectId, entry)] *)
Definition cacheSet (projectId : string) (entry : CacheEntry) : M Db unit :=
  fun w => (Ok tt, withCache (<[projectId := entry]> (tableInfoCache w)) w).

(** [projectDb.queryAsApp] and [projectDb.queryAsOwner]: the statement
    goes to the server under the given role; a rejected promise is a
    [Throw].  [issued] records the call. *)
Definition query (role : Role) (projectId sql : string) (values : list value)
  : M Db QueryResult :=
  fun w =>
    let st := {| st_role := role; st_project := projectId;
                 st_sql := sql; st_params := values |} in
    let '(r, d) := execute st (db w) in
    (r, {| tableInfoCache := tableInfoCache w; clock := clock w;
           db := d; issued := (issued w ++ [st])%list |}).

Definition queryAsApp : string -> string -> list value -> M Db QueryResult :=
  query App.
Definition queryAsOwner : string -> string -> list value -> M Db QueryResult :=
  query Owner.

(** The miss path of [getTables]: the catalog query, the grouping of its
    rows, and the new cache entry. *)
Definition fetchTables (projectId : string) : M Db (list TableInfo) :=
  let! result := queryAsApp projectId CATALOG_SQL [] in
  let tables := groupRows (rows result) in
  let! now := dateNow in
  run! cacheSet projectId {| ce_tables := tables; ce_timestamp := now |} in
  ret tables.

Definition getTables (projectId : string) : M Db (list TableInfo) :=
  let! cached := cacheGet projectId in
  match cached with
  | Some entry =>
      let! now := dateNow in
      if (now - ce_timestamp entry <? CACHE_TTL_MS)%Z
      then ret (ce_tables entry)
      else fetchTables projectId
  | None => fetchTables projectId
  end.

(** The opening of every CRUD operation: the table must be in the schema. *)
Definition requireTable (projectId tableName : string) : M Db TableInfo :=
  let! tables := getTables projectId in
  match findTable tables tableName with
  | None => throw (NotFoundError ("Table " +:+ sqlBuilder.quoteIdent tableName +:+ " not found"))
  | Some tableInfo => ret tableInfo
  end.

Definition select (projectId tableName : string) (options : SelectOptions)
  : M Db (list Row * Z) :=
  let! tableInfo := requireTable projectId tableName in
  let allowedColumns := columnNames tableInfo in
  run! liftResult
    (match opt_order options with
     | Some o =>
         if negb (Js.arrayIncludes allowedColumns (order_column o))
         then Throw (BadRequestError ("Invalid order column: " +:+ order_column o))
         else Ok tt
     | None => Ok tt
     end) in
  run! liftResult
    (match opt_filters options with
     | Some filters => validateFilters allowedColumns filters
     | None => Ok tt
     end) in
  let! selectCols := liftResult
    (sqlBuilder.buildSelectColumns
       (match opt_select options with Some p => p | None => Star end)
       allowedColumns) in
  let '(whereClause, whereValues) :=
    sqlBuilder.buildWhereClause
      (match opt_filters options with Some f => f | None => [] end) 1 in
  let orderClause := sqlBuilder.buildOrderClause (opt_order options) in
  let limit := effectiveLimit config (opt_limit options) in
  let offset := effectiveOffset (opt_offset options) in
  let sql := selectSql selectCols tableName whereClause orderClause limit offset in
  let! result := queryAsApp projectId sql whereValues in
  ret (rows result,
       match rowCount result with
       | Some n => n
       | None => 0%Z
       end).

(** [for (const row of rows)] in [insert]. *)
Fixpoint insertRows (projectId tableName : string) (allowedColumns : list string)
  (returning : bool) (rowsToInsert : list Row) (results : list Row)
  : M Db (list Row) :=
  match rowsToInsert with
  | [] => ret results
  | row :: rest =>
      let! parts := liftResult (insertParts allowedColumns row) in
      let! result :=
        queryAsApp projectId (insertSql tableName parts returning)
          (ins_values parts) in
      insertRows projectId tableName allowedColumns returning rest
        (match returning, rows result with
         | true, first :: _ => (results ++ [first])%list
         | _, _ => results
         end)
  end.

Definition insert (projectId tableName : string) (rowsToInsert : list Row)
  (returning : bool) : M Db (list Row) :=
  let! tableInfo := requireTable projectId tableName in
  insertRows projectId tableName (columnNames tableInfo) returning
    rowsToInsert [].

Definition update (projectId tableName : string) (values : Row)
  (filters : list ParsedFilter) (returning : bool) : M Db (list Row) :=
  let! tableInfo := requireTable projectId tableName in
  let allowedColumns := columnNames tableInfo in
  run! liftResult (validateFilters allowedColumns filters) in
  let! parts := liftResult (updateParts allowedColumns values) in
  let '(whereClause, whereValues) :=
    sqlBuilder.buildWhereClause filters (nextParam parts) in
  let allValues := (updateValues parts ++ whereValues)%list in
  let sql := updateSql tableName (setClauses parts) whereClause returning in
  let! result := queryAsApp projectId sql allValues in
  ret (if returning then rows result else []).

Definition delete (projectId tableName : string) (filters : list ParsedFilter)
  : M Db Z :=
  let! tableInfo := requireTable projectId tableName in
  let allowedColumns := columnNames tableInfo in
  run! liftResult (validateFilters allowedColumns filters) in
  let '(whereClause, values) := sqlBuilder.buildWhereClause filters 1 in
  let! result := queryAsApp projectId (deleteSql tableName whereClause) values in
  ret (match rowCount result with
       | Some n => n
       | None => 0%Z
       end).

(** [clearCache(projectId?)]: an absent or empty id clears every entry. *)
Definition clearCache (projectId : option string) : M Db unit :=
  fun w =>
    match projectId with
    | Some p =>
        if String.eqb p EmptyString
        then (Ok tt, withCache ∅ w)
        else (Ok tt, withCache (base.delete p (tableInfoCache w)) w)
    | None => (Ok tt, withCache ∅ w)
    end.

(** *** DDL operations *)

Definition createTable (projectId tableName : string)
  (cols : list ColumnDefinition) (ifNotExists : bool) : M Db string :=
  run! liftResult (validateIdentifier tableName table) in
  if Nat.eqb (length cols) 0 then
    throw (BadRequestError "At least one column is required")
  else if Nat.ltb 100 (length cols) then
    throw (BadRequestError "Too many columns: max 100")
  else
    let! parts := liftResult (createTableColumns noParts cols) in
    let sql := createTableSql tableName parts ifNotExists in
    run! queryAsOwner projectId sql [] in
    run! clearCache (Some projectId) in
    ret tableName.

Definition dropTableSql (tableName : string) (ifExists cascade : bool) : string :=
  "DROP TABLE " +:+ (if ifExists then "IF EXISTS " else EmptyString) +:+
  sqlBuilder.quoteIdent tableName +:+
  (if cascade then " CASCADE" else EmptyString).

Definition dropTable (projectId tableName : string) (ifExists cascade : bool)
  : M Db string :=
  run! liftResult (validateIdentifier tableName table) in
  run! queryAsOwner projectId (dropTableSql tableName ifExists cascade) [] in
  run! clearCache (Some projectId) in
  ret tableName.

Definition addColumnSql (tableName def : string) : string :=
  "ALTER TABLE " +:+ sqlBuilder.quoteIdent tableName +:+ " ADD COLUMN " +:+ def.

Definition addColumn (projectId tableName : string) (col : ColumnDefinition)
  : M Db (string * string) :=
  run! liftResult (validateIdentifier tableName table) in
  run! liftResult (validateIdentifier (cd_name col) column) in
  let! def := liftResult (columnDef col false) in
  let def := if isTrue (cd_unique col) then def +:+ " UNIQUE" else def in
  run! queryAsOwner projectId (addColumnSql tableName def) [] in
  run! clearCache (Some projectId) in
  ret (tableName, cd_name col).

Definition dropColumnSql (tableName columnName : string)
  (ifExists cascade : bool) : string :=
  "ALTER TABLE " +:+ sqlBuilder.quoteIdent tableName +:+ " DROP COLUMN " +:+
  (if ifExists then "IF EXISTS " else EmptyString) +:+
  sqlBuilder.quoteIdent columnName +:+
  (if cascade then " CASCADE" else EmptyString).

Definition dropColumn (projectId tableName columnName : string)
  (ifExists cascade : bool) : M Db (string * string) :=
  run! liftResult (validateIdentifier tableName table) in
  run! liftResult (validateIdentifier columnName column) in
  run! queryAsOwner projectId
         (dropColumnSql tableName columnName ifExists cascade) [] in
  run! clearCache (Some projectId) in
  ret (tableName, columnName).

Definition renameTableSql (oldName newName : string) : string :=
  "ALTER TABLE " +:+ sqlBuilder.quoteIdent oldName +:+ " RENAME TO " +:+
  sqlBuilder.quoteIdent newName.

Definition renameTable (projectId oldName newName : string)
  : M Db (string * string) :=
  run! liftResult (validateIdentifier oldName table) in
  run! liftResult (validateIdentifier newName table) in
  run! queryAsOwner projectId (renameTableSql oldName newName) [] in
  run! clearCache (Some projectId) in
  ret (oldName, newName).

Definition renameColumnSql (tableName oldName newName : string) : string :=
  "ALTER TABLE " +:+ sqlBuilder.quoteIdent tableName +:+ " RENAME COLUMN " +:+
  sqlBuilder.quoteIdent oldName +:+ " TO " +:+ sqlBuilder.quoteIdent newName.

Definition renameColumn (projectId tableName oldName newName : string)
  : M Db (string * string * string) :=
  run! liftResult (validateIdentifier tableName table) in
  run! liftResult (validateIdentifier oldName column) in
  run! liftResult (validateIdentifier newName column) in
  run! queryAsOwner projectId (renameColumnSql tableName oldName newName) [] in
  run! clearCache (Some projectId) in
  ret (tableName, oldName, newName).

End WithDatabase.

End crudService.

(** The interface of [lib/query-parser] that the routes import. *)
Class QueryParser : Type := {
  parseSelect : option string -> Projection;
  parseOrder : option string -> option ParsedOrder;
  parseFilters : Query -> list ParsedFilter;
}.

(** The parser as section 4.3 of the specification describes it. *)
Definition specQueryParser : QueryParser :=
  {| parseSelect := queryParser.parseSelect;
     parseOrder := queryParser.parseOrder;
     parseFilters := queryParser.parseFilters |}.

(** ** [routes/public/db.ts]: the public CRUD routes *)

Module dbRoutes.

Section Routes.

Context {Db : Type} `{Database Db} `{QueryParser}.
Variable config : QueryConfig.

(** [tableNameSchema] of the shared package, through [safeParse(..).success]. *)
Variable tableNameSchema : string -> bool.

(** [request.projectContext.projectId] *)
Variable projectId : string.

(** [query.k ? parseInt(query.k, 10) : undefined] *)
Definition intParam (query : Query) (k : string) : option Js.number :=
  match lookupKey k query with
  | Some s => if String.eqb s EmptyString then None else Some (Js.parseInt10 s)
  | None => None
  end.

Definition requireTableName (tableName : string) : M Db unit :=
  if tableNameSchema tableName then ret tt
  else throw (BadRequestError "Invalid table name").

(** GET /:table *)
Definition getRows (tableName : string) (query : Query) : M Db (list Row * Z) :=
  run! requireTableName tableName in
  let select := parseSelect (lookupKey "select" query) in
  let order := parseOrder (lookupKey "order" query) in
  let limit := intParam query "limit" in
  let offset := intParam query "offset" in
  let filters := parseFilters query in
  crudService.select config projectId tableName
    {| crudService.opt_select := Some select;
       crudService.opt_order := order;
       crudService.opt_limit := limit;
       crudService.opt_offset := offset;
       crudService.opt_filters := Some filters |}.

(** POST /:table; [body] is the data of [insertBodySchema.safeParse],
    [None] when the body does not fit the schema. *)
Definition postRows (tableName : string) (body : option (list Row * bool))
  : M Db (list Row) :=
  run! requireTableName tableName in
  match body with
  | None => throw (BadRequestError "Invalid request body")
  | Some (rowsToInsert, returning) =>
      crudService.insert projectId tableName rowsToInsert returning
  end.

(** PATCH /:table; [body] is the data of [updateBodySchema.safeParse]. *)
Definition patchRows (tableName : string) (query : Query)
  (body : option (Row * bool)) : M Db (list Row) :=
  run! requireTableName tableName in
  match body with
  | None => throw (BadRequestError "Invalid request body")
  | Some (values, returning) =>
      let filters := parseFilters query in
      if Nat.eqb (length filters) 0 then
        throw (BadRequestError "At least one filter is required for UPDATE")
      else crudService.update projectId tableName values filters returning
  end.

(** DELETE /:table *)
Definition deleteRows (tableName : string) (query : Query) : M Db Z :=
  run! requireTableName tableName in
  let filters := parseFilters query in
  if Nat.eqb (length filters) 0 then
    throw (BadRequestError "At least one filter is required for DELETE")
  else crudService.delete projectId tableName filters.

(** *** The schema routes

    [body] is, in each of them, the data of the route's zod schema after
    [safeParse], [None] when the body does not fit the schema. *)

(** [request.projectContext.keyType] *)
Variable keyType : string.

Definition requireSecretKey : M Db unit :=
  if negb (String.eqb keyType "secret")
  then throw (ForbiddenError "This operation requires a secret API key")
  else ret tt.

(** POST /schema/tables *)
Definition postSchemaTables
  (body : option (string * list ColumnDefinition * bool)) : M Db string :=
  run! requireSecretKey in
  match body with
  | None => throw (BadRequestError "Invalid request body")
  | Some (name, cols, ifNotExists) =>
      crudService.createTable projectId name cols ifNotExists
  end.

(** DELETE /schema/tables/:table *)
Definition deleteSchemaTable (tableName : string) (body : option (bool * bool))
  : M Db string :=
  run! requireSecretKey in
  run! requireTableName tableName in
  match body with
  | None => throw (BadRequestError "Invalid request body")
  | Some (ifExists, cascade) =>
      crudService.dropTable projectId tableName ifExists cascade
  end.

(** PATCH /schema/tables/:table/rename *)
Definition patchSchemaTableRename (tableName : string) (body : option string)
  : M Db (string * string) :=
  run! requireSecretKey in
  run! requireTableName tableName in
  match body with
  | None => throw (BadRequestError "Invalid request body")
  | Some newName => crudService.renameTable projectId tableName newName
  end.

(** POST /schema/tables/:table/columns *)
Definition postSchemaColumns (tableName : string) (body : option ColumnDefinition)
  : M Db (string * string) :=
  run! requireSecretKey in
  run! requireTableName tableName in
  match body with
  | None => throw (BadRequestError "Invalid request body")
  | Some col => crudService.addColumn projectId tableName col
  end.

(** DELETE /schema/tables/:table/columns/:column *)
Definition deleteSchemaColumn (tableName columnName : string)
  (body : option (bool * bool)) : M Db (string * string) :=
  run! requireSecretKey in
  run! requireTableName tableName in
  if negb (tableNameSchema columnName)
  then throw (BadRequestError "Invalid column name")
  else
    match body with
    | None => throw (BadRequestError "Invalid request body")
    | Some (ifExists, cascade) =>
        crudService.dropColumn projectId tableName columnName ifExists cascade
    end.

(** PATCH /schema/tables/:table/columns/rename *)
Definition patchSchemaColumnRename (tableName : string)
  (body : option (string * string)) : M Db (string * string * string) :=
  run! requireSecretKey in
  run! requireTableName tableName in
  match body with
  | None => throw (BadRequestError "Invalid request body")
  | Some (oldName, newName) =>
      crudService.renameColumn projectId tableName oldName newName
  end.

End Routes.

End dbRoutes.

(** ** A small database server, to run the gateway on concrete requests *)

Module Demo.

(** The catalog rows of the public schema and the parameter vectors of the
    INSERT statements received so far. *)
Record Store : Type := {
  catalog : list Row;
  inserted : list (list value);
}.

Definition catalogRow (tableName columnName dataType : string) : Row :=
  [ ("table_name", VStr tableName); ("column_name", VStr columnName);
    ("data_type", VStr dataType); ("is_nullable", VStr "YES");
    ("column_default", VNull) ].

Definition isCatalogRowOf (tableName columnName : string) (r : Row) : bool :=
  (String.eqb (crudService.stringField r "table_name") tableName &&
   String.eqb (crudService.stringField r "column_name") columnName)%bool.

Definition answer (n : nat) (d : Store) : Result QueryResult * Store :=
  (Ok {| rows := []; rowCount := Some (Z.of_nat n) |}, d).

(** The server answers the catalog query from [catalog], stores the
    parameters of an INSERT, creates the one-column table [t] and drops
    the column [c] of [t] when the owner asks for exactly that, and answers
    every other statement with no rows. *)
Definition serve (st : Statement) (d : Store) : Result QueryResult * Store :=
  if String.eqb (st_sql st) crudService.CATALOG_SQL then
    (Ok {| rows := catalog d; rowCount := Some (Z.of_nat (length (catalog d))) |}, d)
  else
    match st_role st with
    | App =>
        if Js.includes "INSERT INTO" (st_sql st)
        then answer 1 {| catalog := catalog d;
                         inserted := (inserted d ++ [st_params st])%list |}
        else answer 0 d
    | Owner =>
        if String.eqb (st_sql st)
             ("CREATE TABLE " +:+ sqlBuilder.quoteIdent "t" +:+ " (" +:+ Js.nl +:+
              "  " +:+ sqlBuilder.quoteIdent "id" +:+ " integer" +:+ Js.nl +:+ ")")
        then answer 0 {| catalog := (catalog d ++ [catalogRow "t" "id" "integer"])%list;
                         inserted := inserted d |}
        else if String.eqb (st_sql st)
                  (crudService.dropColumnSql "t" "c" false false)
        then answer 0 {| catalog := filter (fun r => negb (isCatalogRowOf "t" "c" r))
                                      (catalog d);
                         inserted := inserted d |}
        else answer 0 d
    end.

#[global] Instance demoDatabase : Database Store := {| execute := serve |}.

(** The table of the specification's scenario: users(id, name, email). *)
Definition usersCatalog : list Row :=
  [ catalogRow "users" "id" "uuid"; catalogRow "users" "name" "text";
    catalogRow "users" "email" "text" ].

Definition world (rowsOfCatalog : list Row) (cache : gmap string CacheEntry)
  (now : Z) : World Store :=
  {| tableInfoCache := cache; clock := now;
     db := {| catalog := rowsOfCatalog; inserted := [] |}; issued := [] |}.

Definition idColumn : ColumnDefinition :=
  {| cd_name := "id"; cd_type := "integer"; cd_nullable := None;
     cd_primaryKey := None; cd_unique := None; cd_defaultValue := None;
     cd_references := None |}.

(** A cache that holds, for project p1, the schema of [usersCatalog] as
    read at time 0. *)
Definition warmCache : gmap string CacheEntry :=
  {[ "p1" := {| ce_tables := crudService.groupRows usersCatalog;
                ce_timestamp := 0 |} ]}.

(** The schema entry that [getTables] builds from [usersCatalog]. *)
Definition usersTable : TableInfo :=
  {| tableName := "users";
     columns :=
       [ {| ci_name := "id"; ci_type := "uuid"; ci_nullable := true;
            ci_defaultValue := None |};
         {| ci_name := "name"; ci_type := "text"; ci_nullable := true;
            ci_defaultValue := None |};
         {| ci_name := "email"; ci_type := "text"; ci_nullable := true;
            ci_defaultValue := None |} ] |}.

(** A text column whose default is a string with an escaped quote. *)
Definition titleColumn : ColumnDefinition :=
  {| cd_name := "title"; cd_type := "text"; cd_nullable := None;
     cd_primaryKey := None; cd_unique := None;
     cd_defaultValue := Some "'it''s'"; cd_references := None |}.

(** Every table name passes the route's schema. *)
Definition anyTableName (name : string) : bool := true.

End Demo.

(** ** Vocabulary of the statements *)

(** The world when the clock has moved to [now]. *)
Definition atTime {Db : Type} (now : Z) (w : World Db) : World Db :=
  {| tableInfoCache := tableInfoCache w; clock := now; db := db w;
     issued := issued w |}.

(** The six DDL operations of the engine, as requests. *)
Inductive DdlOperation : Type :=
| CreateTable (tableName : string) (cols : list ColumnDefinition) (ifNotExists : bool)
| DropTable (tableName : string) (ifExists cascade : bool)
| AddColumn (tableName : string) (col : ColumnDefinition)
| DropColumn (tableName columnName : string) (ifExists cascade : bool)
| RenameTable (oldName newName : string)
| RenameColumn (tableName oldName newName : string).

Definition runDdl {Db : Type} `{Database Db} (projectId : string)
  (op : DdlOperation) : M Db unit :=
  match op with
  | CreateTable t cols ifNotExists =>
      run! crudService.createTable projectId t cols ifNotExists in ret tt
  | DropTable t ifExists cascade =>
      run! crudService.dropTable projectId t ifExists cascade in ret tt
  | AddColumn t col =>
      run! crudService.addColumn projectId t col in ret tt
  | DropColumn t c ifExists cascade =>
      run! crudService.dropColumn projectId t c ifExists cascade in ret tt
  | RenameTable oldName newName =>
      run! crudService.renameTable projectId oldName newName in ret tt
  | RenameColumn t oldName newName =>
      run! crudService.renameColumn projectId t oldName newName in ret tt
  end.

(** The catalog query of [getTables] as a statement of project [projectId]. *)
Definition catalogStatement (projectId : string) : Statement :=
  {| st_role := App; st_project := projectId;
     st_sql := crudService.CATALOG_SQL; st_params := [] |}.

(** What a successful result shows through [f]; nothing for a failure. *)
Definition whenOk {A B : Type} (f : A -> B) (r : Result A) : option B :=
  match r with
  | Ok a => Some (f a)
  | Throw _ => None
  end.

(** Every key of the row is a column of the table. *)
Definition rowValid (allowedColumns : list string) (row : Row) : bool :=
  forallb (fun entry => Js.arrayIncludes allowedColumns (fst entry)) row.

(** The first key of the row that is not a column of the table. *)
Definition unknownKey (allowedColumns : list string) (row : Row) : option string :=
  match List.find (fun entry => negb (Js.arrayIncludes allowedColumns (fst entry))) row with
  | Some entry => Some (fst entry)
  | None => None
  end.

(** The first unknown key of the first row that has one. *)
Fixpoint firstUnknownKey (allowedColumns : list string) (rowsToInsert : list Row)
  : option string :=
  match rowsToInsert with
  | [] => None
  | row :: rest =>
      match unknownKey allowedColumns row with
      | Some k => Some k
      | None => firstUnknownKey allowedColumns rest
      end
  end.

(** The rows in front of the first row with an unknown key. *)
Fixpoint validPrefix (allowedColumns : list string) (rowsToInsert : list Row)
  : list Row :=
  match rowsToInsert with
  | [] => []
  | row :: rest =>
      if rowValid allowedColumns row
      then row :: validPrefix allowedColumns rest
      else []
  end.

(** The INSERT of one whole row: every key quoted in the column list, one
    placeholder per key counted from 1, every value in the parameters. *)
Definition wholeRowParts (row : Row) : crudService.InsertParts :=
  {| crudService.ins_columns := map (fun entry => sqlBuilder.quoteIdent (fst entry)) row;
     crudService.ins_values := map snd row;
     crudService.ins_placeholders := sqlBuilder.placeholdersFrom 1 (length row) |}.

Definition insertStatement (projectId tableName : string) (returning : bool)
  (row : Row) : Statement :=
  {| st_role := App; st_project := projectId;
     st_sql := crudService.insertSql tableName (wholeRowParts row) returning;
     st_params := map snd row |}.

(** The database answers each of the statements with a result, whatever
    its state. *)
Definition accepts {Db : Type} `{Database Db} (statements : list Statement) : Prop :=
  forall st, List.In st statements ->
    forall d : Db, exists res d', execute st d = (Ok res, d').

(** The options that GET /:table hands to [select], for given readings of
    the limit and the offset. *)
Definition routeOptions `{QueryParser} (query : Query)
  (limit offset : option Js.number) : crudService.SelectOptions :=
  {| crudService.opt_select := Some (parseSelect (lookupKey "select" query));
     crudService.opt_order := parseOrder (lookupKey "order" query);
     crudService.opt_limit := limit;
     crudService.opt_offset := offset;
     crudService.opt_filters := Some (parseFilters query) |}.

(** A number that is not [NaN], or nothing. *)
Definition definedNumber (n : option Js.number) : option Js.number :=
  match n with
  | Some Js.NaN => None
  | _ => n
  end.

(** *** Default expressions *)

(** One or more decimal digits. *)
Definition digits (s : string) : Prop :=
  s <> EmptyString /\ Js.all Js.isDigit s = true.

Definition notQuote (c : ascii) : bool := negb (Ascii.eqb c "'").

(** The default expressions that the engine lets through, form by form:
    the three calls, the two booleans, a number made of an optional minus
    sign, digits and an optional fraction, and a quoted string without any
    quote between its delimiters. *)
Inductive AllowedDefault : string -> Prop :=
| allowed_now : AllowedDefault "now()"
| allowed_current_timestamp : AllowedDefault "CURRENT_TIMESTAMP"
| allowed_gen_random_uuid : AllowedDefault "gen_random_uuid()"
| allowed_true : AllowedDefault "true"
| allowed_false : AllowedDefault "false"
| allowed_integer (minus : bool) (whole : string) :
    digits whole ->
    AllowedDefault ((if minus then "-" else EmptyString) +:+ whole)
| allowed_decimal (minus : bool) (whole frac : string) :
    digits whole -> digits frac ->
    AllowedDefault ((if minus then "-" else EmptyString) +:+ whole +:+ "." +:+ frac)
| allowed_quoted (body : string) :
    Js.all notQuote body = true ->
    AllowedDefault ("'" +:+ body +:+ "'").

(** The body of a quoted literal in which every quote is escaped, that is,
    doubled as SQL escapes a quote inside a string literal. *)
Fixpoint quotesEscaped (body : string) : bool :=
  match body with
  | EmptyString => true
  | String c r =>
      if Ascii.eqb c "'" then
        match r with
        | String c' r' => (Ascii.eqb c' "'" && quotesEscaped r')%bool
        | EmptyString => false
        end
      else quotesEscaped r
  end.

(** The words of the specification: a single-quoted string literal with no
    embedded unescaped quote. *)
Definition specStringLiteral (s : string) : bool :=
  match s with
  | String c r =>
      (Ascii.eqb c "'" &&
       match String.rev r with
       | String c' body => (Ascii.eqb c' "'" && quotesEscaped (String.rev body))%bool
       | EmptyString => false
       end)%bool
  | EmptyString => false
  end.

(** *** Values and the text of a statement *)

(** A character other than the quote, the semicolon and the dash. *)
Definition plainChar (c : ascii) : bool :=
  negb (Ascii.eqb c "'" || Ascii.eqb c ";" || Ascii.eqb c "-")%bool.

(** Every dollar sign is followed at once by a digit. *)
Fixpoint dollarsNumbered (s : string) : bool :=
  match s with
  | EmptyString => true
  | String c r =>
      ((if Ascii.eqb c "$"
        then match r with
             | String d _ => Js.isDigit d
             | EmptyString => false
             end
        else true)
       && dollarsNumbered r)%bool
  end.

(** A text without quote, semicolon or dash, whose dollar signs all start a
    placeholder. *)
Definition clean (s : string) : bool :=
  (Js.all plainChar s && dollarsNumbered s)%bool.

(** A name without quote, semicolon, dash or dollar sign. *)
Definition plainName (s : string) : bool :=
  Js.all (fun c => (plainChar c && negb (Ascii.eqb c "$"))%bool) s.

(** The value contains one of the SQL metacharacters. *)
Definition hasMetacharacter (v : string) : bool :=
  (Js.includes "'" v || Js.includes ";" v || Js.includes "--" v
   || Js.includes "$$" v)%bool.

(** What the text of a condition depends on: the column, the operator, and
    the number of values. *)
Definition filterShape (f : ParsedFilter) : string * option Operator * nat :=
  match f with
  | Cmp c op _ => (c, Some op, 1%nat)
  | In c vs => (c, None, length vs)
  end.

(** The SET clauses of an update of the given entries, numbered from
    [first]. *)
Fixpoint setClausesFrom (first : nat) (entries : Row) : list string :=
  match entries with
  | [] => []
  | (col, _) :: rest =>
      (sqlBuilder.quoteIdent col +:+ " = " +:+ sqlBuilder.placeholder first)
      :: setClausesFrom (S first) rest
  end.

(** The UPDATE of the given values under the given filters: one SET clause
    and one parameter per entry, then the conditions and the parameters of
    the filters, numbered on from there. *)
Definition updateStatement (projectId tableName : string) (returning : bool)
  (values : Row) (filters : list ParsedFilter) : Statement :=
  {| st_role := App; st_project := projectId;
     st_sql :=
       crudService.updateSql tableName (setClausesFrom 1 values)
         (fst (sqlBuilder.buildWhereClause filters (S (length values))))
         returning;
     st_params :=
       (map snd values
        ++ snd (sqlBuilder.buildWhereClause filters (S (length values))))%list |}.

(** *** Traces *)

(** Whatever [m] sends to the database satisfies [P]: the statements issued
    by a run of [m] extend the ones issued before by statements in [P]. *)
Definition traced {Db A : Type} (P : Statement -> Prop) (m : M Db A) : Prop :=
  forall (w w1 : World Db) (r : Result A),
    m w = (r, w1) ->
    exists new, issued w1 = (issued w ++ new)%list /\ Forall P new.

(** A statement of the restricted role, for the given project. *)
Definition appStatement (projectId : string) (st : Statement) : Prop :=
  st_role st = App /\ st_project st = projectId.

(** A statement of the privileged role, for the given project, without
    parameters. *)
Definition ownerStatement (projectId : string) (st : Statement) : Prop :=
  st_role st = Owner /\ st_project st = projectId /\ st_params st = [].

(** The identifiers that a DDL request names, with the kind each one is
    validated as. *)
Definition columnIdentifiers (col : ColumnDefinition)
  : list (string * crudService.IdentifierKind) :=
  (cd_name col, crudService.column)
  :: match cd_references col with
     | Some (refTable, refColumn) =>
         [ (refTable, crudService.table); (refColumn, crudService.column) ]
     | None => []
     end.

Definition ddlIdentifiers (op : DdlOperation)
  : list (string * crudService.IdentifierKind) :=
  match op with
  | CreateTable t cols _ =>
      (t, crudService.table) :: concat (map columnIdentifiers cols)
  | DropTable t _ _ => [ (t, crudService.table) ]
  | AddColumn t col => [ (t, crudService.table); (cd_name col, crudService.column) ]
  | DropColumn t c _ _ => [ (t, crudService.table); (c, crudService.column) ]
  | RenameTable oldName newName =>
      [ (oldName, crudService.table); (newName, crudService.table) ]
  | RenameColumn t oldName newName =>
      [ (t, crudService.table); (oldName, crudService.column);
        (newName, crudService.column) ]
  end.

(** The column definitions that a DDL request carries. *)
Definition ddlColumns (op : DdlOperation) : list ColumnDefinition :=
  match op with
  | CreateTable _ cols _ => cols
  | AddColumn _ col => [col]
  | _ => []
  end.

(** The type and the default of a column definition pass the tests of the
    engine. *)
Definition columnChecked (col : ColumnDefinition) : Prop :=
  Js.arrayIncludes crudService.ALLOWED_DATA_TYPES (crudService.baseType (cd_type col))
  = true /\
  forall d, cd_defaultValue col = Some d -> crudService.defaultValueAllowed d = true.

(** The catalog rows of one table, as columns, in the order of the rows. *)
Definition columnsOfTable (name : string) (catalogRows : list Row) : list ColumnInfo :=
  map crudService.columnOfRow
    (List.filter (fun row => String.eqb (crudService.stringField row "table_name") name)
       catalogRows).

(** A column definition that gives a name and a type and nothing else. *)
Definition plainColumn (name type : string) : ColumnDefinition :=
  {| cd_name := name; cd_type := type; cd_nullable := None;
     cd_primaryKey := None; cd_unique := None; cd_defaultValue := None;
     cd_references := None |}.

(** ** The CSV reader and writer of the import/export service

    [services/import-export.ts] (and, for the writer, [exportTable] of
    [services/backup.ts], which has the same lines). *)

Module importExport.

Definition quoteChar : ascii := ascii_of_nat 34.
Definition commaChar : ascii := ascii_of_nat 44.
Definition newlineChar : ascii := ascii_of_nat 10.

Definition charString (c : ascii) : string := String c EmptyString.

(** The loop of [parseCSVLine] from position [i] on: [line] is what is
    left of the line from [line[i]], [current], [inQuotes] and [result] are
    the variables of the source. *)
Fixpoint parseCSVLineFrom (line current : string) (inQuotes : bool)
  (result : list string) : list string :=
  match line with
  | EmptyString => (result ++ [current])%list
  | String char rest =>
      if inQuotes then
        if Ascii.eqb char quoteChar then
          match rest with
          | String nextChar afterNext =>
              if Ascii.eqb nextChar quoteChar
              then parseCSVLineFrom afterNext (current +:+ charString quoteChar) true result
              else parseCSVLineFrom rest current false result
          | EmptyString => parseCSVLineFrom rest current false result
          end
        else parseCSVLineFrom rest (current +:+ charString char) true result
      else
        if Ascii.eqb char quoteChar then parseCSVLineFrom rest current true result
        else if Ascii.eqb char commaChar
        then parseCSVLineFrom rest EmptyString false (result ++ [current])%list
        else parseCSVLineFrom rest (current +:+ charString char) false result
  end.

Definition parseCSVLine (line : string) : list string :=
  parseCSVLineFrom line EmptyString false [].

Record ParsedCsv : Type := {
  csv_headers : list string;
  csv_rows : list (gmap string string);
}.

(** The truthiness of [line.trim()]. *)
Definition nonBlank (line : string) : bool :=
  negb (String.eqb (Js.trim line) EmptyString).

(** [row[header] = value] on a plain object, as the map of its own
    properties: the assignment of a string to [__proto__] creates none. *)
Definition assign (header value : string) (row : gmap string string)
  : gmap string string :=
  if String.eqb header "__proto__" then row else <[header := value]> row.

(** [headers.forEach((header, idx) => { row[header] = values[idx] ?? '' })]
    on a fresh object. *)
Definition csvRecord (headers values : list string) : gmap string string :=
  fold_left
    (fun row entry => assign (snd entry) (default EmptyString (values !! fst entry)) row)
    (imap (fun idx header => (idx, header)) headers) ∅.

Definition parseCSV (csvData : string) (skipFirstRow : bool) : ParsedCsv :=
  let lines := List.filter nonBlank (Js.split newlineChar csvData) in
  match lines with
  | [] => {| csv_headers := []; csv_rows := [] |}
  | headerLine :: _ =>
      let headers := parseCSVLine headerLine in
      let dataLines := if skipFirstRow then drop 1 lines else lines in
      {| csv_headers := headers;
         csv_rows := map (fun line => csvRecord headers (parseCSVLine line)) dataLines |}
  end.

(** [String(val)] on the values of the model; an array is its elements
    joined by commas, [null] elements as the empty string. *)
Fixpoint stringOf (val : value) : string :=
  match val with
  | VNull => "null"
  | VBool b => if b then "true" else "false"
  | VNum n => Js.numberToString n
  | VStr s => s
  | VArr elems =>
      Js.join "," (map (fun e => match e with
                                 | VNull => EmptyString
                                 | _ => stringOf e
                                 end) elems)
  | VObj _ => "[object Object]"
  end.

(** [str.replace] of every double quote by two of them. *)
Fixpoint doubleQuotes (str : string) : string :=
  match str with
  | EmptyString => EmptyString
  | String c rest =>
      if Ascii.eqb c quoteChar
      then String quoteChar (String quoteChar (doubleQuotes rest))
      else String c (doubleQuotes rest)
  end.

Definition csvEscape (str : string) : string :=
  if (Js.includes "," str || Js.includes Js.dquote str || Js.includes Js.nl str)%bool
  then Js.dquote +:+ doubleQuotes str +:+ Js.dquote
  else str.

(** The cell of [row[h]]: empty for [null] and [undefined]. *)
Definition csvCell (val : option value) : string :=
  match val with
  | None | Some VNull => EmptyString
  | Some v => csvEscape (stringOf v)
  end.

Definition csvLine (headers : list string) (row : Row) : string :=
  Js.join "," (map (fun h => csvCell (lookupKey h row)) headers).

(** [lines.join('\n')] for a result that has a first row. *)
Definition csvLines (first : Row) (resultRows : list Row) : string :=
  let headers := map fst first in
  Js.join Js.nl (Js.join "," headers :: map (csvLine headers) resultRows).

(** The CSV branch of [importExportService.exportTable]; [columns] are the
    names that [getTableColumns] returned. *)
Definition exportCsv (columns : list string) (resultRows : list Row) : string :=
  match resultRows with
  | [] => Js.join "," columns
  | first :: _ => csvLines first resultRows
  end.

(** The CSV branch of [backupService.exportTable]. *)
Definition backupCsv (resultRows : list Row) : string :=
  match resultRows with
  | [] => EmptyString
  | first :: _ => csvLines first resultRows
  end.

End importExport.

(** What a reader of the CSV should find in the cell of [row[h]]. *)
Definition cellText (row : Row) (h : string) : string :=
  match lookupKey h row with
  | None | Some VNull => EmptyString
  | Some v => importExport.stringOf v
  end.

(** A header that the writer, which does not escape headers, leaves
    readable: no comma, no quote, no line break, and a name that an
    assignment can create. *)
Definition plainHeader (h : string) : Prop :=
  Js.includes "," h = false /\ Js.includes Js.dquote h = false /\
  Js.includes Js.nl h = false /\ h <> "__proto__".

(** A row whose line the reader keeps whole: the line is not blank and no
    cell has a line break in it. *)
Definition readableRow (headers : list string) (row : Row) : Prop :=
  importExport.nonBlank (importExport.csvLine headers row) = true /\
  Forall (fun h => Js.includes Js.nl (cellText row h) = false) headers.

(** [record] has, for each header, the text of the cell of [row], and no
    other property. *)
Definition recordOf (headers : list string) (row : Row)
  (record : gmap string string) : Prop :=
  forall h,
    record !! h = if bool_decide (h ∈ headers) then Some (cellText row h) else None.

(** The requests of the six schema routes, with the parsed body of each,
    and the route of a request run for its effects. *)
Inductive SchemaRequest : Type :=
| PostTables (body : option (string * list ColumnDefinition * bool))
| DeleteTable (tableName : string) (body : option (bool * bool))
| PatchTableRename (tableName : string) (body : option string)
| PostColumns (tableName : string) (body : option ColumnDefinition)
| DeleteColumn (tableName columnName : string) (body : option (bool * bool))
| PatchColumnRename (tableName : string) (body : option (string * string)).

Definition runSchemaRoute {Db : Type} `{Database Db}
  (tableNameSchema : string -> bool) (projectId keyType : string)
  (request : SchemaRequest) : M Db unit :=
  match request with
  | PostTables body =>
      run! dbRoutes.postSchemaTables projectId keyType body in ret tt
  | DeleteTable t body =>
      run! dbRoutes.deleteSchemaTable tableNameSchema projectId keyType t body in ret tt
  | PatchTableRename t body =>
      run! dbRoutes.patchSchemaTableRename tableNameSchema projectId keyType t body
      in ret tt
  | PostColumns t body =>
      run! dbRoutes.postSchemaColumns tableNameSchema projectId keyType t body in ret tt
  | DeleteColumn t c body =>
      run! dbRoutes.deleteSchemaColumn tableNameSchema projectId keyType t c body
      in ret tt
  | PatchColumnRename t body =>
      run! dbRoutes.patchSchemaColumnRename tableNameSchema projectId keyType t body
      in ret tt
  end.

(** The DDL operation that a request with a fitting body asks for. *)
Definition requestedDdl (request : SchemaRequest) : option DdlOperation :=
  match request with
  | PostTables (Some (name, cols, ifNotExists)) =>
      Some (CreateTable name cols ifNotExists)
  | DeleteTable t (Some (ifExists, cascade)) => Some (DropTable t ifExists cascade)
  | PatchTableRename t (Some newName) => Some (RenameTable t newName)
  | PostColumns t (Some col) => Some (AddColumn t col)
  | DeleteColumn t c (Some (ifExists, cascade)) =>
      Some (DropColumn t c ifExists cascade)
  | PatchColumnRename t (Some (oldName, newName)) =>
      Some (RenameColumn t oldName newName)
  | _ => None
  end.

(** The path parameters that a route passes through [tableNameSchema]. *)
Definition requestNames (request : SchemaRequest) : list string :=
  match request with
  | PostTables _ => []
  | DeleteTable t _ | PatchTableRename t _ | PostColumns t _
  | PatchColumnRename t _ => [t]
  | DeleteColumn t c _ => [t; c]
  end.

(** * Properties *)

(** ** Strings and characters *)

Lemma string_app_nil_r (s : string) : s +:+ EmptyString = s.
Proof.
  induction s as [|c r IH]; [reflexivity|].
  change (String c (r +:+ EmptyString) = String c r). now rewrite IH.
Qed.

Lemma string_app_assoc (a b c : string) : (a +:+ b) +:+ c = a +:+ (b +:+ c).
Proof.
  induction a as [|x r IH]; [reflexivity|].
  change (String x ((r +:+ b) +:+ c) = String x (r +:+ (b +:+ c))). now rewrite IH.
Qed.

Lemma all_weaken (p q : ascii -> bool) (s : string) :
  (forall c, p c = true -> q c = true) -> Js.all p s = true -> Js.all q s = true.
Proof.
  intros Hpq. induction s as [|c r IH]; simpl; [reflexivity|].
  rewrite !andb_true_iff. intros [Hc Hr]. split; [apply Hpq, Hc | apply IH, Hr].
Qed.

Lemma all_mapChars (p : ascii -> bool) (f : ascii -> ascii) (s : string) :
  Js.all p (Js.mapChars f s) = Js.all (fun c => p (f c)) s.
Proof.
  induction s as [|c r IH]; simpl; [reflexivity|]. now rewrite IH.
Qed.

Lemma length_mapChars (f : ascii -> ascii) (s : string) :
  String.length (Js.mapChars f s) = String.length s.
Proof.
  induction s as [|c r IH]; simpl; [reflexivity|]. now rewrite IH.
Qed.

(** A character that lower-cases to a small letter or an underscore can
    start an identifier. *)
Lemma lowerChar_ident (c : ascii) :
  (Js.isLower (Js.lowerChar c) || Ascii.eqb (Js.lowerChar c) "_")%bool = true ->
  crudService.isIdentStart c = true.
Proof.
  destruct c as [[] [] [] [] [] [] [] []]; vm_compute; intros Hc;
    first [reflexivity | discriminate Hc].
Qed.

Lemma isIdentStart_part (c : ascii) :
  crudService.isIdentStart c = true -> crudService.isIdentPart c = true.
Proof.
  unfold crudService.isIdentStart, crudService.isIdentPart.
  rewrite !orb_true_iff. tauto.
Qed.

(** A name whose lower-case form is made of small letters and underscores
    matches the identifier pattern, unless it is empty. *)
Lemma lowercase_word_is_identifier (name : string) :
  Js.all (fun c => (Js.isLower c || Ascii.eqb c "_")%bool) (Js.toLowerCase name) = true ->
  name <> EmptyString ->
  crudService.identifierRegex name = true.
Proof.
  unfold Js.toLowerCase. rewrite all_mapChars. intros Hall Hne.
  assert (Hs : Js.all crudService.isIdentStart name = true).
  { revert Hall. apply all_weaken. intros c. apply lowerChar_ident. }
  destruct name as [|c r]; [congruence|]. simpl in *.
  apply andb_true_iff in Hs as [Hc Hr]. rewrite Hc. simpl.
  revert Hr. apply all_weaken, isIdentStart_part.
Qed.

(** ** The identifier validator *)

Lemma validateIdentifier_throws (name : string) (kind : crudService.IdentifierKind)
  (e : Error) :
  crudService.validateIdentifier name kind = Throw e ->
  exists msg, e = BadRequestError msg.
Proof.
  unfold crudService.validateIdentifier.
  repeat match goal with
         | |- context [if ?b then _ else _] => destruct b
         end; intros Heq; inversion Heq; eauto.
Qed.

Lemma arrayIncludes_In (l : list string) (x : string) :
  Js.arrayIncludes l x = true <-> List.In x l.
Proof.
  unfold Js.arrayIncludes. rewrite existsb_exists. split.
  - intros [y [Hy Heq]]. apply String.eqb_eq in Heq. now subst.
  - intros Hx. exists x. split; [assumption | apply String.eqb_refl].
Qed.

(** C6. [validateIdentifier] rejects with a BadRequest every empty name,
    every name that does not match [A-Za-z_][A-Za-z0-9_]*, every name longer
    than 63 characters and every table name that is one of the reserved
    catalog words; it accepts "users" and rejects "users; DROP TABLE x". *)
Theorem validateIdentifier_whitelist :
  (forall (name : string) (kind : crudService.IdentifierKind),
      name = EmptyString \/
      crudService.identifierRegex name = false \/
      (63 < String.length name)%nat \/
      (kind = crudService.table /\ List.In name crudService.RESERVED_TABLE_NAMES) ->
      exists msg, crudService.validateIdentifier name kind = Throw (BadRequestError msg)) /\
  (forall kind, crudService.validateIdentifier "users" kind = Ok tt) /\
  (forall kind, exists msg,
      crudService.validateIdentifier "users; DROP TABLE x" kind
      = Throw (BadRequestError msg)).
Proof.
  split; [|split].
  - intros name kind Hrej. unfold crudService.validateIdentifier.
    destruct (String.eqb name EmptyString) eqn:Hempty; [eauto|].
    destruct (crudService.identifierRegex name) eqn:Hre; simpl; [|eauto].
    destruct (Nat.ltb 63 (String.length name)) eqn:Hlen; [eauto|].
    destruct Hrej as [Hrej | [Hrej | [Hrej | [Hkind Hrej]]]].
    + subst name. discriminate Hempty.
    + discriminate Hrej.
    + apply Nat.ltb_ge in Hlen. lia.
    + subst kind. simpl in Hrej.
      destruct Hrej as [<- | [<- | [<- | [<- | []]]]]; vm_compute; eauto.
  - intros []; reflexivity.
  - intros []; vm_compute; eauto.
Qed.

Lemma validateIdentifier_whitelist_witness :
  exists msg,
    crudService.validateIdentifier "information_schema" crudService.table
    = Throw (BadRequestError msg).
Proof.
  apply (proj1 validateIdentifier_whitelist "information_schema" crudService.table).
  right; right; right. split; [reflexivity | simpl; tauto].
Defined.

(** C10. The reserved-name test applies to table names only and ignores
    letter case: a name whose lower-case form is a reserved catalog word is
    rejected as a table name and accepted as a column name. *)
Theorem reserved_names_tables_only (name : string) :
  List.In (Js.toLowerCase name) crudService.RESERVED_TABLE_NAMES ->
  crudService.validateIdentifier name crudService.table
  = Throw (BadRequestError ("table name is reserved: " +:+ name)) /\
  crudService.validateIdentifier name crudService.column = Ok tt.
Proof.
  intros Hin.
  assert (Hlen : String.length name = String.length (Js.toLowerCase name))
    by (unfold Js.toLowerCase; now rewrite length_mapChars).
  assert (Hshape :
    Js.all (fun c => (Js.isLower c || Ascii.eqb c "_")%bool) (Js.toLowerCase name) = true
    /\ (0 < String.length (Js.toLowerCase name) <= 63)%nat).
  { simpl in Hin.
    destruct Hin as [<- | [<- | [<- | [<- | []]]]]; vm_compute; repeat split; lia. }
  destruct Hshape as [Hall Hbound].
  assert (Hne : name <> EmptyString).
  { intros ->. simpl in Hbound. lia. }
  pose proof (lowercase_word_is_identifier name Hall Hne) as Hre.
  apply arrayIncludes_In in Hin.
  unfold crudService.validateIdentifier.
  destruct (String.eqb_spec name EmptyString) as [| _]; [contradiction|].
  rewrite Hre. cbn [negb].
  destruct (Nat.ltb_spec 63 (String.length name)) as [Hgt | _]; [lia|].
  rewrite Hin. split; reflexivity.
Qed.

Lemma reserved_names_tables_only_witness :
  crudService.validateIdentifier "PG_Catalog" crudService.table
  = Throw (BadRequestError "table name is reserved: PG_Catalog") /\
  crudService.validateIdentifier "PG_Catalog" crudService.column = Ok tt.
Proof.
  apply (reserved_names_tables_only "PG_Catalog"). vm_compute. tauto.
Defined.

(** ** Running the monad *)

Section MonadSteps.

Context {Db : Type}.

Lemma bind_liftResult_ok {A B : Type} (r : Result A) (a : A)
  (k : A -> M Db B) (w : World Db) :
  r = Ok a -> bind (liftResult r) k w = k a w.
Proof. intros ->. reflexivity. Qed.

Lemma bind_liftResult_throw {A B : Type} (r : Result A) (e : Error)
  (k : A -> M Db B) (w : World Db) :
  r = Throw e -> bind (liftResult r) k w = (Throw e, w).
Proof. intros ->. reflexivity. Qed.

Lemma bind_ok {A B : Type} (m : M Db A) (k : A -> M Db B)
  (w w1 : World Db) (a : A) :
  m w = (Ok a, w1) -> bind m k w = k a w1.
Proof. unfold bind. intros ->. reflexivity. Qed.

End MonadSteps.

(** ** Mutations need a filter; tables need columns *)

(** C9. [createTable] rejects with a BadRequest a column list that is empty
    or longer than 100, and leaves the world as it was: no statement is
    issued and the cache is untouched. *)
Theorem createTable_column_count {Db : Type} `{Database Db}
  (projectId tableName : string) (cols : list ColumnDefinition)
  (ifNotExists : bool) (w : World Db) :
  (length cols = 0 \/ 100 < length cols)%nat ->
  exists msg,
    crudService.createTable projectId tableName cols ifNotExists w
    = (Throw (BadRequestError msg), w).
Proof.
  intros Hcount. unfold crudService.createTable.
  destruct (crudService.validateIdentifier tableName crudService.table) as [[]|e] eqn:Hid.
  - rewrite (bind_liftResult_ok (Ok tt) tt) by reflexivity.
    destruct Hcount as [Hzero | Hmany].
    + rewrite Hzero. simpl. eauto.
    + destruct (Nat.eqb_spec (length cols) 0) as [Hz | _]; [lia|].
      destruct (Nat.ltb_spec 100 (length cols)) as [_ | Hle]; [|lia].
      unfold throw. eauto.
  - rewrite (bind_liftResult_throw (Throw e) e) by reflexivity.
    destruct (validateIdentifier_throws _ _ _ Hid) as [msg ->]. eauto.
Qed.

Lemma createTable_column_count_witness :
  exists msg,
    crudService.createTable "p1" "orders" [] false
      (Demo.world Demo.usersCatalog ∅ 0)
    = (Throw (BadRequestError msg), Demo.world Demo.usersCatalog ∅ 0).
Proof.
  apply (createTable_column_count "p1" "orders" [] false). left. reflexivity.
Defined.

(** C2. On the public routes an update or a delete whose parsed filter list
    is empty ends in a BadRequest and leaves the world as it was: not one
    statement reaches the database, whatever the table, the body and the
    parser. *)
Theorem mutation_requires_filter {Db : Type} `{Database Db} `{QueryParser}
  (tableNameSchema : string -> bool) (projectId tableName : string)
  (query : Query) (body : option (Row * bool)) (w : World Db) :
  parseFilters query = [] ->
  (exists msg,
      dbRoutes.patchRows tableNameSchema projectId tableName query body w
      = (Throw (BadRequestError msg), w)) /\
  (exists msg,
      dbRoutes.deleteRows tableNameSchema projectId tableName query w
      = (Throw (BadRequestError msg), w)).
Proof.
  intros Hnone.
  unfold dbRoutes.patchRows, dbRoutes.deleteRows, dbRoutes.requireTableName, bind.
  rewrite Hnone.
  destruct (tableNameSchema tableName); simpl.
  - split; [destruct body as [[values returning]|]|]; unfold throw; eauto.
  - split; unfold throw; eauto.
Qed.

Lemma mutation_requires_filter_witness :
  (exists msg,
      dbRoutes.patchRows (H0 := specQueryParser) Demo.anyTableName "p1" "users"
        [("limit", "5")] (Some ([("name", VStr "B")], true))
        (Demo.world Demo.usersCatalog ∅ 0)
      = (Throw (BadRequestError msg), Demo.world Demo.usersCatalog ∅ 0)) /\
  (exists msg,
      dbRoutes.deleteRows (H0 := specQueryParser) Demo.anyTableName "p1" "users"
        [("limit", "5")] (Demo.world Demo.usersCatalog ∅ 0)
      = (Throw (BadRequestError msg), Demo.world Demo.usersCatalog ∅ 0)).
Proof.
  apply (mutation_requires_filter (H0 := specQueryParser)). reflexivity.
Defined.

(** ** The schema cache and the DDL operations *)

Ltac step_pure :=
  match goal with
  | |- context [bind (liftResult ?r) _ _] =>
      let E := fresh "E" in
      destruct r eqn:E;
      [ erewrite bind_liftResult_ok by reflexivity
      | erewrite bind_liftResult_throw by reflexivity ]
  end.

Section Cache.

Context {Db : Type} `{Database Db}.

(** Without an entry for the project, [getTables] takes the miss path. *)
Lemma getTables_uncached (projectId : string) (w : World Db) :
  tableInfoCache w !! projectId = None ->
  crudService.getTables projectId w = crudService.fetchTables projectId w.
Proof.
  intros Hnone. unfold crudService.getTables, crudService.cacheGet, bind.
  now rewrite Hnone.
Qed.

(** The common end of the six DDL operations: the statement as owner,
    then the invalidation.  A success leaves no entry for the project; a
    failure of the statement leaves the cache as it was. *)
Lemma ddl_tail {A : Type} (projectId sql : string) (a : A)
  (w w1 : World Db) (r : Result A) :
  (run! crudService.queryAsOwner projectId sql [] in
   run! crudService.clearCache (Some projectId) in ret a) w = (r, w1) ->
  match r with
  | Ok _ => tableInfoCache w1 !! projectId = None
  | Throw _ => tableInfoCache w1 = tableInfoCache w
  end.
Proof.
  unfold bind, crudService.queryAsOwner, crudService.query,
    crudService.clearCache, ret.
  destruct (execute _ (db w)) as [[res|e] d].
  - destruct (String.eqb projectId EmptyString); intros [= <- <-]; simpl.
    + apply lookup_empty.
    + apply lookup_delete_eq.
  - intros [= <- <-]. reflexivity.
Qed.

Lemma ddl_success_invalidates (projectId : string) (op : DdlOperation)
  (w w1 : World Db) :
  runDdl projectId op w = (Ok tt, w1) ->
  tableInfoCache w1 !! projectId = None.
Proof.
  destruct op; unfold runDdl;
    unfold crudService.createTable, crudService.dropTable,
      crudService.addColumn, crudService.dropColumn,
      crudService.renameTable, crudService.renameColumn;
    unfold bind at 1.
  all: repeat (step_pure; [|discriminate]).
  all: try (destruct (Nat.eqb _ 0); [discriminate|];
            destruct (Nat.ltb 100 _); [discriminate|];
            step_pure; [|discriminate]).
  all: match goal with
       | |- context [bind (crudService.queryAsOwner ?p ?s []) ?k ?w] =>
           destruct (bind (crudService.queryAsOwner p s []) k w) as [r w2] eqn:Htail
       end;
       apply ddl_tail in Htail;
       destruct r; [intros [= <-]; exact Htail | discriminate].
Qed.

End Cache.

Section CacheCoherence.

Context {Db : Type} `{Database Db}.

(** The miss path, spelled out: the catalog query is issued and its rows,
    grouped, are the answer; an error of the query is the answer too. *)
Lemma fetchTables_result (projectId : string) (w : World Db) :
  fst (crudService.fetchTables projectId w)
  = match fst (execute (catalogStatement projectId) (db w)) with
    | Ok res => Ok (crudService.groupRows (rows res))
    | Throw e => Throw e
    end /\
  issued (snd (crudService.fetchTables projectId w))
  = (issued w ++ [catalogStatement projectId])%list.
Proof.
  unfold crudService.fetchTables, crudService.queryAsApp, crudService.query,
    bind, catalogStatement.
  destruct (execute _ (db w)) as [[res|e] d]; simpl; split; reflexivity.
Qed.

End CacheCoherence.



(** The two examples of the cache-coherence property, on the demo server
    and with a cache that is still fresh: right after [createTable] the
    table [t] is among the tables, and right after [dropColumn] the column
    [c] of [t] is gone. *)
Example cache_coherence_examples :
  let w0 := Demo.world Demo.usersCatalog Demo.warmCache 10 in
  let w1 := snd (crudService.createTable "p1" "t" [Demo.idColumn] false w0) in
  let stale := Demo.world (Demo.catalogRow "t" "id" "integer"
                           :: Demo.catalogRow "t" "c" "text" :: nil)
                 {[ "p1" := {| ce_tables :=
                                 crudService.groupRows
                                   (Demo.catalogRow "t" "id" "integer"
                                    :: Demo.catalogRow "t" "c" "text" :: nil);
                               ce_timestamp := 0 |} ]} 10 in
  let w2 := snd (crudService.dropColumn "p1" "t" "c" false false stale) in
  (whenOk (map tableName) (fst (crudService.getTables "p1" w0)) = Some ["users"]
   /\ whenOk (map tableName) (fst (crudService.getTables "p1" w1))
      = Some ["users"; "t"]) /\
  (whenOk (map crudService.columnNames) (fst (crudService.getTables "p1" stale))
   = Some [["id"; "c"]]
   /\ whenOk (map crudService.columnNames) (fst (crudService.getTables "p1" w2))
      = Some [["id"]]).
Proof. vm_compute. repeat split. Qed.

(** ** Insert, row by row *)

(** The loop over the entries of a valid row keeps every key and value. *)
Lemma insertEntries_valid (allowed : list string) (entries : Row)
  (paramIndex : nat) (acc : crudService.InsertParts) :
  rowValid allowed entries = true ->
  crudService.insertEntries allowed entries paramIndex acc
  = Ok {| crudService.ins_columns :=
            (crudService.ins_columns acc
             ++ map (fun entry => sqlBuilder.quoteIdent (fst entry)) entries)%list;
          crudService.ins_values :=
            (crudService.ins_values acc ++ map snd entries)%list;
          crudService.ins_placeholders :=
            (crudService.ins_placeholders acc
             ++ sqlBuilder.placeholdersFrom paramIndex (length entries))%list |}.
Proof.
  revert paramIndex acc. induction entries as [|[col val] rest IH];
    intros paramIndex acc Hvalid.
  - simpl. rewrite !app_nil_r. now destruct acc.
  - simpl in Hvalid. apply andb_true_iff in Hvalid as [Hcol Hrest].
    simpl. rewrite Hcol. simpl. rewrite IH by exact Hrest. simpl.
    rewrite <- !app_assoc. reflexivity.
Qed.

Lemma insertParts_valid (allowed : list string) (row : Row) :
  rowValid allowed row = true ->
  crudService.insertParts allowed row = Ok (wholeRowParts row).
Proof.
  intros Hvalid. unfold crudService.insertParts.
  now rewrite insertEntries_valid by exact Hvalid.
Qed.

Lemma rowValid_unknownKey (allowed : list string) (row : Row) :
  rowValid allowed row = true <-> unknownKey allowed row = None.
Proof.
  unfold rowValid, unknownKey. induction row as [|[col val] rest IH]; simpl.
  - tauto.
  - destruct (Js.arrayIncludes allowed col); simpl; [exact IH|].
    split; discriminate.
Qed.

(** The loop stops at the first unknown key of an invalid row. *)
Lemma insertEntries_invalid (allowed : list string) (entries : Row)
  (paramIndex : nat) (acc : crudService.InsertParts) (k : string) :
  unknownKey allowed entries = Some k ->
  crudService.insertEntries allowed entries paramIndex acc
  = Throw (BadRequestError ("Invalid column: " +:+ k)).
Proof.
  unfold unknownKey. revert paramIndex acc.
  induction entries as [|[col val] rest IH]; intros paramIndex acc; simpl.
  - discriminate.
  - destruct (Js.arrayIncludes allowed col); simpl.
    + apply IH.
    + intros [= <-]. reflexivity.
Qed.

Lemma firstUnknownKey_none (allowed : list string) (rowsToInsert : list Row) :
  firstUnknownKey allowed rowsToInsert = None <->
  validPrefix allowed rowsToInsert = rowsToInsert.
Proof.
  induction rowsToInsert as [|row rest IH]; simpl; [tauto|].
  destruct (rowValid allowed row) eqn:Hrow.
  - apply rowValid_unknownKey in Hrow. rewrite Hrow. rewrite IH.
    split; [intros ->; reflexivity | intros [= Heq]; exact Heq].
  - destruct (unknownKey allowed row) eqn:Hk.
    + split; discriminate.
    + apply rowValid_unknownKey in Hk. congruence.
Qed.

Section InsertLoop.

Context {Db : Type} `{Database Db}.
Variables (projectId tableName : string) (allowed : list string) (returning : bool).

Let stmt : Row -> Statement := insertStatement projectId tableName returning.

(** One turn of the loop on a valid row: its INSERT goes to the database,
    and the loop goes on only if the database accepts it. *)
Lemma insertRows_valid_row (row : Row) (rest results : list Row) (w : World Db) :
  rowValid allowed row = true ->
  crudService.insertRows projectId tableName allowed returning (row :: rest) results w
  = let w' := {| tableInfoCache := tableInfoCache w; clock := clock w;
                 db := snd (execute (stmt row) (db w));
                 issued := (issued w ++ [stmt row])%list |} in
    match fst (execute (stmt row) (db w)) with
    | Ok res =>
        crudService.insertRows projectId tableName allowed returning rest
          (match returning, rows res with
           | true, first :: _ => (results ++ [first])%list
           | _, _ => results
           end) w'
    | Throw e => (Throw e, w')
    end.
Proof.
  intros Hvalid. simpl.
  erewrite bind_liftResult_ok by (apply insertParts_valid, Hvalid).
  unfold bind at 1, crudService.queryAsApp, crudService.query.
  change {| st_role := App; st_project := projectId;
            st_sql := crudService.insertSql tableName (wholeRowParts row) returning;
            st_params := crudService.ins_values (wholeRowParts row) |}
    with (stmt row).
  destruct (execute (stmt row) (db w)) as [[res|e] d]; reflexivity.
Qed.

(** One turn of the loop on a row with an unknown key: nothing is issued. *)
Lemma insertRows_invalid_row (row : Row) (rest results : list Row) (w : World Db)
  (k : string) :
  unknownKey allowed row = Some k ->
  crudService.insertRows projectId tableName allowed returning (row :: rest) results w
  = (Throw (BadRequestError ("Invalid column: " +:+ k)), w).
Proof.
  intros Hk. simpl.
  erewrite bind_liftResult_throw; [reflexivity|].
  unfold crudService.insertParts. now apply insertEntries_invalid.
Qed.

(** Whatever the database does, the statements issued are the INSERTs of
    some first rows of the valid prefix, each with all the keys of its row. *)
Lemma insertRows_issued (rowsToInsert : list Row) :
  forall (results : list Row) (w w1 : World Db) (r : Result (list Row)),
    crudService.insertRows projectId tableName allowed returning rowsToInsert results w
    = (r, w1) ->
    exists n,
      (n <= length (validPrefix allowed rowsToInsert))%nat /\
      issued w1
      = (issued w ++ map stmt (firstn n (validPrefix allowed rowsToInsert)))%list /\
      ((exists res, r = Ok res) -> n = length rowsToInsert).
Proof.
  induction rowsToInsert as [|row rest IH]; intros results w w1 r Hrun.
  - simpl in Hrun. injection Hrun as <- <-. exists 0%nat. simpl.
    rewrite app_nil_r. repeat split; lia.
  - destruct (unknownKey allowed row) as [k|] eqn:Hk.
    + rewrite (insertRows_invalid_row _ _ _ _ k Hk) in Hrun.
      injection Hrun as <- <-. exists 0%nat. simpl. rewrite app_nil_r.
      repeat split; [lia|]. intros [res Hres]. discriminate Hres.
    + apply rowValid_unknownKey in Hk.
      rewrite (insertRows_valid_row _ _ _ _ Hk) in Hrun. simpl in Hrun.
      simpl validPrefix. rewrite Hk.
      destruct (fst (execute (stmt row) (db w))) as [res|e].
      * apply IH in Hrun as [n [Hle [Hiss Hok]]]. simpl in Hiss.
        exists (S n). simpl. rewrite Hiss, <- app_assoc. simpl.
        repeat split; [lia|]. intros Hres. now rewrite (Hok Hres).
      * injection Hrun as <- <-. exists 1%nat. simpl.
        repeat split; [lia|]. intros [res Hres]. discriminate Hres.
Qed.

(** A request with an unknown key never succeeds. *)
Lemma insertRows_unknown_key_fails (rowsToInsert : list Row) :
  forall (results : list Row) (w w1 : World Db) (r : Result (list Row)) (k : string),
    crudService.insertRows projectId tableName allowed returning rowsToInsert results w
    = (r, w1) ->
    firstUnknownKey allowed rowsToInsert = Some k ->
    exists e, r = Throw e.
Proof.
  induction rowsToInsert as [|row rest IH]; intros results w w1 r k Hrun Hfirst.
  - discriminate Hfirst.
  - simpl in Hfirst. destruct (unknownKey allowed row) as [k'|] eqn:Hk.
    + rewrite (insertRows_invalid_row _ _ _ _ k' Hk) in Hrun.
      injection Hrun as <- <-. eauto.
    + apply rowValid_unknownKey in Hk.
      rewrite (insertRows_valid_row _ _ _ _ Hk) in Hrun. simpl in Hrun.
      destruct (fst (execute (stmt row) (db w))) as [res|e].
      * eapply IH; eassumption.
      * injection Hrun as <- <-. eauto.
Qed.

(** When the database accepts the INSERTs of the valid prefix, all of them
    are issued; the request then ends in the BadRequest of the first unknown
    key, or succeeds if there is none. *)
Lemma insertRows_accepted (rowsToInsert : list Row) :
  forall (results : list Row) (w w1 : World Db) (r : Result (list Row)),
    crudService.insertRows projectId tableName allowed returning rowsToInsert results w
    = (r, w1) ->
    accepts (map stmt (validPrefix allowed rowsToInsert)) ->
    issued w1 = (issued w ++ map stmt (validPrefix allowed rowsToInsert))%list /\
    match firstUnknownKey allowed rowsToInsert with
    | Some k => r = Throw (BadRequestError ("Invalid column: " +:+ k))
    | None => exists res, r = Ok res
    end.
Proof.
  induction rowsToInsert as [|row rest IH]; intros results w w1 r Hrun Hacc.
  - simpl in Hrun. injection Hrun as <- <-. simpl. rewrite app_nil_r. eauto.
  - simpl firstUnknownKey. simpl validPrefix in *.
    destruct (unknownKey allowed row) as [k|] eqn:Hk.
    + rewrite (insertRows_invalid_row _ _ _ _ k Hk) in Hrun.
      injection Hrun as <- <-.
      assert (Hrow : rowValid allowed row = false).
      { destruct (rowValid allowed row) eqn:Hv; [|reflexivity].
        apply rowValid_unknownKey in Hv. congruence. }
      rewrite Hrow. simpl. rewrite app_nil_r. split; reflexivity.
    + apply rowValid_unknownKey in Hk. rewrite Hk in *.
      rewrite (insertRows_valid_row _ _ _ _ Hk) in Hrun. simpl in Hrun.
      destruct (Hacc (stmt row) (or_introl eq_refl) (db w)) as [res [d' Hexec]].
      rewrite Hexec in Hrun. simpl in Hrun.
      apply IH in Hrun as [Hiss Hres].
      * simpl in Hiss. rewrite Hiss, <- app_assoc. simpl. split; [reflexivity|exact Hres].
      * intros st Hst. apply Hacc. right. exact Hst.
Qed.

End InsertLoop.


(** The demo server accepts every statement. *)
Lemma demo_accepts (statements : list Statement) :
  accepts (Db := Demo.Store) statements.
Proof.
  intros st _ d. unfold execute, Demo.demoDatabase, Demo.serve, Demo.answer.
  destruct (String.eqb (st_sql st) crudService.CATALOG_SQL); [eauto|].
  destruct (st_role st).
  - destruct (Js.includes "INSERT INTO" (st_sql st)); eauto.
  - repeat match goal with
           | |- context [if ?b then _ else _] => destruct b
           end; eauto.
Qed.



(** ** Limit and offset *)

Lemma effectiveLimit_number (config : QueryConfig) (n : Z) :
  n <> 0 ->
  crudService.effectiveLimit config (Some (Js.Num n))
  = Js.Num (Z.min n (maxRowsPerQuery config)).
Proof.
  intros Hn. unfold crudService.effectiveLimit, Js.orElse, Js.truthy.
  destruct (Z.eqb_spec n 0) as [Hz | _]; [contradiction|]. reflexivity.
Qed.

Lemma effectiveLimit_default (config : QueryConfig) (limit : option Js.number) :
  limit = None \/ limit = Some Js.NaN \/ limit = Some (Js.Num 0) ->
  crudService.effectiveLimit config limit
  = Js.Num (Z.min (defaultRowsLimit config) (maxRowsPerQuery config)).
Proof.
  intros [-> | [-> | ->]]; reflexivity.
Qed.

Section SelectStatement.

Context {Db : Type} `{Database Db}.
Variable config : QueryConfig.

(** A select that succeeds has issued, last, a statement whose text ends in
    the effective limit and offset. *)
Lemma select_issues_limit (projectId tableName : string)
  (options : crudService.SelectOptions) (w w1 : World Db) (res : list Row * Z) :
  crudService.select config projectId tableName options w = (Ok res, w1) ->
  exists selectCols whereClause orderClause params,
    last (issued w1)
    = Some {| st_role := App; st_project := projectId;
              st_sql :=
                crudService.selectSql selectCols tableName whereClause orderClause
                  (crudService.effectiveLimit config (crudService.opt_limit options))
                  (crudService.effectiveOffset (crudService.opt_offset options));
              st_params := params |}.
Proof.
  unfold crudService.select. unfold bind at 1.
  destruct (crudService.requireTable projectId tableName w) as [[tableInfo|e] w0];
    [|discriminate].
  repeat (step_pure; [|discriminate]).
  destruct (sqlBuilder.buildWhereClause _ 1) as [whereClause whereValues].
  unfold bind, crudService.queryAsApp, crudService.query, ret.
  destruct (execute _ (db w0)) as [[result|e] d]; [|discriminate].
  intros [= <- <-]. simpl. rewrite last_snoc. eauto.
Qed.

End SelectStatement.

(** C5, as the code has it.  A requested limit other than zero is capped
    by the configured maximum; without a requested limit the configured
    default is capped by the maximum as well, which leaves the default as it
    is when it does not exceed the maximum.  With the default configuration,
    a request for 5000 rows gets 1000 and a request without a limit gets
    100.  The statement of a successful select carries that limit after
    LIMIT. *)
Theorem select_limit_clamped {Db : Type} `{Database Db} (config : QueryConfig) :
  (forall n, n <> 0 ->
     crudService.effectiveLimit config (Some (Js.Num n))
     = Js.Num (Z.min n (maxRowsPerQuery config))) /\
  crudService.effectiveLimit config None
  = Js.Num (Z.min (defaultRowsLimit config) (maxRowsPerQuery config)) /\
  (defaultRowsLimit config <= maxRowsPerQuery config ->
   crudService.effectiveLimit config None = Js.Num (defaultRowsLimit config)) /\
  crudService.effectiveLimit defaultConfig (Some (Js.Num 5000)) = Js.Num 1000 /\
  crudService.effectiveLimit defaultConfig None = Js.Num 100 /\
  (forall (projectId tableName : string) (options : crudService.SelectOptions)
          (w w1 : World Db) (res : list Row * Z),
     crudService.select config projectId tableName options w = (Ok res, w1) ->
     exists selectCols whereClause orderClause params,
       last (issued w1)
       = Some {| st_role := App; st_project := projectId;
                 st_sql :=
                   crudService.selectSql selectCols tableName whereClause orderClause
                     (crudService.effectiveLimit config (crudService.opt_limit options))
                     (crudService.effectiveOffset (crudService.opt_offset options));
                 st_params := params |}).
Proof.
  split; [|split; [|split; [|split; [|split]]]].
  - apply effectiveLimit_number.
  - apply effectiveLimit_default. now left.
  - intros Hle. rewrite effectiveLimit_default by now left.
    now rewrite Z.min_l.
  - reflexivity.
  - reflexivity.
  - apply select_issues_limit.
Qed.

Lemma select_limit_clamped_witness :
  crudService.effectiveLimit defaultConfig (Some (Js.Num 5000))
  = Js.Num (Z.min 5000 (maxRowsPerQuery defaultConfig)) /\
  crudService.effectiveLimit defaultConfig None = Js.Num (defaultRowsLimit defaultConfig).
Proof.
  pose proof (select_limit_clamped (Db := Demo.Store) defaultConfig)
    as [Hnum [_ [Hdefault _]]].
  split; [apply Hnum; discriminate | apply Hdefault; vm_compute; discriminate].
Defined.

(** The claim C5 as stated fails twice: with a configured default above the
    configured maximum (both within the bounds of the environment schema) a
    request without a limit gets the maximum, not the default; and a
    requested limit of zero gets the default, not the minimum of zero and
    the maximum. *)
Lemma select_limit_counterexample :
  let config := {| maxRowsPerQuery := 500; defaultRowsLimit := 1000 |} in
  validConfig config /\
  crudService.effectiveLimit config None = Js.Num 500 /\
  crudService.effectiveLimit config None <> Js.Num (defaultRowsLimit config) /\
  crudService.effectiveLimit defaultConfig (Some (Js.Num 0)) = Js.Num 100 /\
  crudService.effectiveLimit defaultConfig (Some (Js.Num 0))
  <> Js.Num (Z.min 0 (maxRowsPerQuery defaultConfig)).
Proof.
  vm_compute. repeat split; intros; discriminate.
Qed.

Lemma effective_definedNumber (config : QueryConfig) (n : option Js.number) :
  crudService.effectiveLimit config (definedNumber n)
  = crudService.effectiveLimit config n /\
  crudService.effectiveOffset (definedNumber n) = crudService.effectiveOffset n.
Proof.
  destruct n as [[|z]|]; split; reflexivity.
Qed.

(** [select] reads the limit and the offset through their effective values
    only. *)
Lemma select_reads_effective {Db : Type} `{Database Db} (config : QueryConfig)
  (projectId tableName : string) (sel : option Projection)
  (ord : option ParsedOrder) (fil : option (list ParsedFilter))
  (limit limit' offset offset' : option Js.number) :
  crudService.effectiveLimit config limit = crudService.effectiveLimit config limit' ->
  crudService.effectiveOffset offset = crudService.effectiveOffset offset' ->
  crudService.select config projectId tableName
    {| crudService.opt_select := sel; crudService.opt_order := ord;
       crudService.opt_limit := limit; crudService.opt_offset := offset;
       crudService.opt_filters := fil |}
  = crudService.select config projectId tableName
      {| crudService.opt_select := sel; crudService.opt_order := ord;
         crudService.opt_limit := limit'; crudService.opt_offset := offset';
         crudService.opt_filters := fil |}.
Proof.
  intros Hlimit Hoffset. unfold crudService.select.
  cbn [crudService.opt_select crudService.opt_order crudService.opt_limit
       crudService.opt_offset crudService.opt_filters].
  rewrite Hlimit, Hoffset. reflexivity.
Qed.

Lemma takeWhile_digits_app (ds rest : string) :
  Js.all Js.isDigit ds = true ->
  Js.takeWhile Js.isDigit rest = EmptyString ->
  Js.takeWhile Js.isDigit (ds +:+ rest) = ds.
Proof.
  intros Hds Hrest. induction ds as [|c r IH]; simpl in *; [exact Hrest|].
  apply andb_true_iff in Hds as [Hc Hr]. rewrite Hc. f_equal. apply IH, Hr.
Qed.

Lemma digit_not_space_or_sign (c : ascii) :
  Js.isDigit c = true ->
  Js.isWhiteSpace c = false /\ Ascii.eqb c "-" = false /\ Ascii.eqb c "+" = false.
Proof.
  destruct c as [[] [] [] [] [] [] [] []]; vm_compute; intros Hc;
    first [discriminate Hc | repeat split].
Qed.

(** [parseInt] reads the leading digits and ignores what follows them. *)
Lemma parseInt10_leading_digits (ds rest : string) :
  ds <> EmptyString ->
  Js.all Js.isDigit ds = true ->
  Js.takeWhile Js.isDigit rest = EmptyString ->
  Js.parseInt10 (ds +:+ rest) = Js.Num (Js.digitsValue 0 ds).
Proof.
  intros Hne Hds Hrest. destruct ds as [|c r]; [congruence|].
  pose proof (takeWhile_digits_app _ _ Hds Hrest) as Htake.
  simpl in Hds. apply andb_true_iff in Hds as [Hc Hr].
  destruct (digit_not_space_or_sign c Hc) as [Hspace [Hminus Hplus]].
  unfold Js.parseInt10, Js.trimStart. simpl String.append in *.
  simpl Js.dropWhile. rewrite Hspace, Hminus, Hplus.
  change (String c (r +:+ rest)) with (String c r +:+ rest).
  rewrite Htake. reflexivity.
Qed.




(** ** Default expressions of column definitions *)

Lemma takeWhile_dropWhile (p : ascii -> bool) (s : string) :
  s = Js.takeWhile p s +:+ Js.dropWhile p s /\ Js.all p (Js.takeWhile p s) = true.
Proof.
  induction s as [|c r [IHeq IHall]]; simpl; [split; reflexivity|].
  destruct (p c) eqn:Hc; simpl.
  - rewrite Hc, IHall. split; [rewrite IHeq at 1; reflexivity | reflexivity].
  - split; reflexivity.
Qed.

Lemma dropWhile_digits_app (ds rest : string) :
  Js.all Js.isDigit ds = true ->
  Js.takeWhile Js.isDigit rest = EmptyString ->
  Js.dropWhile Js.isDigit (ds +:+ rest) = rest.
Proof.
  intros Hds Hrest. induction ds as [|c r IH]; simpl in *.
  - destruct rest as [|c r]; simpl in *; [reflexivity|].
    destruct (Js.isDigit c); [discriminate Hrest | reflexivity].
  - apply andb_true_iff in Hds as [Hc Hr]. rewrite Hc. apply IH, Hr.
Qed.

(** The numeric pattern, read forwards: what it accepts has the shape of
    an integer or of a decimal number. *)
Lemma numericRegex_sound (s : string) :
  crudService.numericRegex s = true ->
  exists (minus : bool) (whole : string),
    digits whole /\
    (s = (if minus then "-" else EmptyString) +:+ whole \/
     exists frac, digits frac /\
       s = (if minus then "-" else EmptyString) +:+ whole +:+ "." +:+ frac).
Proof.
  unfold crudService.numericRegex.
  set (unsigned := match s with
                   | String c r => if Ascii.eqb c "-" then r else s
                   | EmptyString => s
                   end).
  intros Hnum. apply andb_true_iff in Hnum as [Hwhole Hrest].
  apply negb_true_iff, String.eqb_neq in Hwhole.
  destruct (takeWhile_dropWhile Js.isDigit unsigned) as [Hsplit Hall].
  assert (Hsign : exists minus : bool,
             s = (if minus then "-" else EmptyString) +:+ unsigned).
  { subst unsigned. destruct s as [|c r]; [exists false; reflexivity|].
    destruct (Ascii.eqb_spec c "-") as [-> | _];
      [exists true | exists false]; reflexivity. }
  destruct Hsign as [minus Hs].
  exists minus, (Js.takeWhile Js.isDigit unsigned).
  split; [split; assumption|].
  destruct (Js.dropWhile Js.isDigit unsigned) as [|c frac] eqn:Hdrop.
  - left. rewrite Hs. f_equal. rewrite Hsplit at 1.
    apply string_app_nil_r.
  - right. apply andb_true_iff in Hrest as [Hrest Hfrac].
    apply andb_true_iff in Hrest as [Hdot Hne].
    apply Ascii.eqb_eq in Hdot. subst c.
    apply negb_true_iff, String.eqb_neq in Hne.
    exists frac. split; [split; assumption|].
    rewrite Hs. f_equal. exact Hsplit.
Qed.

(** The numeric pattern, read backwards. *)
Lemma numericRegex_complete (minus : bool) (whole rest : string) :
  digits whole ->
  rest = EmptyString \/ (exists frac, digits frac /\ rest = "." +:+ frac) ->
  crudService.numericRegex ((if minus then "-" else EmptyString) +:+ whole +:+ rest)
  = true.
Proof.
  intros [Hne Hall] Hrest.
  assert (Htake : Js.takeWhile Js.isDigit rest = EmptyString).
  { destruct Hrest as [-> | [frac [_ ->]]]; reflexivity. }
  assert (Hunsigned :
    match (if minus then "-" else EmptyString) +:+ whole +:+ rest with
    | String c r =>
        if Ascii.eqb c "-" then r
        else (if minus then "-" else EmptyString) +:+ whole +:+ rest
    | EmptyString => (if minus then "-" else EmptyString) +:+ whole +:+ rest
    end = whole +:+ rest).
  { destruct minus; [reflexivity|]. simpl.
    destruct whole as [|c r]; [congruence|]. simpl in Hall.
    apply andb_true_iff in Hall as [Hc _].
    destruct (digit_not_space_or_sign c Hc) as [_ [Hminus _]].
    simpl. now rewrite Hminus. }
  unfold crudService.numericRegex. rewrite Hunsigned.
  rewrite takeWhile_digits_app, dropWhile_digits_app by assumption.
  apply andb_true_iff. split.
  - apply negb_true_iff, String.eqb_neq, Hne.
  - destruct Hrest as [-> | [frac [[Hfne Hfall] ->]]]; [reflexivity|].
    change ("." +:+ frac) with (String "." frac). cbn iota.
    rewrite Hfall. apply String.eqb_neq in Hfne. now rewrite Hfne.
Qed.

Lemma quotedTail_sound (r : string) :
  crudService.quotedTail r = true ->
  exists body, r = body +:+ "'" /\ Js.all notQuote body = true.
Proof.
  induction r as [|c r IH]; simpl; [discriminate|].
  destruct (Ascii.eqb_spec c "'") as [-> | Hc].
  - intros Hend. apply String.eqb_eq in Hend. subst r.
    exists EmptyString. split; reflexivity.
  - intros Htail. destruct (IH Htail) as [body [-> Hall]].
    exists (String c body). split; [reflexivity|].
    simpl. rewrite Hall. unfold notQuote.
    destruct (Ascii.eqb_spec c "'"); [contradiction | reflexivity].
Qed.

Lemma quotedTail_complete (body : string) :
  Js.all notQuote body = true ->
  crudService.quotedTail (body +:+ "'") = true.
Proof.
  induction body as [|c r IH]; [reflexivity|].
  simpl Js.all. intros Hall. apply andb_true_iff in Hall as [Hc Hr].
  change (String c r +:+ "'") with (String c (r +:+ "'")). simpl.
  unfold notQuote in Hc. apply negb_true_iff in Hc. rewrite Hc. apply IH, Hr.
Qed.

(** The test on default values accepts exactly the listed forms. *)
Lemma defaultValueAllowed_iff (s : string) :
  crudService.defaultValueAllowed s = true <-> AllowedDefault s.
Proof.
  split.
  - unfold crudService.defaultValueAllowed. rewrite !orb_true_iff.
    intros [[[[[[Hs | Hs] | Hs] | Hs] | Hs] | Hs] | Hs];
      try (apply String.eqb_eq in Hs; subst s; constructor).
    + destruct (numericRegex_sound s Hs) as [minus [whole [Hwhole Hshape]]].
      destruct Hshape as [-> | [frac [Hfrac ->]]].
      * now apply allowed_integer.
      * now apply allowed_decimal.
    + unfold crudService.quotedRegex in Hs. destruct s as [|c r]; [discriminate|].
      apply andb_true_iff in Hs as [Hc Htail]. apply Ascii.eqb_eq in Hc. subst c.
      destruct (quotedTail_sound r Htail) as [body [-> Hall]].
      now apply (allowed_quoted body).
  - intros Hallowed. unfold crudService.defaultValueAllowed.
    destruct Hallowed as [| | | | | minus whole Hwhole | minus whole frac Hwhole Hfrac
                         | body Hbody]; try reflexivity.
    + rewrite <- (string_app_nil_r whole).
      rewrite (numericRegex_complete minus whole EmptyString Hwhole) by now left.
      rewrite !orb_true_r. reflexivity.
    + rewrite (numericRegex_complete minus whole ("." +:+ frac) Hwhole)
        by (right; eauto).
      rewrite !orb_true_r. reflexivity.
    + assert (Hq : crudService.quotedRegex ("'" +:+ body +:+ "'") = true)
        by (apply (quotedTail_complete body Hbody)).
      rewrite Hq. rewrite !orb_true_r. reflexivity.
Qed.

(** The column loop of the DDL operations throws BadRequests only, and a
    default that is not allowed is one of them. *)
Lemma columnDef_throws (col : ColumnDefinition) (allowedList : bool) (e : Error) :
  crudService.columnDef col allowedList = Throw e -> exists msg, e = BadRequestError msg.
Proof.
  unfold crudService.columnDef.
  destruct (negb _); [intros [= <-]; eauto|].
  destruct (cd_defaultValue col) as [d|]; [|discriminate].
  destruct (crudService.defaultValueAllowed d); [discriminate|].
  intros [= <-]. eauto.
Qed.

Lemma columnDef_rejects_default (col : ColumnDefinition) (allowedList : bool)
  (d : string) :
  cd_defaultValue col = Some d ->
  crudService.defaultValueAllowed d = false ->
  exists msg, crudService.columnDef col allowedList = Throw (BadRequestError msg).
Proof.
  intros Hd Hbad. unfold crudService.columnDef.
  destruct (negb _); [eauto|]. rewrite Hd, Hbad. eauto.
Qed.

Lemma createTableColumn_throws (acc : crudService.TableParts)
  (col : ColumnDefinition) (e : Error) :
  crudService.createTableColumn acc col = Throw e -> exists msg, e = BadRequestError msg.
Proof.
  unfold crudService.createTableColumn, bindR.
  destruct (crudService.validateIdentifier (cd_name col) crudService.column)
    as [[]|e1] eqn:Hname;
    [|intros [= <-]; eapply validateIdentifier_throws; eassumption].
  destruct (crudService.columnDef col true) as [def|e2] eqn:Hdef;
    [|intros [= <-]; eapply columnDef_throws; eassumption].
  destruct (cd_references col) as [[refTable refColumn]|]; [|discriminate].
  destruct (crudService.validateIdentifier refTable crudService.table)
    as [[]|e3] eqn:Href;
    [|intros [= <-]; eapply validateIdentifier_throws; eassumption].
  destruct (crudService.validateIdentifier refColumn crudService.column)
    as [[]|e4] eqn:Hcol;
    [discriminate|intros [= <-]; eapply validateIdentifier_throws; eassumption].
Qed.

Lemma createTableColumn_rejects_default (acc : crudService.TableParts)
  (col : ColumnDefinition) (d : string) :
  cd_defaultValue col = Some d ->
  crudService.defaultValueAllowed d = false ->
  exists msg, crudService.createTableColumn acc col = Throw (BadRequestError msg).
Proof.
  intros Hd Hbad. unfold crudService.createTableColumn, bindR.
  destruct (crudService.validateIdentifier (cd_name col) crudService.column)
    as [[]|e1] eqn:Hname.
  - destruct (columnDef_rejects_default col true d Hd Hbad) as [msg ->]. eauto.
  - destruct (validateIdentifier_throws _ _ _ Hname) as [msg ->]. eauto.
Qed.

Lemma createTableColumns_rejects_default (cols : list ColumnDefinition) :
  forall (acc : crudService.TableParts) (col : ColumnDefinition) (d : string),
    List.In col cols ->
    cd_defaultValue col = Some d ->
    crudService.defaultValueAllowed d = false ->
    exists msg, crudService.createTableColumns acc cols = Throw (BadRequestError msg).
Proof.
  induction cols as [|first rest IH]; intros acc col d Hin Hd Hbad; [destruct Hin|].
  simpl. unfold bindR.
  destruct (crudService.createTableColumn acc first) as [acc'|e] eqn:Hfirst.
  - destruct Hin as [-> | Hin].
    + destruct (createTableColumn_rejects_default acc col d Hd Hbad) as [msg Hmsg].
      congruence.
    + eapply IH; eassumption.
  - destruct (createTableColumn_throws _ _ _ Hfirst) as [msg ->]. eauto.
Qed.




(** ** Values reach a statement as parameters only *)

Lemma all_app (p : ascii -> bool) (a b : string) :
  Js.all p (a +:+ b) = (Js.all p a && Js.all p b)%bool.
Proof.
  induction a as [|c r IH]; [reflexivity|].
  change (String c r +:+ b) with (String c (r +:+ b)). simpl.
  now rewrite IH, andb_assoc.
Qed.

Lemma startsWith_iff (p s : string) :
  Js.startsWith p s = true <-> exists post, s = p +:+ post.
Proof.
  revert s. induction p as [|a p IH]; intros s; simpl.
  - split; [intros _; exists s; reflexivity | reflexivity].
  - destruct s as [|b s].
    + split; [discriminate | intros [post Hpost]; discriminate Hpost].
    + rewrite andb_true_iff, IH. split.
      * intros [Hab [post ->]]. apply Ascii.eqb_eq in Hab. subst b.
        exists post. reflexivity.
      * intros [post Hpost].
        change (String a p +:+ post) with (String a (p +:+ post)) in Hpost.
        injection Hpost as -> ->. split; [apply Ascii.eqb_refl | eauto].
Qed.

(** [includes] finds the needle exactly when the text splits around it. *)
Lemma includes_iff (needle s : string) :
  Js.includes needle s = true <-> exists pre post, s = pre +:+ needle +:+ post.
Proof.
  induction s as [|c r IH].
  - simpl. rewrite orb_false_r, startsWith_iff. split.
    + intros [post Hpost]. exists EmptyString, post. exact Hpost.
    + intros [pre [post Hs]]. destruct pre as [|x pre]; [eauto|discriminate Hs].
  - change (Js.includes needle (String c r))
      with (Js.startsWith needle (String c r) || Js.includes needle r)%bool.
    rewrite orb_true_iff, startsWith_iff, IH. split.
    + intros [[post Hpost] | [pre [post ->]]].
      * exists EmptyString, post. exact Hpost.
      * exists (String c pre), post. reflexivity.
    + intros [pre [post Hs]]. destruct pre as [|x pre].
      * left. exists post. exact Hs.
      * right. change (String x pre +:+ needle +:+ post)
                 with (String x (pre +:+ needle +:+ post)) in Hs.
        injection Hs as -> ->. eauto.
Qed.

(** What holds of every character of a text holds of every character of a
    part of it. *)
Lemma includes_all (p : ascii -> bool) (v s : string) :
  Js.includes v s = true -> Js.all p s = true -> Js.all p v = true.
Proof.
  intros Hin Hall. apply includes_iff in Hin as [pre [post ->]].
  rewrite !all_app, !andb_true_iff in Hall. tauto.
Qed.

Lemma includes_trans (a v s : string) :
  Js.includes a v = true -> Js.includes v s = true -> Js.includes a s = true.
Proof.
  intros Hav Hvs. apply includes_iff in Hav as [pre1 [post1 ->]].
  apply includes_iff in Hvs as [pre2 [post2 ->]].
  apply includes_iff. exists (pre2 +:+ pre1), (post1 +:+ post2).
  now rewrite !string_app_assoc.
Qed.

Lemma dollarsNumbered_app (a b : string) :
  dollarsNumbered a = true -> dollarsNumbered b = true ->
  dollarsNumbered (a +:+ b) = true.
Proof.
  intros Ha Hb. induction a as [|c r IH]; [exact Hb|].
  change (String c r +:+ b) with (String c (r +:+ b)).
  simpl in Ha |- *. apply andb_true_iff in Ha as [Hc Hr].
  rewrite (IH Hr), andb_true_r.
  destruct (Ascii.eqb c "$"); [|reflexivity].
  destruct r as [|d r']; [discriminate Hc|exact Hc].
Qed.

Lemma clean_app (a b : string) :
  clean a = true -> clean b = true -> clean (a +:+ b) = true.
Proof.
  unfold clean. rewrite !andb_true_iff, all_app. intros [Ha1 Ha2] [Hb1 Hb2].
  rewrite Ha1, Hb1. split; [reflexivity | now apply dollarsNumbered_app].
Qed.

Lemma plainName_clean (s : string) : plainName s = true -> clean s = true.
Proof.
  unfold plainName, clean. induction s as [|c r IH]; [reflexivity|].
  simpl. rewrite !andb_true_iff. intros [[Hplain Hdollar] Hrest].
  pose proof (IH Hrest) as Hclean. apply andb_true_iff in Hclean as [Hall Hnum].
  apply negb_true_iff in Hdollar. rewrite Hplain, Hall, Hdollar, Hnum.
  repeat split.
Qed.

Lemma clean_join (sep : string) (l : list string) :
  clean sep = true -> Forall (fun s => clean s = true) l ->
  clean (Js.join sep l) = true.
Proof.
  intros Hsep Hl. induction Hl as [|x rest Hx Hrest IH]; [reflexivity|].
  destruct rest as [|y rest]; [exact Hx|].
  change (Js.join sep (x :: y :: rest)) with (x +:+ sep +:+ Js.join sep (y :: rest)).
  repeat apply clean_app; assumption.
Qed.

Lemma digit_plain (c : ascii) :
  Js.isDigit c = true -> (plainChar c && negb (Ascii.eqb c "$"))%bool = true.
Proof.
  destruct c as [[] [] [] [] [] [] [] []]; vm_compute; intros Hc;
    first [discriminate Hc | reflexivity].
Qed.

Lemma nilEmpty_digits (d : Decimal.uint) :
  Js.all Js.isDigit (NilEmpty.string_of_uint d) = true.
Proof.
  induction d; simpl; try reflexivity; assumption.
Qed.

(** A counter prints as a digit followed by digits. *)
Lemma natToString_digits (n : nat) :
  exists d r, Js.natToString n = String d r /\
              Js.isDigit d = true /\ Js.all Js.isDigit r = true.
Proof.
  unfold Js.natToString, NilZero.string_of_uint.
  destruct (Nat.to_uint n) as [|u|u|u|u|u|u|u|u|u|u];
    simpl; eexists; eexists; (split; [reflexivity|]);
    (split; [reflexivity|]); first [reflexivity | apply nilEmpty_digits].
Qed.

Lemma clean_placeholder (paramIndex : nat) :
  clean (sqlBuilder.placeholder paramIndex) = true.
Proof.
  unfold sqlBuilder.placeholder.
  destruct (natToString_digits paramIndex) as [d [r [-> [Hd Hr]]]].
  change ("$" +:+ String d r) with (String "$" (String d r)).
  assert (Hrest : clean (String d r) = true).
  { apply plainName_clean. unfold plainName. simpl.
    rewrite (digit_plain d Hd). simpl. revert Hr. apply all_weaken, digit_plain. }
  unfold clean in *. apply andb_true_iff in Hrest as [Hall Hnum].
  simpl in Hall, Hnum |- *. rewrite Hd, Hall, Hnum. reflexivity.
Qed.

Lemma clean_placeholdersFrom (first count : nat) :
  Forall (fun s => clean s = true) (sqlBuilder.placeholdersFrom first count).
Proof.
  revert first. induction count as [|n IH]; intros first; simpl.
  - constructor.
  - constructor; [apply clean_placeholder | apply IH].
Qed.

Lemma clean_quoteIdent (name : string) :
  plainName name = true -> clean (sqlBuilder.quoteIdent name) = true.
Proof.
  intros Hname. unfold sqlBuilder.quoteIdent.
  repeat apply clean_app; [reflexivity | now apply plainName_clean | reflexivity].
Qed.

(** Takes a text apart at its appends and closes the parts that are fixed
    text, quoted names or placeholders. *)
Ltac clean_text :=
  repeat first
    [ reflexivity
    | assumption
    | apply clean_placeholder
    | apply clean_quoteIdent; assumption
    | apply clean_app ].

Lemma clean_quoted_keys (row : Row) :
  Forall (fun k => plainName k = true) (map fst row) ->
  Forall (fun s => clean s = true)
    (map (fun entry => sqlBuilder.quoteIdent (fst entry)) row).
Proof.
  induction row as [|[k v] rest IH]; simpl; intros Hkeys; [constructor|].
  inversion Hkeys as [|? ? Hk Hrest]; subst.
  constructor; [now apply clean_quoteIdent | now apply IH].
Qed.

Lemma clean_setClausesFrom (values : Row) :
  forall first,
    Forall (fun k => plainName k = true) (map fst values) ->
    Forall (fun s => clean s = true) (setClausesFrom first values).
Proof.
  induction values as [|[k v] rest IH]; simpl; intros first Hkeys; [constructor|].
  inversion Hkeys as [|? ? Hk Hrest]; subst.
  constructor; [|now apply IH].
  clean_text.
Qed.

Lemma clean_condition (f : ParsedFilter) (paramIndex : nat) :
  plainName (filterColumn f) = true ->
  clean (sqlBuilder.condition f paramIndex) = true.
Proof.
  destruct f as [c op v | c vs]; simpl; intros Hc.
  - destruct op; clean_text.
  - clean_text. apply clean_join; [reflexivity | apply clean_placeholdersFrom].
Qed.

Lemma clean_conditions (filters : list ParsedFilter) :
  forall paramIndex,
    Forall (fun f => plainName (filterColumn f) = true) filters ->
    Forall (fun s => clean s = true) (sqlBuilder.conditions filters paramIndex).
Proof.
  induction filters as [|f rest IH]; simpl; intros paramIndex Hcols; [constructor|].
  inversion Hcols as [|? ? Hf Hrest]; subst.
  constructor; [now apply clean_condition | now apply IH].
Qed.

Lemma clean_whereClause (filters : list ParsedFilter) (startIndex : nat) :
  Forall (fun f => plainName (filterColumn f) = true) filters ->
  clean (fst (sqlBuilder.buildWhereClause filters startIndex)) = true.
Proof.
  intros Hcols. unfold sqlBuilder.buildWhereClause.
  destruct filters as [|f rest]; [reflexivity|].
  cbn [fst]. apply clean_app; [reflexivity|].
  apply clean_join; [reflexivity | now apply clean_conditions].
Qed.

(** With plain table and column names the text of an INSERT is clean. *)
Lemma clean_insertSql (tableName : string) (row : Row) (returning : bool) :
  plainName tableName = true ->
  Forall (fun k => plainName k = true) (map fst row) ->
  clean (crudService.insertSql tableName (wholeRowParts row) returning) = true.
Proof.
  intros Htable Hkeys. unfold crudService.insertSql, wholeRowParts.
  cbn [crudService.ins_columns crudService.ins_placeholders].
  destruct returning; clean_text.
  all: first [ apply clean_join; [reflexivity | now apply clean_quoted_keys]
             | apply clean_join; [reflexivity | apply clean_placeholdersFrom] ].
Qed.

(** With plain table and column names the text of an UPDATE is clean. *)
Lemma clean_updateSql (tableName : string) (values : Row)
  (filters : list ParsedFilter) (returning : bool) :
  plainName tableName = true ->
  Forall (fun k => plainName k = true) (map fst values) ->
  Forall (fun f => plainName (filterColumn f) = true) filters ->
  clean (crudService.updateSql tableName (setClausesFrom 1 values)
           (fst (sqlBuilder.buildWhereClause filters (S (length values))))
           returning) = true.
Proof.
  intros Htable Hkeys Hcols. unfold crudService.updateSql.
  pose proof (clean_whereClause filters (S (length values)) Hcols) as Hwhere.
  destruct returning; clean_text.
  all: apply clean_join; [reflexivity | now apply clean_setClausesFrom].
Qed.

Lemma dollar_pair_not_numbered (pre post : string) :
  dollarsNumbered (pre +:+ "$$" +:+ post) = false.
Proof.
  induction pre as [|c r IH]; [reflexivity|].
  change (String c r +:+ "$$" +:+ post) with (String c (r +:+ "$$" +:+ post)).
  simpl. rewrite IH. apply andb_false_r.
Qed.

(** A clean text contains no value that has a metacharacter in it. *)
Lemma clean_excludes_metacharacters (s v : string) :
  clean s = true -> hasMetacharacter v = true -> Js.includes v s = false.
Proof.
  intros Hclean Hmeta. destruct (Js.includes v s) eqn:Hin; [|reflexivity].
  exfalso. unfold clean in Hclean. apply andb_true_iff in Hclean as [Hplain Hnum].
  unfold hasMetacharacter in Hmeta. rewrite !orb_true_iff in Hmeta.
  destruct Hmeta as [[[Hq | Hs] | Hd] | Hdollar].
  - pose proof (includes_all plainChar _ _ (includes_trans _ _ _ Hq Hin) Hplain) as Hbad.
    discriminate Hbad.
  - pose proof (includes_all plainChar _ _ (includes_trans _ _ _ Hs Hin) Hplain) as Hbad.
    discriminate Hbad.
  - pose proof (includes_all plainChar _ _ (includes_trans _ _ _ Hd Hin) Hplain) as Hbad.
    discriminate Hbad.
  - pose proof (includes_trans _ _ _ Hdollar Hin) as Hpair.
    apply includes_iff in Hpair as [pre [post ->]].
    rewrite dollar_pair_not_numbered in Hnum. discriminate Hnum.
Qed.

(** The text of an INSERT is a function of the keys of its row. *)
Lemma insertSql_keys_only (projectId tableName : string) (returning : bool)
  (row row' : Row) :
  map fst row = map fst row' ->
  st_sql (insertStatement projectId tableName returning row)
  = st_sql (insertStatement projectId tableName returning row').
Proof.
  intros Hkeys. unfold insertStatement, wholeRowParts. cbn [st_sql].
  assert (Hlen : length row = length row').
  { rewrite <- (length_map fst row), Hkeys. apply length_map. }
  assert (Hcols : map (fun entry : string * value => sqlBuilder.quoteIdent (fst entry)) row
                  = map (fun entry : string * value => sqlBuilder.quoteIdent (fst entry)) row').
  { rewrite <- (map_map fst sqlBuilder.quoteIdent row),
            <- (map_map fst sqlBuilder.quoteIdent row'). now rewrite Hkeys. }
  now rewrite Hcols, Hlen.
Qed.

Lemma setClausesFrom_keys_only (values values' : Row) :
  forall first,
    map fst values = map fst values' ->
    setClausesFrom first values = setClausesFrom first values'.
Proof.
  revert values'. induction values as [|[k v] rest IH];
    intros [|[k' v'] rest'] first Hkeys; try discriminate; [reflexivity|].
  simpl in Hkeys. injection Hkeys as -> Hrest. simpl. f_equal. now apply IH.
Qed.

Lemma conditions_shape_only (filters filters' : list ParsedFilter) :
  forall paramIndex,
    map filterShape filters = map filterShape filters' ->
    sqlBuilder.conditions filters paramIndex
    = sqlBuilder.conditions filters' paramIndex.
Proof.
  revert filters'. induction filters as [|f rest IH];
    intros [|f' rest'] paramIndex Hshape; try discriminate; [reflexivity|].
  simpl in Hshape. injection Hshape as Hf Hrest. simpl.
  assert (Hcond : sqlBuilder.condition f paramIndex = sqlBuilder.condition f' paramIndex
                  /\ length (sqlBuilder.filterValues f) = length (sqlBuilder.filterValues f')).
  { destruct f as [c op v | c vs], f' as [c' op' v' | c' vs']; simpl in Hf;
      try discriminate; injection Hf as; subst; simpl.
    - split; reflexivity.
    - rewrite !length_map. split; congruence. }
  destruct Hcond as [-> ->]. f_equal. now apply IH.
Qed.

(** The text of an UPDATE is a function of the keys of its values and of
    the shapes of its filters. *)
Lemma updateSql_shape_only (projectId tableName : string) (returning : bool)
  (values values' : Row) (filters filters' : list ParsedFilter) :
  map fst values = map fst values' ->
  map filterShape filters = map filterShape filters' ->
  st_sql (updateStatement projectId tableName returning values filters)
  = st_sql (updateStatement projectId tableName returning values' filters').
Proof.
  intros Hkeys Hshape. unfold updateStatement. cbn [st_sql].
  assert (Hlen : length values = length values').
  { rewrite <- (length_map fst values), Hkeys. apply length_map. }
  rewrite (setClausesFrom_keys_only values values' 1 Hkeys), Hlen.
  f_equal. unfold sqlBuilder.buildWhereClause.
  destruct filters as [|f rest], filters' as [|f' rest']; try discriminate;
    [reflexivity|].
  cbn [fst]. now rewrite (conditions_shape_only _ _ _ Hshape).
Qed.

Lemma placeholdersFrom_lookup (count : nat) :
  forall first i,
    (i < count)%nat ->
    sqlBuilder.placeholdersFrom first count !! i
    = Some (sqlBuilder.placeholder (first + i)).
Proof.
  induction count as [|n IH]; intros first i Hi; [lia|].
  destruct i as [|i]; simpl.
  - now rewrite Nat.add_0_r.
  - rewrite IH by lia. do 2 f_equal. lia.
Qed.

Lemma whereClause_values (filters : list ParsedFilter) (startIndex : nat) :
  snd (sqlBuilder.buildWhereClause filters startIndex)
  = concat (map sqlBuilder.filterValues filters).
Proof.
  destruct filters; reflexivity.
Qed.

(** The loop over the entries of valid update values keeps every key and
    value and numbers the placeholders on from the counter. *)
Lemma updateEntries_valid (allowed : list string) (entries : Row) :
  forall acc : crudService.UpdateParts,
    rowValid allowed entries = true ->
    crudService.updateEntries allowed entries acc
    = Ok {| crudService.setClauses :=
              (crudService.setClauses acc
               ++ setClausesFrom (crudService.nextParam acc) entries)%list;
            crudService.updateValues :=
              (crudService.updateValues acc ++ map snd entries)%list;
            crudService.nextParam :=
              (crudService.nextParam acc + length entries)%nat |}.
Proof.
  induction entries as [|[col val] rest IH]; intros acc Hvalid.
  - simpl. rewrite !app_nil_r, Nat.add_0_r. now destruct acc.
  - simpl in Hvalid. apply andb_true_iff in Hvalid as [Hcol Hrest].
    simpl. rewrite Hcol. simpl. rewrite IH by exact Hrest. simpl.
    rewrite <- !app_assoc. simpl. do 2 f_equal. lia.
Qed.

Lemma updateEntries_invalid (allowed : list string) (entries : Row) :
  forall (acc : crudService.UpdateParts) (k : string),
    unknownKey allowed entries = Some k ->
    crudService.updateEntries allowed entries acc
    = Throw (BadRequestError ("Invalid column: " +:+ k)).
Proof.
  unfold unknownKey.
  induction entries as [|[col val] rest IH]; intros acc k; simpl.
  - discriminate.
  - destruct (Js.arrayIncludes allowed col); simpl.
    + apply IH.
    + intros [= <-]. reflexivity.
Qed.

Lemma validateFilters_throws (allowed : list string) (filters : list ParsedFilter)
  (e : Error) :
  crudService.validateFilters allowed filters = Throw e ->
  exists msg, e = BadRequestError msg.
Proof.
  unfold crudService.validateFilters.
  destruct (crudService.badFilter allowed filters); [|discriminate].
  intros [= <-]. eauto.
Qed.

(** An update sends nothing and ends in a BadRequest, or sends the one
    UPDATE of its values under its filters. *)
Lemma update_issues {Db : Type} `{Database Db} (projectId tableName : string)
  (values : Row) (filters : list ParsedFilter) (returning : bool)
  (w w0 w1 : World Db) (tableInfo : TableInfo) (r : Result (list Row)) :
  crudService.requireTable projectId tableName w = (Ok tableInfo, w0) ->
  crudService.update projectId tableName values filters returning w = (r, w1) ->
  (issued w1 = issued w0 /\ exists msg, r = Throw (BadRequestError msg)) \/
  issued w1
  = (issued w0 ++ [updateStatement projectId tableName returning values filters])%list.
Proof.
  intros Htable. unfold crudService.update.
  rewrite (bind_ok _ _ _ _ _ Htable).
  step_pure;
    [|intros [= <- <-]; left; split; [reflexivity|];
      destruct (validateFilters_throws _ _ _ E) as [msg ->]; eauto].
  unfold crudService.updateParts.
  destruct (unknownKey (crudService.columnNames tableInfo) values) as [k|] eqn:Hk.
  - rewrite (bind_liftResult_throw _ _ _ _ (updateEntries_invalid _ _ _ _ Hk)).
    intros [= <- <-]. left. eauto.
  - apply rowValid_unknownKey in Hk.
    rewrite (bind_liftResult_ok _ _ _ _ (updateEntries_valid _ _ _ Hk)).
    cbn [crudService.setClauses crudService.updateValues crudService.nextParam
         app Nat.add].
    unfold updateStatement.
    destruct (sqlBuilder.buildWhereClause filters (S (length values)))
      as [whereClause whereValues].
    unfold bind, crudService.queryAsApp, crudService.query, ret. cbn [fst snd].
    destruct (execute _ (db w0)) as [[result|e] d]; intros [= <- <-]; right;
      reflexivity.
Qed.

(** C1, as the code has it.  The statements that [insert] and [update]
    send are [insertStatement] and [updateStatement].  Their parameters are
    the values of the payload, then of the filters, in order, and the
    placeholder in position [i] is the one numbered [i + 1].  Their text is
    a function of the table, of the keys and of the shapes of the filters
    alone: two requests that differ in their values only have the same text.
    So a value is found in the text only by coincidence with the fixed text;
    with table and column names free of quote, semicolon, dash and dollar
    sign, no value that contains a quote, a semicolon, two dashes or two
    dollar signs is part of the text. *)
Theorem values_only_as_parameters {Db : Type} `{Database Db}
  (projectId tableName : string) (returning : bool) :
  (forall (rowsToInsert : list Row) (w w0 w1 : World Db) (tableInfo : TableInfo)
          (r : Result (list Row)),
     crudService.requireTable projectId tableName w = (Ok tableInfo, w0) ->
     crudService.insert projectId tableName rowsToInsert returning w = (r, w1) ->
     exists sent,
       issued w1
       = (issued w0 ++ map (insertStatement projectId tableName returning) sent)%list /\
       forall row, List.In row sent -> List.In row rowsToInsert) /\
  (forall (values : Row) (filters : list ParsedFilter) (w w0 w1 : World Db)
          (tableInfo : TableInfo) (r : Result (list Row)),
     crudService.requireTable projectId tableName w = (Ok tableInfo, w0) ->
     crudService.update projectId tableName values filters returning w = (r, w1) ->
     issued w1 = issued w0 \/
     issued w1
     = (issued w0 ++ [updateStatement projectId tableName returning values filters])%list) /\
  (forall (row : Row),
     st_params (insertStatement projectId tableName returning row) = map snd row /\
     forall i, (i < length row)%nat ->
       crudService.ins_placeholders (wholeRowParts row) !! i
       = Some (sqlBuilder.placeholder (S i))) /\
  (forall (values : Row) (filters : list ParsedFilter),
     st_params (updateStatement projectId tableName returning values filters)
     = (map snd values ++ concat (map sqlBuilder.filterValues filters))%list) /\
  (forall row row' : Row,
     map fst row = map fst row' ->
     st_sql (insertStatement projectId tableName returning row)
     = st_sql (insertStatement projectId tableName returning row')) /\
  (forall (values values' : Row) (filters filters' : list ParsedFilter),
     map fst values = map fst values' ->
     map filterShape filters = map filterShape filters' ->
     st_sql (updateStatement projectId tableName returning values filters)
     = st_sql (updateStatement projectId tableName returning values' filters')) /\
  (forall (row : Row) (v : string),
     plainName tableName = true ->
     Forall (fun k => plainName k = true) (map fst row) ->
     hasMetacharacter v = true ->
     Js.includes v (st_sql (insertStatement projectId tableName returning row))
     = false) /\
  (forall (values : Row) (filters : list ParsedFilter) (v : string),
     plainName tableName = true ->
     Forall (fun k => plainName k = true) (map fst values) ->
     Forall (fun f => plainName (filterColumn f) = true) filters ->
     hasMetacharacter v = true ->
     Js.includes v (st_sql (updateStatement projectId tableName returning values filters))
     = false).
Proof.
  repeat apply conj.
  - intros rowsToInsert w w0 w1 tableInfo r Htable Hrun.
    unfold crudService.insert in Hrun. rewrite (bind_ok _ _ _ _ _ Htable) in Hrun.
    destruct (insertRows_issued _ _ _ _ _ _ _ _ _ Hrun) as [n [_ [Hissued _]]].
    exists (firstn n (validPrefix (crudService.columnNames tableInfo) rowsToInsert)).
    split; [exact Hissued|].
    intros row Hrow. apply list_elem_of_In, subseteq_take, list_elem_of_In in Hrow.
    clear - Hrow. induction rowsToInsert as [|first rest IH]; [destruct Hrow|].
    simpl in Hrow. destruct (rowValid _ first); [|destruct Hrow].
    destruct Hrow as [-> | Hrow]; [now left | right; now apply IH].
  - intros values filters w w0 w1 tableInfo r Htable Hrun.
    destruct (update_issues _ _ _ _ _ _ _ _ _ _ Htable Hrun) as [[Hsame _] | Hsent];
      [now left | now right].
  - intros row. split; [reflexivity|].
    intros i Hi. unfold wholeRowParts. cbn [crudService.ins_placeholders].
    now rewrite placeholdersFrom_lookup.
  - intros values filters. unfold updateStatement. cbn [st_params].
    now rewrite whereClause_values.
  - apply insertSql_keys_only.
  - apply updateSql_shape_only.
  - intros row v Htable Hkeys Hmeta.
    apply clean_excludes_metacharacters; [|exact Hmeta].
    now apply clean_insertSql.
  - intros values filters v Htable Hkeys Hcols Hmeta.
    apply clean_excludes_metacharacters; [|exact Hmeta].
    now apply clean_updateSql.
Qed.

Lemma values_only_as_parameters_witness :
  let attack := "x'; DROP TABLE users; --" in
  hasMetacharacter attack = true /\
  Js.includes attack
    (st_sql (insertStatement "p1" "users" true [("name", VStr attack)])) = false /\
  Js.includes attack
    (st_sql (updateStatement "p1" "users" true [("name", VStr attack)]
               [Cmp "id" eq attack; In "email" [attack; "$$"]])) = false.
Proof.
  intros attack.
  pose proof (values_only_as_parameters (Db := Demo.Store) "p1" "users" true)
    as [_ [_ [_ [_ [_ [_ [Hinsert Hupdate]]]]]]].
  split; [reflexivity|]. split.
  - apply Hinsert; [reflexivity | repeat constructor | reflexivity].
  - apply Hupdate; [reflexivity | repeat constructor | repeat constructor | reflexivity].
Defined.

(** The claim C1 as stated fails: the value "1" is sent as the parameter of
    the placeholder [$1], and the text of the statement, which names that
    placeholder, has the value as a part.  A value with a metacharacter can
    be part of the text as well, when a column of the catalog has that
    character in its name: the name goes into the text, quoted. *)
Lemma value_in_text_counterexample :
  let w := Demo.world Demo.usersCatalog ∅ 0 in
  let st := insertStatement "p1" "users" false [("name", VStr "1")] in
  let w' := Demo.world [Demo.catalogRow "notes" "a;b" "text"] ∅ 0 in
  let st' := insertStatement "p1" "notes" false [("a;b", VStr ";")] in
  (last (issued (snd (crudService.insert "p1" "users" [ [("name", VStr "1")] ] false w)))
   = Some st /\
   st_params st = [VStr "1"] /\
   Js.includes "$1" (st_sql st) = true /\
   Js.includes "1" (st_sql st) = true) /\
  (last (issued (snd (crudService.insert "p1" "notes" [ [("a;b", VStr ";")] ] false w')))
   = Some st' /\
   st_params st' = [VStr ";"] /\
   hasMetacharacter ";" = true /\
   Js.includes ";" (st_sql st') = true).
Proof.
  vm_compute. repeat split.
Qed.

(** * Further properties of the engine *)

(** ** The schema cache: time to live *)

(** X1. After a call of [getTables] that found no entry and fetched the
    schema, a call within 60000 ms of that fetch answers with the same
    tables and sends nothing; a call 60000 ms or more after it sends the
    catalog query again. *)
Theorem getTables_time_to_live {Db : Type} `{Database Db}
  (projectId : string) (w w1 : World Db) (tables : list TableInfo) :
  tableInfoCache w !! projectId = None ->
  crudService.getTables projectId w = (Ok tables, w1) ->
  forall now : Z,
    (now - clock w < 60000 ->
     crudService.getTables projectId (atTime now w1) = (Ok tables, atTime now w1)) /\
    (60000 <= now - clock w ->
     crudService.getTables projectId (atTime now w1)
     = crudService.fetchTables projectId (atTime now w1)).
Proof.
  intros Hmiss Hrun now. rewrite getTables_uncached in Hrun by exact Hmiss.
  unfold crudService.fetchTables, crudService.queryAsApp, crudService.query,
    crudService.dateNow, crudService.cacheSet, crudService.withCache, bind, ret
    in Hrun.
  destruct (execute _ (db w)) as [[res|e] d]; [|discriminate].
  cbn in Hrun. injection Hrun as <- <-.
  unfold crudService.getTables, crudService.cacheGet, crudService.dateNow, bind, ret.
  cbn [tableInfoCache atTime clock]. rewrite lookup_insert_eq.
  cbn [ce_timestamp ce_tables]. unfold crudService.CACHE_TTL_MS.
  change (clock (atTime now _)) with now.
  split; intros Hage.
  - destruct (Z.ltb_spec (now - clock w) 60000) as [_ | Hge]; [reflexivity | lia].
  - destruct (Z.ltb_spec (now - clock w) 60000) as [Hlt | _]; [lia | reflexivity].
Qed.

Lemma getTables_time_to_live_witness :
  let w := Demo.world Demo.usersCatalog ∅ 1000 in
  let run := crudService.getTables "p1" w in
  crudService.getTables "p1" (atTime 60999 (snd run))
  = (Ok [Demo.usersTable], atTime 60999 (snd run)) /\
  crudService.getTables "p1" (atTime 61000 (snd run))
  = crudService.fetchTables "p1" (atTime 61000 (snd run)).
Proof.
  intros w run.
  assert (Hrun : crudService.getTables "p1" w = (Ok [Demo.usersTable], snd run))
    by (vm_compute; reflexivity).
  split.
  - apply (getTables_time_to_live "p1" w (snd run) [Demo.usersTable] eq_refl Hrun 60999).
    reflexivity.
  - apply (getTables_time_to_live "p1" w (snd run) [Demo.usersTable] eq_refl Hrun 61000).
    discriminate.
Defined.

(** ** What the operations send, and under which role *)

Section Traces.

Context {Db : Type} `{Database Db}.

Lemma traced_silent {A : Type} (P : Statement -> Prop) (m : M Db A) :
  (forall w, issued (snd (m w)) = issued w) -> traced P m.
Proof.
  intros Hsilent w w1 r Hrun. exists []. rewrite app_nil_r.
  specialize (Hsilent w). rewrite Hrun in Hsilent. split; [exact Hsilent|constructor].
Qed.

Lemma traced_ret {A : Type} (P : Statement -> Prop) (a : A) : traced (Db := Db) P (ret a).
Proof. now apply traced_silent. Qed.

Lemma traced_throw {A : Type} (P : Statement -> Prop) (e : Error) :
  traced (Db := Db) (A := A) P (throw e).
Proof. now apply traced_silent. Qed.

Lemma traced_liftResult {A : Type} (P : Statement -> Prop) (r : Result A) :
  traced (Db := Db) P (liftResult r).
Proof. now apply traced_silent. Qed.

Lemma traced_bind {A B : Type} (P : Statement -> Prop) (m : M Db A)
  (k : A -> M Db B) :
  traced P m -> (forall a, traced P (k a)) -> traced P (bind m k).
Proof.
  intros Hm Hk w w1 r. unfold bind.
  destruct (m w) as [[a|e] w0] eqn:Hrun; intros Hrest.
  - destruct (Hm _ _ _ Hrun) as [new1 [Hissued1 Hnew1]].
    destruct (Hk a _ _ _ Hrest) as [new2 [Hissued2 Hnew2]].
    exists (new1 ++ new2)%list. rewrite Hissued2, Hissued1, app_assoc.
    split; [reflexivity | now apply Forall_app].
  - injection Hrest as <- <-. eapply Hm. exact Hrun.
Qed.

Lemma traced_query (P : Statement -> Prop) (role : Role) (projectId sql : string)
  (values : list value) :
  P {| st_role := role; st_project := projectId; st_sql := sql; st_params := values |} ->
  traced P (crudService.query role projectId sql values).
Proof.
  intros HP w w1 r. unfold crudService.query.
  destruct (execute _ (db w)) as [r0 d]. intros [= <- <-].
  eexists. split; [reflexivity|]. now constructor.
Qed.

Lemma traced_clearCache (P : Statement -> Prop) (projectId : option string) :
  traced (Db := Db) P (crudService.clearCache projectId).
Proof.
  apply traced_silent. intros w. unfold crudService.clearCache.
  destruct projectId as [p|]; [destruct (String.eqb p EmptyString)|]; reflexivity.
Qed.

End Traces.

(** Walks through an operation, one step of the monad at a time. *)
Ltac trace_steps :=
  repeat first
    [ apply traced_ret
    | apply traced_throw
    | apply traced_liftResult
    | apply traced_clearCache
    | apply traced_silent; reflexivity
    | apply traced_query; repeat split; reflexivity
    | apply traced_bind; [|intros ?]
    | match goal with
      | |- traced _ (match ?x with _ => _ end) => destruct x
      end ].

Section CrudTraces.

Context {Db : Type} `{Database Db}.
Variable config : QueryConfig.

Lemma getTables_traced (projectId : string) :
  traced (appStatement projectId) (crudService.getTables projectId).
Proof.
  unfold crudService.getTables, crudService.fetchTables, crudService.queryAsApp.
  trace_steps.
Qed.

Lemma requireTable_traced (projectId tableName : string) :
  traced (appStatement projectId) (crudService.requireTable projectId tableName).
Proof.
  unfold crudService.requireTable.
  apply traced_bind; [apply getTables_traced|intros tables]. trace_steps.
Qed.

Lemma insertRows_traced (projectId tableName : string) (allowed : list string)
  (returning : bool) (rowsToInsert : list Row) :
  forall results,
    traced (appStatement projectId)
      (crudService.insertRows projectId tableName allowed returning rowsToInsert results).
Proof.
  induction rowsToInsert as [|row rest IH]; intros results; simpl.
  - apply traced_ret.
  - unfold crudService.queryAsApp.
    apply traced_bind; [apply traced_liftResult|intros parts].
    apply traced_bind; [apply traced_query; split; reflexivity|intros result].
    apply IH.
Qed.

End CrudTraces.

(** X2. The CRUD operations and [getTables] reach the database only through
    the restricted role and only for the project of the request: every
    statement they send, whatever the outcome, is an app-role statement of
    that project. *)
Theorem crud_uses_app_role_only {Db : Type} `{Database Db} (config : QueryConfig)
  (projectId tableName : string) :
  traced (appStatement projectId) (crudService.getTables projectId) /\
  (forall options,
     traced (appStatement projectId)
       (crudService.select config projectId tableName options)) /\
  (forall rowsToInsert returning,
     traced (appStatement projectId)
       (crudService.insert projectId tableName rowsToInsert returning)) /\
  (forall values filters returning,
     traced (appStatement projectId)
       (crudService.update projectId tableName values filters returning)) /\
  (forall filters,
     traced (appStatement projectId)
       (crudService.delete projectId tableName filters)).
Proof.
  repeat apply conj.
  - apply getTables_traced.
  - intros options. unfold crudService.select, crudService.queryAsApp.
    apply traced_bind; [apply requireTable_traced|intros tableInfo]. trace_steps.
  - intros rowsToInsert returning. unfold crudService.insert.
    apply traced_bind; [apply requireTable_traced|intros tableInfo].
    apply insertRows_traced.
  - intros values filters returning. unfold crudService.update, crudService.queryAsApp.
    apply traced_bind; [apply requireTable_traced|intros tableInfo]. trace_steps.
  - intros filters. unfold crudService.delete, crudService.queryAsApp.
    apply traced_bind; [apply requireTable_traced|intros tableInfo]. trace_steps.
Qed.

Lemma crud_uses_app_role_only_witness :
  let w := Demo.world Demo.usersCatalog ∅ 0 in
  let run := crudService.insert "p1" "users"
               [ [("name", VStr "A")]; [("email", VStr "a@x.com")] ] true w in
  exists new,
    issued (snd run) = (issued w ++ new)%list /\ Forall (appStatement "p1") new.
Proof.
  intros w run.
  apply (proj1 (proj2 (proj2 (crud_uses_app_role_only defaultConfig "p1" "users")))
           [ [("name", VStr "A")]; [("email", VStr "a@x.com")] ] true w (snd run)
           (fst run)).
  apply surjective_pairing.
Defined.

(** ** The DDL operations: one statement, validated first *)

Lemma createTableColumns_throws (cols : list ColumnDefinition) :
  forall (acc : crudService.TableParts) (e : Error),
    crudService.createTableColumns acc cols = Throw e ->
    exists msg, e = BadRequestError msg.
Proof.
  induction cols as [|col rest IH]; intros acc e; simpl; [discriminate|].
  unfold bindR. destruct (crudService.createTableColumn acc col) as [acc'|e'] eqn:Hcol.
  - apply IH.
  - intros [= <-]. eapply createTableColumn_throws. exact Hcol.
Qed.

Lemma columnDef_ok (col : ColumnDefinition) (allowedList : bool) (def : string) :
  crudService.columnDef col allowedList = Ok def -> columnChecked col.
Proof.
  unfold crudService.columnDef, columnChecked.
  destruct (Js.arrayIncludes crudService.ALLOWED_DATA_TYPES _); [|discriminate].
  cbn [negb]. intros Hdef. split; [reflexivity|]. intros d Hd. rewrite Hd in Hdef.
  destruct (crudService.defaultValueAllowed d); [reflexivity|discriminate].
Qed.

Lemma createTableColumn_ok (acc acc' : crudService.TableParts) (col : ColumnDefinition) :
  crudService.createTableColumn acc col = Ok acc' ->
  Forall (fun entry => crudService.validateIdentifier (fst entry) (snd entry) = Ok tt)
    (columnIdentifiers col) /\
  columnChecked col.
Proof.
  unfold crudService.createTableColumn, bindR, columnIdentifiers.
  destruct (crudService.validateIdentifier (cd_name col) crudService.column)
    as [[]|e1] eqn:Hname; [|discriminate].
  destruct (crudService.columnDef col true) as [def|e2] eqn:Hdef; [|discriminate].
  apply columnDef_ok in Hdef.
  destruct (cd_references col) as [[refTable refColumn]|].
  - destruct (crudService.validateIdentifier refTable crudService.table)
      as [[]|e3] eqn:Href; [|discriminate].
    destruct (crudService.validateIdentifier refColumn crudService.column)
      as [[]|e4] eqn:Hcol; [|discriminate].
    intros _. split; [|exact Hdef]. repeat constructor; assumption.
  - intros _. split; [|exact Hdef]. repeat constructor; assumption.
Qed.

Lemma createTableColumns_ok (cols : list ColumnDefinition) :
  forall acc parts : crudService.TableParts,
    crudService.createTableColumns acc cols = Ok parts ->
    Forall (fun entry => crudService.validateIdentifier (fst entry) (snd entry) = Ok tt)
      (concat (map columnIdentifiers cols)) /\
    Forall columnChecked cols.
Proof.
  induction cols as [|col rest IH]; intros acc parts.
  - intros _. split; constructor.
  - cbn [crudService.createTableColumns].
    unfold bindR. destruct (crudService.createTableColumn acc col) as [acc'|e] eqn:Hcol;
      [|discriminate].
    intros Hrest. destruct (createTableColumn_ok _ _ _ Hcol) as [Hids Hchecked].
    destruct (IH _ _ Hrest) as [Hids' Hchecked'].
    change (concat (map columnIdentifiers (col :: rest)))
      with (columnIdentifiers col ++ concat (map columnIdentifiers rest))%list.
    split; [now apply Forall_app_2 | now constructor].
Qed.

Section DdlOutcome.

Context {Db : Type} `{Database Db}.

(** The end of a DDL operation, in full: the statement goes out as owner;
    if the database accepts it the cache entry goes, otherwise the error
    comes back and the cache stays. *)
Lemma ddl_tail_outcome {A : Type} (projectId sql : string) (a : A)
  (w w1 : World Db) (r : Result A) :
  (run! crudService.queryAsOwner projectId sql [] in
   run! crudService.clearCache (Some projectId) in ret a) w = (r, w1) ->
  let st := {| st_role := Owner; st_project := projectId; st_sql := sql;
               st_params := [] |} in
  issued w1 = (issued w ++ [st])%list /\
  db w1 = snd (execute st (db w)) /\
  match fst (execute st (db w)) with
  | Ok _ =>
      r = Ok a /\
      tableInfoCache w1
      = (if String.eqb projectId EmptyString then ∅
         else base.delete projectId (tableInfoCache w))
  | Throw e => r = Throw e /\ tableInfoCache w1 = tableInfoCache w
  end.
Proof.
  unfold bind, crudService.queryAsOwner, crudService.query,
    crudService.clearCache, ret.
  destruct (execute _ (db w)) as [[res|e] d]; cbn [fst snd].
  - destruct (String.eqb projectId EmptyString); intros [= <- <-]; repeat split.
  - intros [= <- <-]. repeat split.
Qed.

(** A DDL operation either stops at a validation with a BadRequest and the
    world as it was, or sends exactly one statement as owner. *)
Lemma runDdl_outcome (projectId : string) (op : DdlOperation)
  (w w1 : World Db) (r : Result unit) :
  runDdl projectId op w = (r, w1) ->
  (w1 = w /\ exists msg, r = Throw (BadRequestError msg)) \/
  (Forall (fun entry => crudService.validateIdentifier (fst entry) (snd entry) = Ok tt)
     (ddlIdentifiers op) /\
   Forall columnChecked (ddlColumns op) /\
   exists sql,
     let st := {| st_role := Owner; st_project := projectId; st_sql := sql;
                  st_params := [] |} in
     issued w1 = (issued w ++ [st])%list /\
     db w1 = snd (execute st (db w)) /\
     match fst (execute st (db w)) with
     | Ok _ =>
         r = Ok tt /\
         tableInfoCache w1
         = (if String.eqb projectId EmptyString then ∅
            else base.delete projectId (tableInfoCache w))
     | Throw e => r = Throw e /\ tableInfoCache w1 = tableInfoCache w
     end).
Proof.
  assert (Hbad : forall name kind e,
             crudService.validateIdentifier name kind = Throw e ->
             forall w0 : World Db,
               (Throw e, w0) = (r, w1) ->
               (w1 = w0 /\ exists msg, r = Throw (BadRequestError msg))).
  { intros name kind e He w0 [= <- <-]. split; [reflexivity|].
    destruct (validateIdentifier_throws _ _ _ He) as [msg ->]. eauto. }
  destruct op; unfold runDdl;
    unfold crudService.createTable, crudService.dropTable,
      crudService.addColumn, crudService.dropColumn,
      crudService.renameTable, crudService.renameColumn;
    unfold bind at 1.
  all: repeat (step_pure; [|intros Hstop; left; eapply Hbad; eassumption]).
  all: repeat match goal with
              | u : unit |- _ => destruct u
              end.
  - (* createTable *)
    destruct (Nat.eqb _ 0); [intros [= <- <-]; left; eauto|].
    destruct (Nat.ltb 100 _); [intros [= <- <-]; left; eauto|].
    step_pure.
    2:{ intros [= <- <-]. left. split; [reflexivity|].
        destruct (createTableColumns_throws _ _ _ E0) as [msg ->]. eauto. }
    destruct (createTableColumns_ok _ _ _ E0) as [Hids Hchecked].
    match goal with
    | |- context [bind (crudService.queryAsOwner ?p ?s []) ?k ?w] =>
        destruct (bind (crudService.queryAsOwner p s []) k w) as [r0 w2] eqn:Htail
    end.
    apply ddl_tail_outcome in Htail. cbn zeta in Htail.
    destruct Htail as [Hissued [Hdb Hres]].
    intros Hrun. right. split; [now constructor|]. split; [exact Hchecked|].
    eexists. cbn zeta. split; [|split].
    + destruct r0; injection Hrun as <- <-; exact Hissued.
    + destruct r0; injection Hrun as <- <-; exact Hdb.
    + destruct (fst (execute _ (db w))); destruct Hres as [-> Hcache];
        injection Hrun as <- <-; (split; [reflexivity|exact Hcache]).
  - (* dropTable *)
    match goal with
    | |- context [bind (crudService.queryAsOwner ?p ?s []) ?k ?w] =>
        destruct (bind (crudService.queryAsOwner p s []) k w) as [r0 w2] eqn:Htail
    end.
    apply ddl_tail_outcome in Htail. cbn zeta in Htail.
    destruct Htail as [Hissued [Hdb Hres]].
    intros Hrun. right. split; [repeat constructor; assumption|].
    split; [constructor|].
    eexists. cbn zeta. split; [|split].
    + destruct r0; injection Hrun as <- <-; exact Hissued.
    + destruct r0; injection Hrun as <- <-; exact Hdb.
    + destruct (fst (execute _ (db w))); destruct Hres as [-> Hcache];
        injection Hrun as <- <-; (split; [reflexivity|exact Hcache]).
  - (* addColumn *)
    step_pure.
    2:{ intros [= <- <-]. left. split; [reflexivity|].
        destruct (columnDef_throws _ _ _ E1) as [msg ->]. eauto. }
    apply columnDef_ok in E1.
    match goal with
    | |- context [bind (crudService.queryAsOwner ?p ?s []) ?k ?w] =>
        destruct (bind (crudService.queryAsOwner p s []) k w) as [r0 w2] eqn:Htail
    end.
    apply ddl_tail_outcome in Htail. cbn zeta in Htail.
    destruct Htail as [Hissued [Hdb Hres]].
    intros Hrun. right. split; [repeat constructor; assumption|].
    split; [constructor; [exact E1|constructor]|].
    eexists. cbn zeta. split; [|split].
    + destruct r0; injection Hrun as <- <-; exact Hissued.
    + destruct r0; injection Hrun as <- <-; exact Hdb.
    + destruct (fst (execute _ (db w))); destruct Hres as [-> Hcache];
        injection Hrun as <- <-; (split; [reflexivity|exact Hcache]).
  - (* dropColumn *)
    match goal with
    | |- context [bind (crudService.queryAsOwner ?p ?s []) ?k ?w] =>
        destruct (bind (crudService.queryAsOwner p s []) k w) as [r0 w2] eqn:Htail
    end.
    apply ddl_tail_outcome in Htail. cbn zeta in Htail.
    destruct Htail as [Hissued [Hdb Hres]].
    intros Hrun. right. split; [repeat constructor; assumption|].
    split; [constructor|].
    eexists. cbn zeta. split; [|split].
    + destruct r0; injection Hrun as <- <-; exact Hissued.
    + destruct r0; injection Hrun as <- <-; exact Hdb.
    + destruct (fst (execute _ (db w))); destruct Hres as [-> Hcache];
        injection Hrun as <- <-; (split; [reflexivity|exact Hcache]).
  - (* renameTable *)
    match goal with
    | |- context [bind (crudService.queryAsOwner ?p ?s []) ?k ?w] =>
        destruct (bind (crudService.queryAsOwner p s []) k w) as [r0 w2] eqn:Htail
    end.
    apply ddl_tail_outcome in Htail. cbn zeta in Htail.
    destruct Htail as [Hissued [Hdb Hres]].
    intros Hrun. right. split; [repeat constructor; assumption|].
    split; [constructor|].
    eexists. cbn zeta. split; [|split].
    + destruct r0; injection Hrun as <- <-; exact Hissued.
    + destruct r0; injection Hrun as <- <-; exact Hdb.
    + destruct (fst (execute _ (db w))); destruct Hres as [-> Hcache];
        injection Hrun as <- <-; (split; [reflexivity|exact Hcache]).
  - (* renameColumn *)
    match goal with
    | |- context [bind (crudService.queryAsOwner ?p ?s []) ?k ?w] =>
        destruct (bind (crudService.queryAsOwner p s []) k w) as [r0 w2] eqn:Htail
    end.
    apply ddl_tail_outcome in Htail. cbn zeta in Htail.
    destruct Htail as [Hissued [Hdb Hres]].
    intros Hrun. right. split; [repeat constructor; assumption|].
    split; [constructor|].
    eexists. cbn zeta. split; [|split].
    + destruct r0; injection Hrun as <- <-; exact Hissued.
    + destruct r0; injection Hrun as <- <-; exact Hdb.
    + destruct (fst (execute _ (db w))); destruct Hres as [-> Hcache];
        injection Hrun as <- <-; (split; [reflexivity|exact Hcache]).
Qed.

End DdlOutcome.

(** X3. A DDL operation sends at most one statement, as owner of its
    project and without parameters.  When it succeeds it has sent exactly
    one; when it fails, at a validation or at the database, the schema cache
    is as it was before. *)
Theorem ddl_sends_one_owner_statement {Db : Type} `{Database Db}
  (projectId : string) (op : DdlOperation) (w w1 : World Db) (r : Result unit) :
  runDdl projectId op w = (r, w1) ->
  (r = Ok tt ->
   exists st, issued w1 = (issued w ++ [st])%list /\ ownerStatement projectId st) /\
  (forall e, r = Throw e ->
     tableInfoCache w1 = tableInfoCache w /\
     (issued w1 = issued w \/
      exists st, issued w1 = (issued w ++ [st])%list /\ ownerStatement projectId st)).
Proof.
  intros Hrun.
  destruct (runDdl_outcome _ _ _ _ _ Hrun)
    as [[-> [msg ->]] | [_ [_ [sql [Hissued [_ Hres]]]]]].
  - split; [discriminate|]. intros e _. split; [reflexivity | now left].
  - cbn zeta in *. split.
    + intros _. eexists. split; [exact Hissued | repeat split].
    + intros e ->. destruct (fst (execute _ (db w))); destruct Hres as [Hr Hcache];
        [discriminate Hr|].
      split; [exact Hcache|]. right. eexists. split; [exact Hissued | repeat split].
Qed.

Lemma ddl_sends_one_owner_statement_witness :
  let w := Demo.world Demo.usersCatalog Demo.warmCache 10 in
  let run := runDdl "p1" (DropTable "users" false true) w in
  exists st, issued (snd run) = (issued w ++ [st])%list /\ ownerStatement "p1" st.
Proof.
  intros w run.
  apply (proj1 (ddl_sends_one_owner_statement "p1" (DropTable "users" false true)
                  w (snd run) (fst run) (surjective_pairing run))).
  reflexivity.
Defined.

(** X4. A DDL operation for a project with a non-empty id leaves the cache
    entries of every other project as they were; for the empty id, which
    [clearCache] takes for no id, a success empties the whole cache. *)
Theorem ddl_cache_isolation {Db : Type} `{Database Db}
  (projectId : string) (op : DdlOperation) (w w1 : World Db) (r : Result unit) :
  runDdl projectId op w = (r, w1) ->
  (projectId <> EmptyString ->
   forall other, other <> projectId ->
     tableInfoCache w1 !! other = tableInfoCache w !! other) /\
  (projectId = EmptyString -> r = Ok tt -> tableInfoCache w1 = ∅).
Proof.
  intros Hrun.
  destruct (runDdl_outcome _ _ _ _ _ Hrun)
    as [[-> [msg ->]] | [_ [_ [sql [_ [_ Hres]]]]]].
  - split; [reflexivity | discriminate].
  - cbn zeta in Hres.
    destruct (fst (execute _ (db w))); destruct Hres as [-> Hcache].
    + split.
      * intros Hne other Hother. rewrite Hcache.
        destruct (String.eqb_spec projectId EmptyString) as [|_]; [contradiction|].
        now apply lookup_delete_ne.
      * intros -> _. exact Hcache.
    + split; [|discriminate]. intros _ other _. now rewrite Hcache.
Qed.

Lemma ddl_cache_isolation_witness :
  let w := Demo.world Demo.usersCatalog Demo.warmCache 10 in
  let run := runDdl "p2" (CreateTable "t" [Demo.idColumn] false) w in
  tableInfoCache (snd run) !! "p1" = tableInfoCache w !! "p1".
Proof.
  intros w run.
  apply (proj1 (ddl_cache_isolation "p2" (CreateTable "t" [Demo.idColumn] false)
                  w (snd run) (fst run) (surjective_pairing run)));
    discriminate.
Defined.

Lemma validateIdentifier_ok (name : string) (kind : crudService.IdentifierKind) :
  crudService.validateIdentifier name kind = Ok tt <->
  crudService.identifierRegex name = true /\
  (String.length name <= 63)%nat /\
  (kind = crudService.table ->
   ~ List.In (Js.toLowerCase name) crudService.RESERVED_TABLE_NAMES).
Proof.
  unfold crudService.validateIdentifier.
  destruct (String.eqb_spec name EmptyString) as [-> | Hne].
  { split; [discriminate | intros [Hre _]; discriminate Hre]. }
  destruct (crudService.identifierRegex name); cbn [negb];
    [|split; [discriminate | intros [Hre _]; discriminate Hre]].
  destruct (Nat.ltb_spec 63 (String.length name)) as [Hlong | Hshort].
  { split; [discriminate | intros [_ [Hlen _]]; lia]. }
  destruct kind; cbn [andb].
  - destruct (Js.arrayIncludes crudService.RESERVED_TABLE_NAMES (Js.toLowerCase name))
      eqn:Hres.
    + apply arrayIncludes_In in Hres.
      split; [discriminate | intros [_ [_ Hnot]]; now destruct (Hnot eq_refl)].
    + split; [|reflexivity]. intros _. repeat split; [exact Hshort|].
      intros _ Hin. apply arrayIncludes_In in Hin. congruence.
  - split; [|reflexivity]. intros _. repeat split; [exact Hshort | discriminate].
Qed.

Lemma identifierRegex_chars (name : string) :
  crudService.identifierRegex name = true ->
  Js.all crudService.isIdentPart name = true.
Proof.
  destruct name as [|c r]; [discriminate|]. simpl.
  rewrite !andb_true_iff. intros [Hc Hr]. split; [now apply isIdentStart_part | exact Hr].
Qed.

(** X5. A DDL operation sends its statement only after every identifier of
    the request (table, columns, referenced table and column) has passed
    [validateIdentifier], hence is made of letters, digits and underscores
    and is at most 63 long, and after the type and the default of every
    column definition have passed their tests. *)
Theorem ddl_validates_before_sending {Db : Type} `{Database Db}
  (projectId : string) (op : DdlOperation) (w w1 : World Db) (r : Result unit) :
  runDdl projectId op w = (r, w1) ->
  issued w1 <> issued w ->
  Forall (fun entry =>
            crudService.validateIdentifier (fst entry) (snd entry) = Ok tt /\
            Js.all crudService.isIdentPart (fst entry) = true /\
            (String.length (fst entry) <= 63)%nat)
    (ddlIdentifiers op) /\
  Forall columnChecked (ddlColumns op).
Proof.
  intros Hrun Hsent.
  destruct (runDdl_outcome _ _ _ _ _ Hrun)
    as [[-> _] | [Hids [Hcols _]]]; [contradiction|].
  split; [|exact Hcols].
  eapply Forall_impl; [exact Hids|]. cbn beta. intros [name kind] Hok.
  cbn [fst snd] in *. pose proof (proj1 (validateIdentifier_ok name kind) Hok)
    as [Hre [Hlen _]].
  repeat split; [exact Hok | now apply identifierRegex_chars | exact Hlen].
Qed.

Lemma ddl_validates_before_sending_witness :
  let w := Demo.world Demo.usersCatalog Demo.warmCache 10 in
  let op := RenameColumn "users" "name" "full_name" in
  let run := runDdl "p1" op w in
  Forall (fun entry =>
            crudService.validateIdentifier (fst entry) (snd entry) = Ok tt /\
            Js.all crudService.isIdentPart (fst entry) = true /\
            (String.length (fst entry) <= 63)%nat)
    (ddlIdentifiers op) /\
  Forall columnChecked (ddlColumns op).
Proof.
  intros w op run.
  apply (ddl_validates_before_sending "p1" op w (snd run) (fst run)
           (surjective_pairing run)).
  vm_compute. intros Hsame. apply (f_equal (@length Statement)) in Hsame.
  discriminate Hsame.
Defined.

(** ** The type of a column is checked up to its first parenthesis *)

Lemma baseType_of_parameterised (base suffix : string) :
  List.In base crudService.ALLOWED_DATA_TYPES ->
  crudService.baseType (base +:+ "(" +:+ suffix) = base.
Proof.
  intros Hin. simpl in Hin.
  repeat (destruct Hin as [<- | Hin]; [vm_compute; reflexivity|]).
  destruct Hin.
Qed.

(** X6. The type test of [addColumn] and [createTable] reads a type only up
    to its first opening parenthesis: an allowed type followed by a
    parenthesis and any text at all is accepted, and the whole type, that
    text included, is put into the DDL statement as it is. *)
Theorem column_type_checked_by_prefix {Db : Type} `{Database Db}
  (projectId tableName columnName base suffix : string) (w : World Db) :
  crudService.validateIdentifier tableName crudService.table = Ok tt ->
  crudService.validateIdentifier columnName crudService.column = Ok tt ->
  List.In base crudService.ALLOWED_DATA_TYPES ->
  issued (snd (crudService.addColumn projectId tableName
                 (plainColumn columnName (base +:+ "(" +:+ suffix)) w))
  = (issued w ++
     [ {| st_role := Owner; st_project := projectId;
          st_sql := "ALTER TABLE " +:+ sqlBuilder.quoteIdent tableName +:+
                    " ADD COLUMN " +:+ sqlBuilder.quoteIdent columnName +:+
                    " " +:+ base +:+ "(" +:+ suffix;
          st_params := [] |} ])%list /\
  issued (snd (crudService.createTable projectId tableName
                 [plainColumn columnName (base +:+ "(" +:+ suffix)] false w))
  = (issued w ++
     [ {| st_role := Owner; st_project := projectId;
          st_sql := "CREATE TABLE " +:+ sqlBuilder.quoteIdent tableName +:+
                    " (" +:+ Js.nl +:+ "  " +:+ sqlBuilder.quoteIdent columnName +:+
                    " " +:+ base +:+ "(" +:+ suffix +:+ Js.nl +:+ ")";
          st_params := [] |} ])%list.
Proof.
  intros Htable Hcolumn Hbase.
  assert (Hdef : forall allowedList,
             crudService.columnDef (plainColumn columnName (base +:+ "(" +:+ suffix))
               allowedList
             = Ok (sqlBuilder.quoteIdent columnName +:+ " " +:+ base +:+ "(" +:+ suffix)).
  { intros allowedList. unfold crudService.columnDef, plainColumn.
    cbn [cd_type cd_name cd_nullable cd_defaultValue].
    rewrite (baseType_of_parameterised base suffix Hbase).
    apply arrayIncludes_In in Hbase. rewrite Hbase. reflexivity. }
  split.
  - unfold crudService.addColumn.
    rewrite (bind_liftResult_ok _ _ _ _ Htable).
    change (cd_name (plainColumn columnName (base +:+ "(" +:+ suffix))) with columnName.
    rewrite (bind_liftResult_ok _ _ _ _ Hcolumn).
    rewrite (bind_liftResult_ok _ _ _ _ (Hdef false)).
    unfold bind, crudService.queryAsOwner, crudService.query, crudService.clearCache,
      crudService.addColumnSql, ret.
    cbn [cd_unique plainColumn crudService.isTrue].
    destruct (execute _ (db w)) as [[res|e] d];
      [destruct (String.eqb projectId EmptyString)|]; reflexivity.
  - unfold crudService.createTable.
    rewrite (bind_liftResult_ok _ _ _ _ Htable).
    cbn [length Nat.eqb Nat.ltb Nat.leb].
    assert (Hparts :
      crudService.createTableColumns crudService.noParts
        [plainColumn columnName (base +:+ "(" +:+ suffix)]
      = Ok {| crudService.columnDefs :=
                [sqlBuilder.quoteIdent columnName +:+ " " +:+ base +:+ "(" +:+ suffix];
              crudService.primaryKeys := []; crudService.uniqueConstraints := [];
              crudService.foreignKeys := [] |}).
    { cbn [crudService.createTableColumns]. unfold crudService.createTableColumn.
      change (cd_name (plainColumn columnName (base +:+ "(" +:+ suffix))) with columnName.
      rewrite Hcolumn, (Hdef true). reflexivity. }
    rewrite (bind_liftResult_ok _ _ _ _ Hparts).
    unfold bind, crudService.queryAsOwner, crudService.query, crudService.clearCache,
      crudService.createTableSql, ret.
    cbn [crudService.columnDefs crudService.primaryKeys crudService.uniqueConstraints
         crudService.foreignKeys length Nat.ltb Nat.leb app Js.join].
    destruct (execute _ (db w)) as [[res|e] d];
      [destruct (String.eqb projectId EmptyString)|]; cbn [snd issued crudService.withCache];
      rewrite ?string_app_assoc; reflexivity.
Qed.

Lemma column_type_checked_by_prefix_witness :
  let w := Demo.world Demo.usersCatalog ∅ 0 in
  issued (snd (crudService.addColumn "p1" "users"
                 (plainColumn "age" ("varchar" +:+ "(" +:+ "1); DROP TABLE users; --")) w))
  = [ {| st_role := Owner; st_project := "p1";
         st_sql := "ALTER TABLE " +:+ sqlBuilder.quoteIdent "users" +:+
                   " ADD COLUMN " +:+ sqlBuilder.quoteIdent "age" +:+
                   " " +:+ "varchar" +:+ "(" +:+ "1); DROP TABLE users; --";
         st_params := [] |} ].
Proof.
  intros w.
  apply (proj1 (column_type_checked_by_prefix "p1" "users" "age" "varchar"
                  "1); DROP TABLE users; --" w eq_refl eq_refl
                  ltac:(simpl; tauto))).
Defined.

(** ** The grouping of the catalog rows *)

Lemma findTable_pushColumn (tablesMap : list TableInfo) (n name : string)
  (c : ColumnInfo) :
  crudService.findTable (crudService.pushColumn tablesMap n c) name
  = if String.eqb n name
    then Some {| tableName := name;
                 columns := (match crudService.findTable tablesMap name with
                             | Some t => columns t
                             | None => []
                             end ++ [c])%list |}
    else crudService.findTable tablesMap name.
Proof.
  unfold crudService.findTable.
  induction tablesMap as [|t rest IH]; cbn [crudService.pushColumn find].
  - cbn [tableName]. destruct (String.eqb_spec n name) as [->|]; reflexivity.
  - destruct (String.eqb_spec (tableName t) n) as [Htn|Htn]; cbn [find tableName].
    + subst n. destruct (String.eqb_spec (tableName t) name) as [->|]; reflexivity.
    + destruct (String.eqb_spec (tableName t) name) as [Hname|Hname].
      * destruct (String.eqb_spec n name) as [Hn|]; [congruence|reflexivity].
      * apply IH.
Qed.

Lemma pushColumn_names (tablesMap : list TableInfo) (n : string) (c : ColumnInfo)
  (x : string) :
  List.In x (map tableName (crudService.pushColumn tablesMap n c)) ->
  x = n \/ List.In x (map tableName tablesMap).
Proof.
  induction tablesMap as [|t rest IH]; cbn [crudService.pushColumn].
  - cbn. intros [<-|[]]. now left.
  - destruct (String.eqb_spec (tableName t) n) as [Htn|Htn]; cbn [map tableName List.In].
    + intros [<-|Hin]; [now left | right; now right].
    + intros [<-|Hin]; [right; now left|].
      destruct (IH Hin); [now left | right; now right].
Qed.

Lemma pushColumn_NoDup (tablesMap : list TableInfo) (n : string) (c : ColumnInfo) :
  List.NoDup (map tableName tablesMap) ->
  List.NoDup (map tableName (crudService.pushColumn tablesMap n c)).
Proof.
  induction tablesMap as [|t rest IH]; cbn [crudService.pushColumn]; intros Hnd.
  - cbn. constructor; [intros []|constructor].
  - cbn [map] in Hnd. inversion Hnd as [|? ? Hnotin Hrest]; subst.
    destruct (String.eqb_spec (tableName t) n) as [Htn|Htn]; cbn [map tableName].
    + subst n. now constructor.
    + constructor; [|now apply IH].
      intros Hin. apply pushColumn_names in Hin as [Heq|Hin]; [congruence|contradiction].
Qed.

Lemma columnsOfTable_snoc (name : string) (catalogRows : list Row) (row : Row) :
  columnsOfTable name (catalogRows ++ [row])%list
  = (columnsOfTable name catalogRows ++
     if String.eqb (crudService.stringField row "table_name") name
     then [crudService.columnOfRow row] else [])%list.
Proof.
  unfold columnsOfTable.
  rewrite List.filter_app, List.map_app. cbn [List.filter].
  destruct (String.eqb _ name); reflexivity.
Qed.

(** X7. [getTables] groups the rows of the catalog query by table name: the
    result has one entry for each table name that occurs in the rows, and
    the entry of a table lists the columns of exactly the rows of that
    table, in the order of the rows; a name that no row carries has no
    entry. *)
Theorem catalog_rows_grouped_by_table (catalogRows : list Row) (name : string) :
  crudService.findTable (crudService.groupRows catalogRows) name
  = match columnsOfTable name catalogRows with
    | [] => None
    | cols => Some {| tableName := name; columns := cols |}
    end /\
  List.NoDup (map tableName (crudService.groupRows catalogRows)).
Proof.
  unfold crudService.groupRows.
  induction catalogRows as [|row catalogRows [IHfind IHnd]] using rev_ind.
  - split; [reflexivity | constructor].
  - rewrite fold_left_app. cbn [fold_left]. split.
    + rewrite findTable_pushColumn, IHfind, columnsOfTable_snoc.
      destruct (String.eqb _ name).
      * destruct (columnsOfTable name catalogRows); reflexivity.
      * now rewrite app_nil_r.
    + now apply pushColumn_NoDup.
Qed.

(** ** Unknown tables and unknown columns *)

Section SchemaChecks.

Context {Db : Type} `{Database Db}.
Variable config : QueryConfig.

Lemma getTables_issued (projectId : string) (w : World Db) :
  snd (crudService.getTables projectId w) = w \/
  issued (snd (crudService.getTables projectId w))
  = (issued w ++ [catalogStatement projectId])%list.
Proof.
  unfold crudService.getTables, crudService.cacheGet, crudService.dateNow, bind.
  destruct (tableInfoCache w !! projectId) as [entry|].
  - destruct (clock w - ce_timestamp entry <? crudService.CACHE_TTL_MS)%Z.
    + left. reflexivity.
    + right. apply fetchTables_result.
  - right. apply fetchTables_result.
Qed.

Lemma requireTable_unknown (projectId tableName : string) (w w1 : World Db)
  (tables : list TableInfo) :
  crudService.getTables projectId w = (Ok tables, w1) ->
  crudService.findTable tables tableName = None ->
  crudService.requireTable projectId tableName w
  = (Throw (NotFoundError ("Table " +:+ sqlBuilder.quoteIdent tableName +:+ " not found")),
     w1).
Proof.
  intros Hget Hfind. unfold crudService.requireTable.
  rewrite (bind_ok _ _ _ _ _ Hget), Hfind. reflexivity.
Qed.

Lemma bind_throw {A B : Type} (m : M Db A) (k : A -> M Db B)
  (w w1 : World Db) (e : Error) :
  m w = (Throw e, w1) -> bind m k w = (Throw e, w1).
Proof. unfold bind. intros ->. reflexivity. Qed.

Lemma validateFilters_ok (allowed : list string) (filters : list ParsedFilter) :
  crudService.validateFilters allowed filters = Ok tt ->
  Forall (fun f => List.In (filterColumn f) allowed) filters.
Proof.
  unfold crudService.validateFilters, crudService.badFilter.
  destruct (find _ filters) eqn:Hfind; [discriminate|]. intros _.
  apply List.Forall_forall. intros f Hin.
  pose proof (find_none _ _ Hfind f Hin) as Hf. cbn beta in Hf.
  apply arrayIncludes_In. now destruct (Js.arrayIncludes allowed (filterColumn f)).
Qed.

Lemma updateParts_ok (allowed : list string) (entries : Row)
  (parts : crudService.UpdateParts) :
  crudService.updateParts allowed entries = Ok parts ->
  Forall (fun entry => List.In (fst entry) allowed) entries.
Proof.
  unfold crudService.updateParts.
  generalize {| crudService.setClauses := []; crudService.updateValues := [];
                crudService.nextParam := 1 |}.
  induction entries as [|[col val] rest IH]; intros acc; cbn [crudService.updateEntries].
  - constructor.
  - destruct (Js.arrayIncludes allowed col) eqn:Hcol; cbn [negb]; [|discriminate].
    intros Hrest. constructor; [now apply arrayIncludes_In | now apply (IH _ Hrest)].
Qed.

End SchemaChecks.

(** X8. A CRUD operation on a table that the schema of the project does not
    list fails with NotFound [Table "<name>" not found]: [select], [insert],
    [update] and [delete] all stop right after [getTables], so that the only
    statement that can have gone to the database is the catalog query of a
    cache miss, and no statement names the unknown table. *)
Theorem unknown_table_not_found {Db : Type} `{Database Db} (config : QueryConfig)
  (projectId tableName : string) (w w1 : World Db) (tables : list TableInfo) :
  crudService.getTables projectId w = (Ok tables, w1) ->
  crudService.findTable tables tableName = None ->
  let notFound :=
    NotFoundError ("Table " +:+ sqlBuilder.quoteIdent tableName +:+ " not found") in
  (forall options,
     crudService.select config projectId tableName options w = (Throw notFound, w1)) /\
  (forall rowsToInsert returning,
     crudService.insert projectId tableName rowsToInsert returning w
     = (Throw notFound, w1)) /\
  (forall values filters returning,
     crudService.update projectId tableName values filters returning w
     = (Throw notFound, w1)) /\
  (forall filters,
     crudService.delete projectId tableName filters w = (Throw notFound, w1)) /\
  (w1 = w \/ issued w1 = (issued w ++ [catalogStatement projectId])%list).
Proof.
  intros Hget Hfind notFound.
  pose proof (requireTable_unknown projectId tableName w w1 tables Hget Hfind) as Hreq.
  repeat apply conj; intros;
    try (unfold crudService.select, crudService.insert, crudService.update,
           crudService.delete; apply bind_throw; exact Hreq).
  pose proof (getTables_issued projectId w) as Hissued.
  rewrite Hget in Hissued. exact Hissued.
Qed.

Lemma unknown_table_not_found_witness :
  let w := Demo.world Demo.usersCatalog ∅ 0 in
  fst (crudService.delete "p1" "ghosts" [Cmp "id" eq "1"] w)
  = Throw (NotFoundError ("Table " +:+ sqlBuilder.quoteIdent "ghosts" +:+ " not found")).
Proof.
  intros w.
  assert (Hget : crudService.getTables "p1" w
                 = (Ok [Demo.usersTable], snd (crudService.getTables "p1" w)))
    by (vm_compute; reflexivity).
  rewrite (proj1 (proj2 (proj2 (proj2
             (unknown_table_not_found defaultConfig "p1" "ghosts" w _ _ Hget eq_refl))))
             [Cmp "id" eq "1"]).
  reflexivity.
Defined.

(** X9. [select], [update] and [delete] check every column name of the
    request against the schema before they send their statement: when one
    of them sends anything after the table has been found, the order column,
    every filter column and every key of the update payload is a column of
    that table. *)
Theorem statements_name_only_schema_columns {Db : Type} `{Database Db}
  (config : QueryConfig) (projectId tableName : string) (w w1 : World Db)
  (tableInfo : TableInfo) :
  crudService.requireTable projectId tableName w = (Ok tableInfo, w1) ->
  let known := fun c => List.In c (crudService.columnNames tableInfo) in
  (forall options r w2,
     crudService.select config projectId tableName options w = (r, w2) ->
     issued w2 <> issued w1 ->
     (forall o, crudService.opt_order options = Some o -> known (order_column o)) /\
     (forall filters, crudService.opt_filters options = Some filters ->
                      Forall (fun f => known (filterColumn f)) filters)) /\
  (forall values filters returning r w2,
     crudService.update projectId tableName values filters returning w = (r, w2) ->
     issued w2 <> issued w1 ->
     Forall (fun f => known (filterColumn f)) filters /\
     Forall (fun entry => known (fst entry)) values) /\
  (forall filters r w2,
     crudService.delete projectId tableName filters w = (r, w2) ->
     issued w2 <> issued w1 ->
     Forall (fun f => known (filterColumn f)) filters).
Proof.
  intros Hreq known. repeat apply conj.
  - intros options r w2. unfold crudService.select.
    rewrite (bind_ok _ _ _ _ _ Hreq).
    destruct (match crudService.opt_order options with
              | Some o =>
                  if negb (Js.arrayIncludes (crudService.columnNames tableInfo)
                             (order_column o))
                  then Throw (BadRequestError ("Invalid order column: " +:+ order_column o))
                  else Ok tt
              | None => Ok tt
              end) as [[]|e] eqn:Horder.
    2:{ rewrite (bind_liftResult_throw _ _ _ _ eq_refl). intros [= _ <-] Hsent.
        now contradiction Hsent. }
    rewrite (bind_liftResult_ok _ _ _ _ eq_refl).
    destruct (match crudService.opt_filters options with
              | Some filters =>
                  crudService.validateFilters (crudService.columnNames tableInfo) filters
              | None => Ok tt
              end) as [[]|e] eqn:Hfilters.
    2:{ rewrite (bind_liftResult_throw _ _ _ _ eq_refl). intros [= _ <-] Hsent.
        now contradiction Hsent. }
    intros _ _. split.
    + intros o Ho. rewrite Ho in Horder. unfold known. apply arrayIncludes_In.
      destruct (Js.arrayIncludes _ (order_column o)); [reflexivity|discriminate].
    + intros filters Hf. rewrite Hf in Hfilters. now apply validateFilters_ok.
  - intros values filters returning r w2. unfold crudService.update.
    rewrite (bind_ok _ _ _ _ _ Hreq).
    destruct (crudService.validateFilters (crudService.columnNames tableInfo) filters)
      as [[]|e] eqn:Hfilters.
    2:{ rewrite (bind_liftResult_throw _ _ _ _ eq_refl). intros [= _ <-] Hsent.
        now contradiction Hsent. }
    rewrite (bind_liftResult_ok _ _ _ _ eq_refl).
    destruct (crudService.updateParts (crudService.columnNames tableInfo) values)
      as [parts|e] eqn:Hparts.
    2:{ rewrite (bind_liftResult_throw _ _ _ _ eq_refl). intros [= _ <-] Hsent.
        now contradiction Hsent. }
    intros _ _. split; [now apply validateFilters_ok | now apply (updateParts_ok _ _ parts)].
  - intros filters r w2. unfold crudService.delete.
    rewrite (bind_ok _ _ _ _ _ Hreq).
    destruct (crudService.validateFilters (crudService.columnNames tableInfo) filters)
      as [[]|e] eqn:Hfilters.
    2:{ rewrite (bind_liftResult_throw _ _ _ _ eq_refl). intros [= _ <-] Hsent.
        now contradiction Hsent. }
    intros _ _. now apply validateFilters_ok.
Qed.

Lemma statements_name_only_schema_columns_witness :
  let w := Demo.world Demo.usersCatalog Demo.warmCache 0 in
  let run := crudService.delete "p1" "users" [Cmp "id" eq "1"] w in
  Forall (fun f => List.In (filterColumn f) (crudService.columnNames Demo.usersTable))
    [Cmp "id" eq "1"].
Proof.
  intros w run.
  assert (Hreq : crudService.requireTable "p1" "users" w = (Ok Demo.usersTable, w))
    by (vm_compute; reflexivity).
  apply (proj2 (proj2 (statements_name_only_schema_columns defaultConfig
                         "p1" "users" w w Demo.usersTable Hreq))
           [Cmp "id" eq "1"] (fst run) (snd run)).
  - apply surjective_pairing.
  - vm_compute. intros Hsame. apply (f_equal (@length Statement)) in Hsame.
    discriminate Hsame.
Defined.

(** ** The CSV writer and reader *)

Lemma charString_app (c : ascii) (s : string) :
  importExport.charString c +:+ s = String c s.
Proof. reflexivity. Qed.

Lemma includes_char (c : ascii) (s : string) :
  Js.includes (importExport.charString c) s
  = negb (Js.all (fun x => negb (Ascii.eqb x c)) s).
Proof.
  induction s as [|x r IH]; [reflexivity|].
  cbn [Js.includes Js.all importExport.charString Js.startsWith].
  rewrite IH, (Ascii.eqb_sym c x). destruct (Ascii.eqb x c); reflexivity.
Qed.

(** A stretch without comma and quote is read into [current] as it is. *)
Lemma parseCSVLineFrom_plain (s rest current : string) (result : list string) :
  Js.all (fun x => negb (Ascii.eqb x importExport.commaChar)) s = true ->
  Js.all (fun x => negb (Ascii.eqb x importExport.quoteChar)) s = true ->
  importExport.parseCSVLineFrom (s +:+ rest) current false result
  = importExport.parseCSVLineFrom rest (current +:+ s) false result.
Proof.
  revert current. induction s as [|c r IH]; intros current Hcomma Hquote.
  - now rewrite string_app_nil_r.
  - cbn [Js.all] in Hcomma, Hquote.
    apply andb_true_iff in Hcomma as [Hc1 Hcomma], Hquote as [Hc2 Hquote].
    change (String c r +:+ rest) with (String c (r +:+ rest)).
    cbn [importExport.parseCSVLineFrom].
    apply negb_true_iff in Hc1, Hc2. rewrite Hc1, Hc2.
    rewrite (IH _ Hcomma Hquote), string_app_assoc. reflexivity.
Qed.

(** Inside quotes the doubled form of a text, closed by a quote that no
    quote follows, is read back as the text. *)
Lemma parseCSVLineFrom_quoted (s rest current : string) (result : list string) :
  Js.startsWith Js.dquote rest = false ->
  importExport.parseCSVLineFrom
    (importExport.doubleQuotes s +:+ Js.dquote +:+ rest) current true result
  = importExport.parseCSVLineFrom rest (current +:+ s) false result.
Proof.
  intros Hrest. revert current. induction s as [|c r IH]; intros current.
  - rewrite string_app_nil_r.
    change (importExport.doubleQuotes EmptyString +:+ Js.dquote +:+ rest)
      with (String importExport.quoteChar rest).
    cbn [importExport.parseCSVLineFrom]. rewrite Ascii.eqb_refl.
    destruct rest as [|x rest']; [reflexivity|].
    cbn [Js.startsWith Js.dquote] in Hrest.
    rewrite andb_true_r in Hrest. rewrite Ascii.eqb_sym in Hrest.
    change (ascii_of_nat 34) with importExport.quoteChar in Hrest.
    now rewrite Hrest.
  - cbn [importExport.doubleQuotes].
    destruct (Ascii.eqb_spec c importExport.quoteChar) as [->|Hc].
    + change (String importExport.quoteChar (String importExport.quoteChar
                (importExport.doubleQuotes r)) +:+ Js.dquote +:+ rest)
        with (String importExport.quoteChar (String importExport.quoteChar
                (importExport.doubleQuotes r +:+ Js.dquote +:+ rest))).
      cbn [importExport.parseCSVLineFrom]. rewrite Ascii.eqb_refl.
      rewrite IH, string_app_assoc. reflexivity.
    + change (String c (importExport.doubleQuotes r) +:+ Js.dquote +:+ rest)
        with (String c (importExport.doubleQuotes r +:+ Js.dquote +:+ rest)).
      cbn [importExport.parseCSVLineFrom].
      apply Ascii.eqb_neq in Hc. rewrite Hc.
      rewrite IH, string_app_assoc. reflexivity.
Qed.

Lemma parseCSVLineFrom_escaped (s rest current : string) (result : list string) :
  Js.startsWith Js.dquote rest = false ->
  importExport.parseCSVLineFrom (importExport.csvEscape s +:+ rest) current false result
  = importExport.parseCSVLineFrom rest (current +:+ s) false result.
Proof.
  intros Hrest. unfold importExport.csvEscape.
  destruct (Js.includes "," s) eqn:Hcomma; cbn [orb].
  2: destruct (Js.includes Js.dquote s) eqn:Hquote; cbn [orb].
  3: destruct (Js.includes Js.nl s) eqn:Hnl.
  4:{ apply parseCSVLineFrom_plain.
      - change "," with (importExport.charString importExport.commaChar) in Hcomma.
        rewrite includes_char in Hcomma. now apply negb_false_iff in Hcomma.
      - change Js.dquote with (importExport.charString importExport.quoteChar) in Hquote.
        rewrite includes_char in Hquote. now apply negb_false_iff in Hquote. }
  all: rewrite !string_app_assoc;
    change (Js.dquote +:+ importExport.doubleQuotes s +:+ Js.dquote +:+ rest)
      with (String importExport.quoteChar
              (importExport.doubleQuotes s +:+ Js.dquote +:+ rest));
    cbn [importExport.parseCSVLineFrom];
    change (Ascii.eqb importExport.quoteChar importExport.quoteChar) with true;
    cbn iota; now apply parseCSVLineFrom_quoted.
Qed.

Lemma parseCSVLineFrom_cells (cells : list string) :
  forall result, cells <> [] ->
    importExport.parseCSVLineFrom
      (Js.join "," (map importExport.csvEscape cells)) EmptyString false result
    = (result ++ cells)%list.
Proof.
  induction cells as [|cell rest IH]; intros result Hne; [congruence|].
  destruct rest as [|next rest].
  - cbn [map Js.join].
    rewrite <- (string_app_nil_r (importExport.csvEscape cell)).
    rewrite parseCSVLineFrom_escaped by reflexivity. reflexivity.
  - change (Js.join "," (map importExport.csvEscape (cell :: next :: rest)))
      with (importExport.csvEscape cell +:+ "," +:+
            Js.join "," (map importExport.csvEscape (next :: rest))).
    rewrite parseCSVLineFrom_escaped by reflexivity.
    change ("," +:+ Js.join "," (map importExport.csvEscape (next :: rest)))
      with (String importExport.commaChar
              (Js.join "," (map importExport.csvEscape (next :: rest)))).
    cbn [importExport.parseCSVLineFrom].
    change (Ascii.eqb importExport.commaChar importExport.quoteChar) with false.
    change (Ascii.eqb importExport.commaChar importExport.commaChar) with true.
    cbn iota. rewrite IH by discriminate.
    now rewrite <- app_assoc.
Qed.

Lemma csvCell_escape (row : Row) (h : string) :
  importExport.csvCell (lookupKey h row) = importExport.csvEscape (cellText row h).
Proof.
  unfold importExport.csvCell, cellText.
  destruct (lookupKey h row) as [[| | | | |]|]; reflexivity.
Qed.

Lemma csvLine_cells (headers : list string) (row : Row) :
  importExport.csvLine headers row
  = Js.join "," (map importExport.csvEscape (map (cellText row) headers)).
Proof.
  unfold importExport.csvLine. rewrite List.map_map. f_equal.
  apply List.map_ext. intros h. apply csvCell_escape.
Qed.

Lemma parseCSVLine_csvLine (headers : list string) (row : Row) :
  headers <> [] ->
  importExport.parseCSVLine (importExport.csvLine headers row)
  = map (cellText row) headers.
Proof.
  intros Hne. unfold importExport.parseCSVLine.
  rewrite csvLine_cells, parseCSVLineFrom_cells; [reflexivity|].
  destruct headers; [congruence|discriminate].
Qed.

Lemma rev_app_spec (s : string) :
  forall t, String.rev_app s t = String.rev s +:+ t.
Proof.
  unfold String.rev. induction s as [|c r IH]; intros t; [reflexivity|].
  cbn [String.rev_app]. rewrite (IH (String c t)), (IH (String c EmptyString)).
  now rewrite string_app_assoc.
Qed.

Lemma rev_cons (c : ascii) (s : string) :
  String.rev (String c s) = String.rev s +:+ String c EmptyString.
Proof. unfold String.rev at 1. cbn [String.rev_app]. apply rev_app_spec. Qed.

Lemma parseCSVLineFrom_split (s : string) :
  forall (cur : string) (result : list string),
    Js.all (fun x => negb (Ascii.eqb x importExport.quoteChar)) s = true ->
    importExport.parseCSVLineFrom s (String.rev cur) false result
    = (result ++ Js.splitGo importExport.commaChar cur s)%list.
Proof.
  induction s as [|c r IH]; intros cur result Hq; [reflexivity|].
  cbn [Js.all] in Hq. apply andb_true_iff in Hq as [Hc Hq].
  apply negb_true_iff in Hc.
  cbn [importExport.parseCSVLineFrom Js.splitGo]. rewrite Hc.
  destruct (Ascii.eqb c importExport.commaChar).
  - rewrite (IH EmptyString _ Hq). now rewrite <- app_assoc.
  - rewrite <- (IH (String c cur) _ Hq), rev_cons. reflexivity.
Qed.


(** The lines of a text. *)

Lemma splitGo_cur (sep : ascii) (s : string) :
  forall cur,
    Js.splitGo sep cur s
    = match Js.splitGo sep EmptyString s with
      | x :: rest => (String.rev cur +:+ x) :: rest
      | [] => []
      end.
Proof.
  induction s as [|c r IH]; intros cur; cbn [Js.splitGo].
  - change (String.rev EmptyString) with EmptyString. now rewrite string_app_nil_r.
  - destruct (Ascii.eqb c sep).
    + change (String.rev EmptyString) with EmptyString. now rewrite string_app_nil_r.
    + rewrite (IH (String c cur)), (IH (String c EmptyString)).
      destruct (Js.splitGo sep EmptyString r) as [|x rest]; [reflexivity|].
      rewrite rev_cons, string_app_assoc. reflexivity.
Qed.

Lemma split_line (sep : ascii) (s rest : string) :
  Js.all (fun x => negb (Ascii.eqb x sep)) s = true ->
  Js.split sep (s +:+ String sep rest) = s :: Js.split sep rest.
Proof.
  unfold Js.split. induction s as [|c r IH]; intros Hs.
  - change (EmptyString +:+ String sep rest) with (String sep rest).
    cbn [Js.splitGo]. now rewrite Ascii.eqb_refl.
  - cbn [Js.all] in Hs. apply andb_true_iff in Hs as [Hc Hs].
    apply negb_true_iff in Hc.
    change (String c r +:+ String sep rest) with (String c (r +:+ String sep rest)).
    cbn [Js.splitGo]. rewrite Hc, splitGo_cur, (IH Hs). reflexivity.
Qed.

Lemma split_last (sep : ascii) (s : string) :
  Js.all (fun x => negb (Ascii.eqb x sep)) s = true ->
  Js.split sep s = [s].
Proof.
  unfold Js.split. induction s as [|c r IH]; intros Hs; [reflexivity|].
  cbn [Js.all] in Hs. apply andb_true_iff in Hs as [Hc Hs].
  apply negb_true_iff in Hc.
  cbn [Js.splitGo]. rewrite Hc, splitGo_cur, (IH Hs). reflexivity.
Qed.

Lemma split_join_lines (lines : list string) :
  lines <> [] ->
  Forall (fun line => Js.includes Js.nl line = false) lines ->
  Js.split importExport.newlineChar (Js.join Js.nl lines) = lines.
Proof.
  intros Hne Hall. induction Hall as [|line rest Hline Hrest IH]; [congruence|].
  change Js.nl with (importExport.charString importExport.newlineChar) in Hline.
  rewrite includes_char in Hline. apply negb_false_iff in Hline.
  destruct rest as [|next rest].
  - cbn [Js.join]. now apply split_last.
  - change (Js.join Js.nl (line :: next :: rest))
      with (line +:+ String importExport.newlineChar (Js.join Js.nl (next :: rest))).
    rewrite (split_line _ _ _ Hline), IH by discriminate. reflexivity.
Qed.

Lemma filter_all {A : Type} (p : A -> bool) (l : list A) :
  Forall (fun x => p x = true) l -> List.filter p l = l.
Proof.
  induction 1 as [|x rest Hx _ IH]; [reflexivity|].
  cbn [List.filter]. now rewrite Hx, IH.
Qed.

Lemma all_join (p : ascii -> bool) (sep : string) (l : list string) :
  Js.all p sep = true ->
  Forall (fun s => Js.all p s = true) l ->
  Js.all p (Js.join sep l) = true.
Proof.
  intros Hsep Hall. induction Hall as [|s rest Hs Hrest IH]; [reflexivity|].
  destruct rest as [|next rest]; [exact Hs|].
  change (Js.join sep (s :: next :: rest)) with (s +:+ sep +:+ Js.join sep (next :: rest)).
  now rewrite !all_app, Hs, Hsep, IH.
Qed.

Lemma all_doubleQuotes (p : ascii -> bool) (s : string) :
  p importExport.quoteChar = true ->
  Js.all p s = true -> Js.all p (importExport.doubleQuotes s) = true.
Proof.
  intros Hq. induction s as [|c r IH]; [reflexivity|].
  cbn [Js.all importExport.doubleQuotes]. intros Hs.
  apply andb_true_iff in Hs as [Hc Hs].
  destruct (Ascii.eqb c importExport.quoteChar); cbn [Js.all];
    now rewrite ?Hq, ?Hc, (IH Hs).
Qed.

Lemma all_csvEscape (p : ascii -> bool) (s : string) :
  p importExport.quoteChar = true ->
  Js.all p s = true -> Js.all p (importExport.csvEscape s) = true.
Proof.
  intros Hq Hs. unfold importExport.csvEscape.
  destruct (_ || _ || _)%bool; [|exact Hs].
  rewrite !all_app, (all_doubleQuotes p s Hq Hs).
  change (Js.all p Js.dquote) with (p importExport.quoteChar && true)%bool.
  now rewrite Hq.
Qed.

Lemma no_newline_all (s : string) :
  Js.includes Js.nl s = false <->
  Js.all (fun x => negb (Ascii.eqb x importExport.newlineChar)) s = true.
Proof.
  change Js.nl with (importExport.charString importExport.newlineChar).
  rewrite includes_char. apply negb_false_iff.
Qed.

Lemma csvLine_no_newline (headers : list string) (row : Row) :
  Forall (fun h => Js.includes Js.nl (cellText row h) = false) headers ->
  Js.includes Js.nl (importExport.csvLine headers row) = false.
Proof.
  intros Hcells. apply no_newline_all. rewrite csvLine_cells.
  apply all_join; [reflexivity|].
  rewrite !List.Forall_map. eapply List.Forall_impl; [|exact Hcells].
  intros h Hh. apply all_csvEscape; [reflexivity | now apply no_newline_all].
Qed.

Lemma csvEscape_plain (s : string) :
  Js.includes "," s = false -> Js.includes Js.dquote s = false ->
  Js.includes Js.nl s = false ->
  importExport.csvEscape s = s.
Proof. unfold importExport.csvEscape. now intros -> -> ->. Qed.

(** The record of a line. *)

Lemma csvRecord_fold (f : string -> string) (values : list string)
  (headers : list string) :
  forall (g : nat -> nat) (acc : gmap string string),
    Forall (fun h => h <> "__proto__") headers ->
    (forall i h, headers !! i = Some h -> values !! g i = Some (f h)) ->
    forall x,
      fold_left
        (fun row entry =>
           importExport.assign (snd entry)
             (default EmptyString (values !! fst entry)) row)
        (imap (fun idx header => (g idx, header)) headers) acc !! x
      = if bool_decide (x ∈ headers) then Some (f x) else acc !! x.
Proof.
  induction headers as [|h rest IH]; intros g acc Hproto Hvalues x.
  - reflexivity.
  - inversion Hproto as [|? ? Hh Hrest]; subst. cbn [imap fold_left].
    change (imap ((fun idx header => (g idx, header)) ∘ S) rest)
      with (imap (fun idx header => ((g ∘ S) idx, header)) rest).
    rewrite IH; [|exact Hrest|intros i h' Hi; apply (Hvalues (S i) h' Hi)].
    cbn [fst snd]. rewrite (Hvalues 0%nat h eq_refl). cbn [default].
    unfold importExport.assign.
    destruct (String.eqb_spec h "__proto__") as [|_]; [contradiction|].
    destruct (decide (x ∈ rest)) as [Hin|Hnotin].
    + rewrite !bool_decide_eq_true_2; [reflexivity| |assumption].
      now apply elem_of_cons; right.
    + rewrite (bool_decide_eq_false_2 (x ∈ rest)) by assumption.
      destruct (decide (x = h)) as [->|Hne].
      * rewrite lookup_insert_eq, bool_decide_eq_true_2; [reflexivity|].
        apply elem_of_cons; now left.
      * rewrite lookup_insert_ne by congruence.
        rewrite bool_decide_eq_false_2; [reflexivity|].
        intros [?|?]%elem_of_cons; contradiction.
Qed.

Lemma csvRecord_lookup (f : string -> string) (headers : list string) (x : string) :
  Forall (fun h => h <> "__proto__") headers ->
  importExport.csvRecord headers (map f headers) !! x
  = if bool_decide (x ∈ headers) then Some (f x) else None.
Proof.
  intros Hproto. unfold importExport.csvRecord.
  rewrite (csvRecord_fold f (map f headers) headers (fun i => i) ∅ Hproto).
  - now rewrite lookup_empty.
  - intros i h Hi. change (map f headers) with (f <$> headers).
    now rewrite list_lookup_fmap, Hi.
Qed.

Lemma join_plain_headers (headers : list string) :
  Forall plainHeader headers ->
  Js.join "," headers = Js.join "," (map importExport.csvEscape headers).
Proof.
  intros Hplain. f_equal.
  induction Hplain as [|h rest [Hc [Hq [Hn _]]] _ IH]; [reflexivity|].
  cbn [map]. now rewrite (csvEscape_plain h Hc Hq Hn), <- IH.
Qed.

(** X10. Whatever the values of a row are, [parseCSVLine] reads the line
    that the CSV writer makes of the row back into the texts of its cells,
    one per header and in the order of the headers: commas, quotes and line
    breaks inside a value survive the quoting.  (A row without any column
    is written as the empty line, which reads as one empty cell.) *)
Theorem csv_line_read_back (headers : list string) (row : Row) :
  headers <> [] ->
  importExport.parseCSVLine (importExport.csvLine headers row)
  = map (cellText row) headers.
Proof. apply parseCSVLine_csvLine. Qed.

Lemma csv_line_read_back_witness :
  importExport.parseCSVLine
    (importExport.csvLine ["id"; "note"; "tags"]
       [("id", VNum (Js.Num 7));
        ("note", VStr ("say " +:+ Js.dquote +:+ "hi" +:+ Js.dquote +:+ ", then" +:+ Js.nl +:+ "leave"));
        ("tags", VNull)])
  = ["7"; "say " +:+ Js.dquote +:+ "hi" +:+ Js.dquote +:+ ", then" +:+ Js.nl +:+ "leave";
     EmptyString].
Proof.
  apply (csv_line_read_back ["id"; "note"; "tags"]
           [("id", VNum (Js.Num 7));
            ("note", VStr ("say " +:+ Js.dquote +:+ "hi" +:+ Js.dquote +:+ ", then" +:+ Js.nl +:+ "leave"));
            ("tags", VNull)]).
  discriminate.
Defined.

(** X11. On a line that has no double quote in it, [parseCSVLine] is
    [line.split(',')]. *)
Theorem csv_line_without_quotes (line : string) :
  Js.includes Js.dquote line = false ->
  importExport.parseCSVLine line = Js.split importExport.commaChar line.
Proof.
  intros Hq. change Js.dquote with (importExport.charString importExport.quoteChar) in Hq.
  rewrite includes_char in Hq. apply negb_false_iff in Hq.
  apply (parseCSVLineFrom_split line EmptyString [] Hq).
Qed.

Lemma csv_line_without_quotes_witness :
  importExport.parseCSVLine "a,,b c," = Js.split importExport.commaChar "a,,b c,".
Proof. apply (csv_line_without_quotes "a,,b c,"). reflexivity. Defined.

(** X12. The CSV text that [exportTable] writes for a result with at least
    one row is read back by [parseCSV]: the headers are the keys of the
    first row, and each row comes back as a record that has, for every
    header, the text of its cell, the empty string for [null].  This needs
    what the two functions do not handle: the headers are written unescaped,
    so they must be free of commas, quotes and line breaks; the reader splits
    the text at line breaks before it looks at quotes, so no cell may hold a
    line break; and it drops blank lines, so no line may be blank. *)
Theorem csv_export_read_back (columns : list string) (first : Row) (rest : list Row) :
  let headers := map fst first in
  let resultRows := first :: rest in
  Forall plainHeader headers ->
  importExport.nonBlank (Js.join "," headers) = true ->
  Forall (readableRow headers) resultRows ->
  let parsed := importExport.parseCSV (importExport.exportCsv columns resultRows) true in
  importExport.backupCsv resultRows = importExport.exportCsv columns resultRows /\
  importExport.csv_headers parsed = headers /\
  Forall2 (recordOf headers) resultRows (importExport.csv_rows parsed).
Proof.
  intros headers resultRows Hplain Hheader Hrows parsed.
  split; [reflexivity|].
  assert (Hne : headers <> []).
  { intros Hnil. rewrite Hnil in Hheader. discriminate Hheader. }
  assert (Hlines :
    List.filter importExport.nonBlank
      (Js.split importExport.newlineChar (importExport.exportCsv columns resultRows))
    = Js.join "," headers :: map (importExport.csvLine headers) resultRows).
  { unfold importExport.exportCsv, resultRows, importExport.csvLines. fold headers.
    rewrite split_join_lines.
    - apply filter_all. constructor; [exact Hheader|].
      apply List.Forall_map. eapply List.Forall_impl; [|exact Hrows].
      intros row [Hrow _]. exact Hrow.
    - discriminate.
    - constructor.
      + apply no_newline_all. apply all_join; [reflexivity|].
        eapply List.Forall_impl; [|exact Hplain].
        intros h [_ [_ [Hn _]]]. now apply no_newline_all.
      + apply List.Forall_map. eapply List.Forall_impl; [|exact Hrows].
        intros row [_ Hcells]. now apply csvLine_no_newline. }
  assert (Hparsed : importExport.parseCSVLine (Js.join "," headers) = headers).
  { unfold importExport.parseCSVLine.
    rewrite (join_plain_headers headers Hplain), parseCSVLineFrom_cells; [reflexivity|].
    exact Hne. }
  assert (Hproto : Forall (fun h => h <> "__proto__") headers).
  { eapply List.Forall_impl; [|exact Hplain]. intros h [_ [_ [_ Hh]]]. exact Hh. }
  unfold parsed, importExport.parseCSV. rewrite Hlines. cbn [drop].
  rewrite Hparsed.
  cbn [importExport.csv_headers importExport.csv_rows]. split; [reflexivity|].
  clear Hlines Hrows parsed. induction resultRows as [|row more IH]; [constructor|].
  cbn [map]. constructor; [|exact IH].
  intros h. rewrite (parseCSVLine_csvLine headers row Hne).
  now apply csvRecord_lookup.
Qed.

Lemma csv_export_read_back_witness :
  let first := [("id", VNum (Js.Num 1)); ("name", VStr "Ada, Countess")] in
  let second := [("id", VNum (Js.Num 2)); ("name", VNull)] in
  let parsed :=
    importExport.parseCSV (importExport.exportCsv ["id"; "name"] [first; second]) true in
  importExport.csv_headers parsed = ["id"; "name"] /\
  Forall2 (recordOf ["id"; "name"]) [first; second] (importExport.csv_rows parsed).
Proof.
  intros first second parsed.
  apply (proj2 (csv_export_read_back ["id"; "name"] first [second]
                  ltac:(repeat constructor; discriminate) eq_refl
                  ltac:(repeat constructor))).
Defined.

(** ** Columns added to a table, and the schema routes *)

(** X13. [addColumn] reads the name, the type, the nullability, the
    uniqueness and the default of a column definition and nothing else: a
    primary-key flag or a reference in the definition changes neither the
    result nor the statement sent, and the names in a reference are not
    validated. *)
Theorem addColumn_ignores_key_and_reference {Db : Type} `{Database Db}
  (projectId tableName : string) (col col' : ColumnDefinition) (w : World Db) :
  cd_name col' = cd_name col ->
  cd_type col' = cd_type col ->
  cd_nullable col' = cd_nullable col ->
  cd_unique col' = cd_unique col ->
  cd_defaultValue col' = cd_defaultValue col ->
  crudService.addColumn projectId tableName col' w
  = crudService.addColumn projectId tableName col w.
Proof.
  destruct col, col'. cbn [cd_name cd_type cd_nullable cd_unique cd_defaultValue].
  intros -> -> -> -> ->. reflexivity.
Qed.

Lemma addColumn_ignores_key_and_reference_witness :
  let w := Demo.world Demo.usersCatalog Demo.warmCache 10 in
  crudService.addColumn "p1" "users"
    {| cd_name := "age"; cd_type := "integer"; cd_nullable := None;
       cd_primaryKey := Some true; cd_unique := None; cd_defaultValue := None;
       cd_references := Some ("no such table", "x; --") |} w
  = crudService.addColumn "p1" "users" (plainColumn "age" "integer") w.
Proof.
  intros w.
  apply (addColumn_ignores_key_and_reference "p1" "users"
           (plainColumn "age" "integer")
           {| cd_name := "age"; cd_type := "integer"; cd_nullable := None;
              cd_primaryKey := Some true; cd_unique := None; cd_defaultValue := None;
              cd_references := Some ("no such table", "x; --") |} w);
    reflexivity.
Defined.

(** X14. Every schema route asks for a secret key first: with a key of
    any other type the request fails with Forbidden before the table name
    and the body are looked at, nothing is sent to the database and the
    schema cache is untouched. *)
Theorem schema_routes_require_secret_key {Db : Type} `{Database Db}
  (tableNameSchema : string -> bool) (projectId keyType : string) (w : World Db) :
  keyType <> "secret" ->
  let forbidden {A : Type} : Result A * World Db :=
    (Throw (ForbiddenError "This operation requires a secret API key"), w) in
  (forall body,
     dbRoutes.postSchemaTables projectId keyType body w = forbidden) /\
  (forall tableName body,
     dbRoutes.deleteSchemaTable tableNameSchema projectId keyType tableName body w
     = forbidden) /\
  (forall tableName body,
     dbRoutes.patchSchemaTableRename tableNameSchema projectId keyType tableName body w
     = forbidden) /\
  (forall tableName body,
     dbRoutes.postSchemaColumns tableNameSchema projectId keyType tableName body w
     = forbidden) /\
  (forall tableName columnName body,
     dbRoutes.deleteSchemaColumn tableNameSchema projectId keyType tableName
       columnName body w = forbidden) /\
  (forall tableName body,
     dbRoutes.patchSchemaColumnRename tableNameSchema projectId keyType tableName body w
     = forbidden).
Proof.
  intros Hkey forbidden.
  assert (Hrequire : forall (B : Type) (k : unit -> M Db B),
             bind (dbRoutes.requireSecretKey keyType) k w
             = (Throw (ForbiddenError "This operation requires a secret API key"), w)).
  { intros B k. unfold dbRoutes.requireSecretKey.
    destruct (String.eqb_spec keyType "secret") as [|_]; [contradiction|].
    reflexivity. }
  repeat apply conj; intros; apply Hrequire.
Qed.

Lemma schema_routes_require_secret_key_witness :
  let w := Demo.world Demo.usersCatalog Demo.warmCache 10 in
  dbRoutes.deleteSchemaTable Demo.anyTableName "p1" "publishable" "users"
    (Some (false, true)) w
  = (Throw (ForbiddenError "This operation requires a secret API key"), w).
Proof.
  intros w.
  apply (proj1 (proj2 (schema_routes_require_secret_key Demo.anyTableName "p1"
                         "publishable" w ltac:(discriminate)))).
Defined.

(** X15. A schema route sends a statement only for a request that came
    with a secret key, whose path parameters passed the table name schema
    and whose body fitted the schema of the route; it then behaves exactly
    as the DDL operation that the request asks for.  In every other case the
    world is as it was. *)
Theorem schema_routes_run_ddl_with_secret_key {Db : Type} `{Database Db}
  (tableNameSchema : string -> bool) (projectId keyType : string)
  (request : SchemaRequest) (w w1 : World Db) (r : Result unit) :
  runSchemaRoute tableNameSchema projectId keyType request w = (r, w1) ->
  w1 <> w ->
  keyType = "secret" /\
  Forall (fun name => tableNameSchema name = true) (requestNames request) /\
  exists op, requestedDdl request = Some op /\ runDdl projectId op w = (r, w1).
Proof.
  intros Hrun Hmoved.
  unfold runSchemaRoute, dbRoutes.postSchemaTables, dbRoutes.deleteSchemaTable,
    dbRoutes.patchSchemaTableRename, dbRoutes.postSchemaColumns,
    dbRoutes.deleteSchemaColumn, dbRoutes.patchSchemaColumnRename,
    dbRoutes.requireSecretKey, dbRoutes.requireTableName in Hrun.
  destruct (String.eqb_spec keyType "secret") as [Hkey|Hkey]; cbn [negb] in Hrun.
  2:{ destruct request; injection Hrun as _ <-; now contradiction Hmoved. }
  split; [exact Hkey|].
  destruct request as [body | t body | t body | t body | t c body | t body];
    cbn [requestNames];
    try (destruct (tableNameSchema t) eqn:Ht;
         [|injection Hrun as _ <-; now contradiction Hmoved]);
    try (destruct (tableNameSchema c) eqn:Hc;
         [|injection Hrun as _ <-; now contradiction Hmoved]);
    (destruct body as [body|];
     [|injection Hrun as _ <-; now contradiction Hmoved]);
    (split; [repeat constructor; assumption|]).
  - destruct body as [[name cols] ifNotExists]. eexists. split; [reflexivity|exact Hrun].
  - destruct body as [ifExists cascade]. eexists. split; [reflexivity|exact Hrun].
  - eexists. split; [reflexivity|exact Hrun].
  - eexists. split; [reflexivity|exact Hrun].
  - destruct body as [ifExists cascade]. eexists. split; [reflexivity|exact Hrun].
  - destruct body as [oldName newName]. eexists. split; [reflexivity|exact Hrun].
Qed.

Lemma schema_routes_run_ddl_with_secret_key_witness :
  let w := Demo.world Demo.usersCatalog Demo.warmCache 10 in
  let request := DeleteColumn "users" "email" (Some (false, false)) in
  let run := runSchemaRoute Demo.anyTableName "p1" "secret" request w in
  exists op, requestedDdl request = Some op /\ runDdl "p1" op w = run.
Proof.
  intros w request run.
  destruct (schema_routes_run_ddl_with_secret_key Demo.anyTableName "p1" "secret"
              request w (snd run) (fst run) (surjective_pairing run))
    as [_ [_ [op [Hop Hrun]]]].
  - vm_compute. intros Hsame. apply (f_equal (fun x => length (issued x))) in Hsame.
    discriminate Hsame.
  - exists op. split; [exact Hop|]. rewrite Hrun. symmetry. apply surjective_pairing.
Defined.

(** The keys of the records of [parseCSV]. *)

Lemma csvRecord_keys_fold (values : list string) (entries : list (nat * string)) :
  forall (acc : gmap string string) (x : string),
    is_Some (fold_left
               (fun row entry =>
                  importExport.assign (snd entry)
                    (default EmptyString (values !! fst entry)) row)
               entries acc !! x)
    <-> is_Some (acc !! x) \/ (x ∈ map snd entries /\ x <> "__proto__").
Proof.
  induction entries as [|[idx h] rest IH]; intros acc x; cbn [fold_left map snd fst].
  - split; [now left | intros [Hacc | [Hin _]]; [exact Hacc | inversion Hin]].
  - rewrite IH. unfold importExport.assign.
    destruct (String.eqb_spec h "__proto__") as [Hproto|Hproto].
    + split.
      * intros [Hacc | [Hin Hx]]; [now left | right; split; [now right | exact Hx]].
      * intros [Hacc | [Hin Hx]]; [now left|].
        apply elem_of_cons in Hin as [->|Hin]; [contradiction | right; now split].
    + destruct (decide (x = h)) as [->|Hne].
      * rewrite lookup_insert_eq. split.
        -- intros _. right. split; [now left | exact Hproto].
        -- intros _. left. eauto.
      * rewrite lookup_insert_ne by congruence. split.
        -- intros [Hacc | [Hin Hx]]; [now left | right; split; [now right | exact Hx]].
        -- intros [Hacc | [Hin Hx]]; [now left|].
           apply elem_of_cons in Hin as [->|Hin]; [contradiction | right; now split].
Qed.

Lemma csvRecord_keys (headers values : list string) (x : string) :
  is_Some (importExport.csvRecord headers values !! x)
  <-> x ∈ headers /\ x <> "__proto__".
Proof.
  unfold importExport.csvRecord. rewrite csvRecord_keys_fold, lookup_empty.
  assert (Hsnd : forall g : nat -> nat,
             map snd (imap (fun idx header => (g idx, header)) headers) = headers).
  { induction headers as [|h rest IH]; intros g; [reflexivity|].
    cbn [imap map snd]. f_equal. apply (IH (g ∘ S)). }
  rewrite (Hsnd (fun idx => idx)). split.
  - intros [[v Hv] | Hin]; [discriminate Hv | exact Hin].
  - intros Hin. now right.
Qed.

(** X16. Whatever the text is, every record that [parseCSV] returns has
    exactly the headers as its keys (the header [__proto__] apart, which an
    assignment cannot create): a line with fewer cells than headers is
    filled up, and the cells beyond the last header are dropped. *)
Theorem parseCSV_records_have_the_headers (csvData : string) (skipFirstRow : bool) :
  let parsed := importExport.parseCSV csvData skipFirstRow in
  Forall (fun record : gmap string string =>
            forall h, is_Some (record !! h)
                      <-> h ∈ importExport.csv_headers parsed /\ h <> "__proto__")
    (importExport.csv_rows parsed).
Proof.
  unfold importExport.parseCSV.
  destruct (List.filter importExport.nonBlank
              (Js.split importExport.newlineChar csvData)) as [|headerLine more];
    cbn [importExport.csv_rows importExport.csv_headers]; [constructor|].
  apply List.Forall_map, List.Forall_forall. intros line _ h. apply csvRecord_keys.
Qed.

(** ** The rows that a mutation returns *)

Lemma insertRows_results {Db : Type} `{Database Db} (projectId tableName : string)
  (allowed : list string) (returning : bool) (rowsToInsert : list Row) :
  forall (results out : list Row) (w w1 : World Db),
    crudService.insertRows projectId tableName allowed returning rowsToInsert results w
    = (Ok out, w1) ->
    exists returned,
      out = (results ++ returned)%list /\
      (length returned <= length rowsToInsert)%nat /\
      (returning = false -> returned = []).
Proof.
  induction rowsToInsert as [|row rest IH]; intros results out w w1;
    cbn [crudService.insertRows].
  - intros [= <- _]. exists []. rewrite app_nil_r. repeat split. cbn. lia.
  - destruct (crudService.insertParts allowed row) as [parts|e] eqn:Hparts.
    2:{ rewrite (bind_liftResult_throw _ _ _ _ eq_refl). discriminate. }
    rewrite (bind_liftResult_ok _ _ _ _ eq_refl). unfold bind at 1.
    destruct (crudService.queryAsApp projectId _ _ w) as [[result|e] w'];
      [|discriminate].
    intros Hrest. apply IH in Hrest as [returned [-> [Hlen Hnone]]].
    destruct returning.
    + destruct (rows result) as [|firstRow others].
      * exists returned. repeat split; [cbn [length]; lia | discriminate].
      * exists (firstRow :: returned). rewrite <- app_assoc.
        repeat split; [cbn [length]; lia | discriminate].
    + exists returned. repeat split; [cbn [length]; lia | exact Hnone].
Qed.

(** X17. A successful [insert] returns at most one row for each row of
    the request, and none at all unless [returning] was asked for; a
    successful [update] that was not asked for [returning] returns no row
    either, whatever the database answered. *)
Theorem mutations_return_rows_only_on_request {Db : Type} `{Database Db}
  (projectId tableName : string) (w w1 : World Db) (out : list Row) :
  (forall rowsToInsert returning,
     crudService.insert projectId tableName rowsToInsert returning w = (Ok out, w1) ->
     (length out <= length rowsToInsert)%nat /\ (returning = false -> out = [])) /\
  (forall values filters,
     crudService.update projectId tableName values filters false w = (Ok out, w1) ->
     out = []).
Proof.
  split.
  - intros rowsToInsert returning. unfold crudService.insert, bind at 1.
    destruct (crudService.requireTable projectId tableName w) as [[tableInfo|e] w'];
      [|discriminate].
    intros Hrows. apply insertRows_results in Hrows as [returned [-> [Hlen Hnone]]].
    split; [exact Hlen | exact Hnone].
  - intros values filters. unfold crudService.update, bind at 1.
    destruct (crudService.requireTable projectId tableName w) as [[tableInfo|e] w'];
      [|discriminate].
    destruct (crudService.validateFilters (crudService.columnNames tableInfo) filters)
      as [[]|e]; [|rewrite (bind_liftResult_throw _ _ _ _ eq_refl); discriminate].
    rewrite (bind_liftResult_ok _ _ _ _ eq_refl).
    destruct (crudService.updateParts (crudService.columnNames tableInfo) values)
      as [parts|e]; [|rewrite (bind_liftResult_throw _ _ _ _ eq_refl); discriminate].
    rewrite (bind_liftResult_ok _ _ _ _ eq_refl).
    destruct (sqlBuilder.buildWhereClause filters (crudService.nextParam parts))
      as [whereClause whereValues].
    unfold bind. destruct (crudService.queryAsApp projectId _ _ w') as [[result|e] w''];
      [|discriminate].
    now intros [= <- _].
Qed.

Lemma mutations_return_rows_only_on_request_witness :
  let w := Demo.world Demo.usersCatalog Demo.warmCache 10 in
  let rowsToInsert := [ [("name", VStr "A")]; [("email", VStr "a@x.com")] ] in
  let run := crudService.insert "p1" "users" rowsToInsert true w in
  let out := match fst run with Ok returned => returned | Throw _ => [] end in
  fst run = Ok out /\ (length out <= 2)%nat.
Proof.
  intros w rowsToInsert run out.
  assert (Hrun : run = (Ok out, snd run)) by (vm_compute; reflexivity).
  split; [now rewrite Hrun at 1|].
  apply (proj1 (proj1 (mutations_return_rows_only_on_request "p1" "users" w (snd run) out)
                  rowsToInsert true Hrun)).
Defined.
